(** * LoadBalancerSimulator: a shallow embedding of load_balancer_simulator.cc

    The simulator is a single translation unit.  Its objects (servers,
    proxies, the simulator itself) are modelled as records that are passed
    and returned explicitly; the process-wide state (the hidden state of
    [rand()] and the three file-scope [static std::vector<int>] buffers)
    is threaded through a small state-and-error monad. *)

From Stdlib Require Import ZArith List Lia Bool String.
From stdpp Require Import base list sorting.
Import ListNotations.
Open Scope Z_scope.

(** ** Machine integers *)

(** [int] is 32 bits wide and [long long] and [size_t] are 64 bits wide on
    the platforms the simulator is built for.  Values are kept in [Z]; an
    arithmetic result is brought back into range by the two's complement
    wrap-around written out below. *)

Definition INT_MIN : Z := - 2 ^ 31.
Definition INT_MAX : Z := 2 ^ 31 - 1.

Definition wrap_int (z : Z) : Z := (z + 2 ^ 31) mod 2 ^ 32 - 2 ^ 31.
Definition wrap_llong (z : Z) : Z := (z + 2 ^ 63) mod 2 ^ 64 - 2 ^ 63.
Definition wrap_size_t (z : Z) : Z := z mod 2 ^ 64.

(** [x++] and [x--] on an [int]. *)
Definition int_incr (x : Z) : Z := wrap_int (x + 1).
Definition int_decr (x : Z) : Z := wrap_int (x - 1).

(** ** Outcomes of running a piece of the program *)

(** [Undefined] stands for the situations the C++ standard leaves without
    meaning and that the code does not guard against: reading a vector or a
    deque outside its bounds, dereferencing a null [unique_ptr], dividing by
    zero, reaching the closing brace of a function that has to return a
    value.  [Starved] is a property of the model only: the finite tape of
    [rand()] results was used up before the computation finished. *)
Inductive outcome (A : Type) : Type :=
| Ret (a : A)
| Undefined
| Starved.
Arguments Ret {A} a.
Arguments Undefined {A}.
Arguments Starved {A}.

Definition obind {A B : Type} (o : outcome A) (k : A -> outcome B) : outcome B :=
  match o with
  | Ret a => k a
  | Undefined => Undefined
  | Starved => Starved
  end.

(** ** Process-wide state *)

(** [rand_tape] lists the values the coming calls of [rand()] return, in
    order; [rand()] never returns a negative number, hence [N].  The other
    three fields are the file-scope buffers of the source. *)
Record Globals : Type := mkGlobals {
  rand_tape : list N;
  response_latency : list Z;
  request_proxy : list Z;
  response_server : list Z
}.

Definition M (A : Type) : Type := Globals -> outcome (A * Globals).

Definition ret {A : Type} (a : A) : M A := fun g => Ret (a, g).

Definition bind {A B : Type} (m : M A) (k : A -> M B) : M B :=
  fun g => obind (m g) (fun '(a, g') => k a g').

Definition undefined {A : Type} : M A := fun _ => Undefined.

Definition lift {A : Type} (o : outcome A) : M A :=
  fun g => obind o (fun a => Ret (a, g)).

Declare Scope sim_scope.
Delimit Scope sim_scope with sim.
Notation "'let*' x ':=' m 'in' k" := (bind m (fun x => k))
  (at level 10, x pattern, m at level 100, k at level 200) : sim_scope.
Notation "m ;;; k" := (bind m (fun _ => k))
  (at level 100, k at level 200, right associativity) : sim_scope.
Open Scope sim_scope.

(** [rand()]: the next value on the tape. *)
Definition rand : M Z := fun g =>
  match rand_tape g with
  | [] => Starved
  | r :: tape =>
      Ret (Z.of_N r,
           {| rand_tape := tape;
              response_latency := response_latency g;
              request_proxy := request_proxy g;
              response_server := response_server g |})
  end.

(** ** Vectors and deques *)

(** [v[i]] for an [int] index: a negative index turns into an index far
    beyond the end when it is converted to [size_t]. *)
Definition vec_at {A : Type} (v : list A) (i : Z) : outcome A :=
  if i <? 0 then Undefined
  else match v !! Z.to_nat i with
       | Some x => Ret x
       | None => Undefined
       end.

(** [v[i] = f(v[i])]. *)
Definition vec_alter {A : Type} (f : A -> A) (v : list A) (i : Z) : outcome (list A) :=
  if i <? 0 then Undefined
  else if (Z.to_nat i <? length v)%nat then Ret (alter f (Z.to_nat i) v)
       else Undefined.

(** ** UpstreamServer *)

(** The number of requests an upstream server processes at the same time. *)
Definition concurrency : Z := 6.

Record UpstreamServer : Type := mkUpstreamServer {
  service_timers : list Z;
  request_sources : list Z;
  latencies : list Z;
  server_id : Z;
  service_time : Z
}.

Definition UpstreamServer_new (server_id_ : Z) : UpstreamServer :=
  {| service_timers := []; request_sources := []; latencies := [];
     server_id := server_id_; service_time := 100 |}.

Definition UpstreamServer_onReceiveRequest (source : Z) (s : UpstreamServer) : UpstreamServer :=
  {| service_timers := service_timers s ++ [service_time s];
     request_sources := request_sources s ++ [source];
     latencies := latencies s ++ [0];
     server_id := server_id s;
     service_time := service_time s |}.

(** [for (int i = 0; i < service_timers.size() && i < concurrency; i++)
      service_timers[i]--;]
    The loop test is evaluated before every iteration; [fuel] bounds the
    number of iterations and [concurrency] of them are always enough
    (lemma [serve_window_spec]). *)
Fixpoint serve_window (fuel : nat) (i : Z) (timers : list Z) : list Z :=
  match fuel with
  | O => timers
  | S fuel' =>
      if (i <? Z.of_nat (length timers)) && (i <? concurrency)
      then serve_window fuel' (i + 1) (alter int_decr (Z.to_nat i) timers)
      else timers
  end.

(** The three [push_back]s of one iteration of the draining loop. *)
Definition push_response (lat src sid : Z) (g : Globals) : Globals :=
  {| rand_tape := rand_tape g;
     response_latency := response_latency g ++ [lat];
     request_proxy := request_proxy g ++ [src];
     response_server := response_server g ++ [sid] |}.

(** [while (!service_timers.empty() && service_timers.front() == 0) ...]
    Every iteration pops the front of [service_timers], so the loop is a
    structural recursion on that deque.  [front()] of an empty deque has no
    meaning. *)
Fixpoint drain (sid : Z) (timers sources lats : list Z)
  : M (list Z * list Z * list Z) :=
  fun g =>
  match timers with
  | [] => Ret ((timers, sources, lats), g)
  | t :: timers' =>
      if t =? 0 then
        match lats, sources with
        | lat :: lats', src :: sources' =>
            drain sid timers' sources' lats' (push_response lat src sid g)
        | _, _ => Undefined
        end
      else Ret ((timers, sources, lats), g)
  end.

Definition UpstreamServer_processRequest (s : UpstreamServer) : M UpstreamServer :=
  let lats := map int_incr (latencies s) in
  let timers := serve_window (Z.to_nat concurrency) 0 (service_timers s) in
  let* (timers', sources', lats') :=
    drain (server_id s) timers (request_sources s) lats in
  ret {| service_timers := timers';
         request_sources := sources';
         latencies := lats';
         server_id := server_id s;
         service_time := service_time s |}.

Definition UpstreamServer_activeRequests (s : UpstreamServer) : Z :=
  wrap_int (Z.of_nat (length (service_timers s))).

(** ** Backend *)

(** The values [0, 1, ..., n-1] that [for (int i = 0; i < n; i++)] visits. *)
Definition int_range (n : Z) : list Z := seqZ 0 n.

(** A range-based [for (auto& x : v)] whose body updates [x] in place and
    may touch the process-wide state. *)
Fixpoint for_each {A : Type} (body : A -> M A) (v : list A) : M (list A) :=
  match v with
  | [] => ret []
  | x :: v' =>
      let* x' := body x in
      let* v'' := for_each body v' in
      ret (x' :: v'')
  end.

Record Backend : Type := mkBackend {
  upstream_servers : list UpstreamServer
}.

Definition Backend_new (backend_servers : Z) : Backend :=
  {| upstream_servers := map UpstreamServer_new (int_range backend_servers) |}.

Definition Backend_num_servers (b : Backend) : Z :=
  wrap_int (Z.of_nat (length (upstream_servers b))).

Definition Backend_onReceiveRequest (upstream_server proxy : Z) (b : Backend)
  : outcome Backend :=
  obind (vec_alter (UpstreamServer_onReceiveRequest proxy) (upstream_servers b) upstream_server)
        (fun servers => Ret {| upstream_servers := servers |}).

Definition Backend_processRequest (b : Backend) : M Backend :=
  let* servers := for_each UpstreamServer_processRequest (upstream_servers b) in
  ret {| upstream_servers := servers |}.

Definition Backend_activeRequests (b : Backend) : list Z :=
  map UpstreamServer_activeRequests (upstream_servers b).

(** ** LoadBalancer and its three subclasses *)

(** The subclass of a [LoadBalancer] object together with the data members
    the subclass adds ([cur_idx] for [RoundRobin]). *)
Inductive Policy : Type :=
| RoundRobin (cur_idx : Z)
| RandomSelect
| LeastRequests.

Record LoadBalancer : Type := mkLoadBalancer {
  active_requests : list Z;
  policy : Policy
}.

(** [active_requests(backend_->num_servers(), 0)].  A negative count would
    need more than [INT_MAX] servers and cannot be allocated; it is not
    modelled. *)
Definition LoadBalancer_new (backend_ : Backend) (p : Policy) : LoadBalancer :=
  {| active_requests := replicate (Z.to_nat (Backend_num_servers backend_)) 0;
     policy := p |}.

Definition LoadBalancer_onSendRequest (upstream_server : Z) (lb : LoadBalancer)
  : outcome LoadBalancer :=
  obind (vec_alter int_incr (active_requests lb) upstream_server)
        (fun ar => Ret {| active_requests := ar; policy := policy lb |}).

Definition LoadBalancer_onReceiveResponse (upstream_server : Z) (lb : LoadBalancer)
  : outcome LoadBalancer :=
  obind (vec_alter int_decr (active_requests lb) upstream_server)
        (fun ar => Ret {| active_requests := ar; policy := policy lb |}).

(** [a % b] on [int]: the remainder has the sign of [a]; a zero divisor (and
    the overflowing [INT_MIN % -1]) has no meaning. *)
Definition int_rem (a b : Z) : outcome Z :=
  if (b =? 0) || ((a =? INT_MIN) && (b =? -1)) then Undefined
  else Ret (Z.rem a b).

(** [while (server2 == server1) server2 = rand() % num_servers;]
    Every iteration consumes one value of the tape, so the loop is a
    structural recursion on the tape. *)
Fixpoint redraw (num_servers server1 server2 : Z) (tape : list N)
  : outcome (Z * list N) :=
  if server2 =? server1 then
    match tape with
    | [] => Starved
    | r :: tape' =>
        obind (int_rem (Z.of_N r) num_servers)
              (fun s => redraw num_servers server1 s tape')
    end
  else Ret (server2, tape).

Definition with_tape {A : Type} (f : list N -> outcome (A * list N)) : M A :=
  fun g =>
    obind (f (rand_tape g))
          (fun '(a, tape) =>
             Ret (a, {| rand_tape := tape;
                        response_latency := response_latency g;
                        request_proxy := request_proxy g;
                        response_server := response_server g |})).

Definition RoundRobin_selectUpstreamServer (cur_idx num_servers : Z) : outcome Z :=
  int_rem (int_incr cur_idx) num_servers.

Definition RandomSelect_selectUpstreamServer (num_servers : Z) : M Z :=
  let* r := rand in
  lift (int_rem r num_servers).

Definition LeastRequests_selectUpstreamServer (active_requests : list Z) (num_servers : Z)
  : M Z :=
  let* r := rand in
  let* server1 := lift (int_rem r num_servers) in
  let* server2 := with_tape (redraw num_servers server1 server1) in
  let* a1 := lift (vec_at active_requests server1) in
  let* a2 := lift (vec_at active_requests server2) in
  ret (if a1 <? a2 then server1 else server2).

(** The virtual call [load_balancer->selectUpstreamServer(num_servers)]:
    the selected index and the object after the call. *)
Definition selectUpstreamServer (lb : LoadBalancer) (num_servers : Z)
  : M (Z * LoadBalancer) :=
  match policy lb with
  | RoundRobin cur_idx =>
      let* cur_idx' := lift (RoundRobin_selectUpstreamServer cur_idx num_servers) in
      ret (cur_idx', {| active_requests := active_requests lb;
                        policy := RoundRobin cur_idx' |})
  | RandomSelect =>
      let* s := RandomSelect_selectUpstreamServer num_servers in
      ret (s, lb)
  | LeastRequests =>
      let* s := LeastRequests_selectUpstreamServer (active_requests lb) num_servers in
      ret (s, lb)
  end.

(** ** ProxyServer *)

(** [load_balancer] is a [unique_ptr]: [None] is the null pointer.  The
    [backend] member is a pointer to the one [Backend] that the simulator
    owns; the methods below take that object as an argument and give it
    back, so that all proxies act on the same one. *)
Record ProxyServer : Type := mkProxyServer {
  load_balancer : option LoadBalancer;
  id : Z
}.

Definition ProxyServer_new (backend_ : Backend) (lb_policy_ : string) (id_ : Z)
  : ProxyServer :=
  {| load_balancer :=
       if String.eqb lb_policy_ "Round Robin"
       then Some (LoadBalancer_new backend_ (RoundRobin 0))
       else if String.eqb lb_policy_ "Random Select"
       then Some (LoadBalancer_new backend_ RandomSelect)
       else if String.eqb lb_policy_ "Least Request"
       then Some (LoadBalancer_new backend_ LeastRequests)
       else None;
     id := id_ |}.

Definition ProxyServer_onSendRequest (p : ProxyServer) (b : Backend)
  : M (ProxyServer * Backend) :=
  match load_balancer p with
  | None => undefined
  | Some lb =>
      let* (selected_upstream, lb1) := selectUpstreamServer lb (Backend_num_servers b) in
      let* lb2 := lift (LoadBalancer_onSendRequest selected_upstream lb1) in
      let* b' := lift (Backend_onReceiveRequest selected_upstream (id p) b) in
      ret ({| load_balancer := Some lb2; id := id p |}, b')
  end.

Definition ProxyServer_onReceiveResponse (upstream_server : Z) (p : ProxyServer)
  : outcome ProxyServer :=
  match load_balancer p with
  | None => Undefined
  | Some lb =>
      obind (LoadBalancer_onReceiveResponse upstream_server lb)
            (fun lb' => Ret {| load_balancer := Some lb'; id := id p |})
  end.

(** ** Frontend *)

Record Frontend : Type := mkFrontend {
  proxies : list ProxyServer
}.

Definition Frontend_new (proxy_servers_ : Z) (backend_ : Backend) (lb_policy_ : string)
  : Frontend :=
  {| proxies := map (ProxyServer_new backend_ lb_policy_) (int_range proxy_servers_) |}.

(** The body of the loop of [Frontend::onReceiveRequest] for one proxy:
    [if (rand() % proxies.size() == 0) proxy.onSendRequest();] *)
Definition arrival (nproxies : Z) (p : ProxyServer) (b : Backend)
  : M (ProxyServer * Backend) :=
  let* r := rand in
  let* d := lift (int_rem r nproxies) in
  if d =? 0 then ProxyServer_onSendRequest p b else ret (p, b).

(** [for (auto& proxy : proxies) ...], with the shared backend threaded
    through the iterations. *)
Fixpoint arrivals (nproxies : Z) (ps : list ProxyServer) (b : Backend)
  : M (list ProxyServer * Backend) :=
  match ps with
  | [] => ret ([], b)
  | p :: ps' =>
      let* (p', b') := arrival nproxies p b in
      let* (ps'', b'') := arrivals nproxies ps' b' in
      ret (p' :: ps'', b'')
  end.

(** [Frontend::onReceiveRequest] is declared [int] and has no [return]
    statement: after its loop, control reaches the closing brace of a
    function that has to return a value.  C++ gives that no meaning, even
    though the only caller ignores the value.  An executable in which the
    call nevertheless goes back to its caller (the value being whatever the
    return register holds) behaves as if the function were [void].  The
    model keeps the two readings apart and takes the one in force as a
    parameter of everything that calls the function.  Under
    [EndIsUndefined] no call returns, so a property of the executions that
    return says something under [EndReturns] only; what is stated to be
    defined, or to return, is stated for [EndReturns] by name. *)
Inductive MissingReturn : Type :=
  | EndIsUndefined
  | EndReturns.

Definition flow_off_end (mr : MissingReturn) : M unit :=
  match mr with
  | EndIsUndefined => undefined
  | EndReturns => ret tt
  end.

(** The loop, then the closing brace.  The value returned is never used;
    the model returns the two objects the call changes. *)
Definition Frontend_onReceiveRequest (mr : MissingReturn) (f : Frontend) (b : Backend)
  : M (Frontend * Backend) :=
  let* (ps, b') := arrivals (Z.of_nat (length (proxies f))) (proxies f) b in
  flow_off_end mr ;;;
  ret ({| proxies := ps |}, b').

(** ** LBSimulator *)

(** [output] is the file the imbalance of every time unit is written to,
    kept as the list of the numbers written.  The member [backend_state] is
    never read or written and is left out. *)
Record LBSimulator : Type := mkLBSimulator {
  backend : Backend;
  frontend : Frontend;
  all_latency : list Z;
  request_cnt : Z;
  total_latency : Z;
  timer : Z;
  output : list Z
}.

Definition cleanup : M unit := fun g =>
  Ret (tt, {| rand_tape := rand_tape g;
              response_latency := [];
              request_proxy := [];
              response_server := [] |}).

Definition get_globals : M Globals := fun g => Ret (g, g).

Definition LBSimulator_new (proxy_servers_ backend_servers_ : Z) (lb_policy_ : string)
  : M LBSimulator :=
  let backend_ := Backend_new backend_servers_ in
  let frontend_ := Frontend_new proxy_servers_ backend_ lb_policy_ in
  cleanup ;;;
  ret {| backend := backend_; frontend := frontend_;
         all_latency := []; request_cnt := 0; total_latency := 0;
         timer := 0; output := [] |}.

(** [for (int i = 0; i < request_proxy.size(); i++)
      frontend.proxies[request_proxy[i]].onReceiveResponse(response_server[i]);]
    The loop test is evaluated before every iteration; the buffers do not
    change in the loop, so [length request_proxy] iterations are enough. *)
Fixpoint deliver (fuel : nat) (i : Z) (request_proxy response_server : list Z)
  (ps : list ProxyServer) : outcome (list ProxyServer) :=
  match fuel with
  | O => Ret ps
  | S fuel' =>
      if i <? Z.of_nat (length request_proxy) then
        obind (vec_at request_proxy i) (fun pi =>
        obind (vec_at response_server i) (fun si =>
        obind (vec_at ps pi) (fun p =>
        obind (ProxyServer_onReceiveResponse si p) (fun p' =>
        deliver fuel' (i + 1) request_proxy response_server
                (<[Z.to_nat pi := p']> ps)))))
      else Ret ps
  end.

(** [*std::max_element(v.begin(), v.end())]; for an empty vector the
    iterator returned is [end()] and must not be dereferenced. *)
Definition max_element (v : list Z) : outcome Z :=
  match v with
  | [] => Undefined
  | x :: v' => Ret (fold_left Z.max v' x)
  end.

Definition min_element (v : list Z) : outcome Z :=
  match v with
  | [] => Undefined
  | x :: v' => Ret (fold_left Z.min v' x)
  end.

Definition LBSimulator_collectStats (sim : LBSimulator) : M LBSimulator :=
  let timer' := int_incr (timer sim) in
  let* g := get_globals in
  let* ps := lift (deliver (length (request_proxy g)) 0
                           (request_proxy g) (response_server g)
                           (proxies (frontend sim))) in
  let request_cnt' :=
    wrap_int (request_cnt sim + Z.of_nat (length (response_latency g))) in
  let total_latency' :=
    fold_left (fun total latency => wrap_llong (total + latency))
              (response_latency g) (total_latency sim) in
  let all_latency' := all_latency sim ++ response_latency g in
  let states := Backend_activeRequests (backend sim) in
  let* hi := lift (max_element states) in
  let* lo := lift (min_element states) in
  ret {| backend := backend sim;
         frontend := {| proxies := ps |};
         all_latency := all_latency';
         request_cnt := request_cnt';
         total_latency := total_latency';
         timer := timer';
         output := output sim ++ [wrap_int (hi - lo)] |}.

Definition LBSimulator_run1TimeUnit (mr : MissingReturn) (sim : LBSimulator)
  : M LBSimulator :=
  let* backend1 := Backend_processRequest (backend sim) in
  let* sim1 := LBSimulator_collectStats
                 {| backend := backend1; frontend := frontend sim;
                    all_latency := all_latency sim;
                    request_cnt := request_cnt sim;
                    total_latency := total_latency sim;
                    timer := timer sim; output := output sim |} in
  cleanup ;;;
  let* (frontend2, backend2) :=
    Frontend_onReceiveRequest mr (frontend sim1) (backend sim1) in
  ret {| backend := backend2; frontend := frontend2;
         all_latency := all_latency sim1;
         request_cnt := request_cnt sim1;
         total_latency := total_latency sim1;
         timer := timer sim1; output := output sim1 |}.

(** [a / b] with [a] a [long long] and [b] an [int]: the quotient is
    truncated toward zero; a zero divisor (and the overflowing
    [LLONG_MIN / -1]) has no meaning. *)
Definition llong_div (a b : Z) : outcome Z :=
  if (b =? 0) || ((a =? - 2 ^ 63) && (b =? -1)) then Undefined
  else Ret (Z.quot a b).

(** The first three statements of [LBSimulator::latency]: the sorted
    history and the number written to [std::cout].  The index
    [all_latency.size() - tail] is computed in [size_t]. *)
Definition latency_tail_index (size : nat) (request_cnt : Z) : Z :=
  let tail := Z.quot request_cnt 1000 in
  wrap_size_t (Z.of_nat size - tail).

Definition latency_tail (sim : LBSimulator) : outcome (list Z * Z) :=
  let sorted := merge_sort Z.le (all_latency sim) in
  obind (vec_at sorted (latency_tail_index (length sorted) (request_cnt sim)))
        (fun printed => Ret (sorted, printed)).

(** The last statement: [return total_latency / request_cnt;], the
    [long long] quotient converted to the [int] result. *)
Definition latency_mean (sim : LBSimulator) : outcome Z :=
  obind (llong_div (total_latency sim) (request_cnt sim))
        (fun q => Ret (wrap_int q)).

(** [LBSimulator::latency]: the simulator with its history sorted, the
    number printed and the number returned. *)
Definition LBSimulator_latency (sim : LBSimulator) : outcome (LBSimulator * Z * Z) :=
  obind (latency_tail sim) (fun '(sorted, printed) =>
  obind (latency_mean sim) (fun mean =>
  Ret ({| backend := backend sim; frontend := frontend sim;
          all_latency := sorted;
          request_cnt := request_cnt sim;
          total_latency := total_latency sim;
          timer := timer sim; output := output sim |},
       printed, mean))).

(** [n] calls of [run1TimeUnit] in a row. *)
Fixpoint run (mr : MissingReturn) (n : nat) (sim : LBSimulator) : M LBSimulator :=
  match n with
  | O => ret sim
  | S n' =>
      let* sim' := LBSimulator_run1TimeUnit mr sim in
      run mr n' sim'
  end.

(** The process-wide state before [main] runs: empty buffers and the
    results [rand()] is going to give. *)
Definition initial_globals (tape : list N) : Globals :=
  {| rand_tape := tape; response_latency := [];
     request_proxy := []; response_server := [] |}.

(** A whole execution: construct the simulator, then run [ticks] time
    units, with [tape] the results of [rand()] and [mr] the reading of the
    missing [return]. *)
Definition simulator_after (mr : MissingReturn)
  (proxy_servers backend_servers : Z) (lb_policy : string)
  (ticks : nat) (tape : list N) : outcome (LBSimulator * Globals) :=
  (let* sim := LBSimulator_new proxy_servers backend_servers lb_policy in
   run mr ticks sim) (initial_globals tape).

(** A simulator whose statistics record the completed requests with the
    latencies [history], as [collectStats] accumulates them. *)
Definition simulator_with_history (history : list Z) : LBSimulator :=
  {| backend := Backend_new 1;
     frontend := Frontend_new 1 (Backend_new 1) "Round Robin";
     all_latency := history;
     request_cnt := Z.of_nat (length history);
     total_latency := fold_left Z.add history 0;
     timer := 0;
     output := [] |}.

(** [k] calls of [selectUpstreamServer(num_servers)] in a row on one load
    balancer: the indices returned, in order, and the object afterwards. *)
Fixpoint select_repeatedly (k : nat) (num_servers : Z) (lb : LoadBalancer)
  : M (list Z * LoadBalancer) :=
  match k with
  | O => ret ([], lb)
  | S k' =>
      let* (s, lb1) := selectUpstreamServer lb num_servers in
      let* (rest, lb2) := select_repeatedly k' num_servers lb1 in
      ret (s :: rest, lb2)
  end.

(** A sequence of calls made on one upstream server. *)
Inductive server_call : Type :=
| call_onReceiveRequest (source : Z)
| call_processRequest.

Fixpoint UpstreamServer_calls (calls : list server_call) (s : UpstreamServer)
  : M UpstreamServer :=
  match calls with
  | [] => ret s
  | call_onReceiveRequest source :: calls' =>
      UpstreamServer_calls calls' (UpstreamServer_onReceiveRequest source s)
  | call_processRequest :: calls' =>
      let* s' := UpstreamServer_processRequest s in
      UpstreamServer_calls calls' s'
  end.

(** * The queueing model of the specification *)

(** The data model of the specification: an in-flight request and a
    completion record.  The definitions of this part follow the words of
    the specification, not the code; the theorems compare the two. *)
Record Request : Type := mkRequest {
  origin : Z;
  remaining : Z;
  latency : Z
}.

Record Completion : Type := mkCompletion {
  c_origin : Z;
  c_server : Z;
  c_latency : Z
}.

(** The three deques of a server hold the queue [q] field by field. *)
Definition represents (s : UpstreamServer) (q : list Request) : Prop :=
  service_timers s = map remaining q /\
  request_sources s = map origin q /\
  latencies s = map latency q.

Section QueueModel.

(** The concurrency capacity of the server, the fixed service time of a
    request and the id of the server. *)
Variable C : nat.
Variables fixed_service_time serverId : Z.

(** "appends a new in-flight request with remaining-service = fixed service
    time and latency = 0" *)
Definition new_request (originId : Z) : Request :=
  {| origin := originId; remaining := fixed_service_time; latency := 0 |}.

Definition spec_enqueue (originId : Z) (q : list Request) : list Request :=
  q ++ [new_request originId].

(** "for every currently queued request, increment accumulated latency by 1" *)
Definition spec_age (r : Request) : Request :=
  {| origin := origin r; remaining := remaining r; latency := latency r + 1 |}.

(** "for the first min(C, queueLength) requests in FIFO order, decrement
    remaining-service by 1" *)
Definition spec_serve (r : Request) : Request :=
  {| origin := origin r; remaining := remaining r - 1; latency := latency r |}.

Definition spec_serve_window (q : list Request) : list Request :=
  map spec_serve (take (Nat.min C (length q)) q) ++ drop (Nat.min C (length q)) q.

(** The completion record of a popped request. *)
Definition completion_of (r : Request) : Completion :=
  {| c_origin := origin r; c_server := serverId; c_latency := latency r |}.

(** "repeatedly pop from the front while the front's remaining-service
    equals 0, emitting a completion record for each popped entry" *)
Fixpoint spec_drain (q : list Request) : list Completion * list Request :=
  match q with
  | [] => ([], [])
  | r :: q' =>
      if remaining r =? 0 then
        let (emitted, rest) := spec_drain q' in
        (completion_of r :: emitted, rest)
      else ([], q)
  end.

Definition spec_tick (q : list Request) : list Completion * list Request :=
  spec_drain (spec_serve_window (map spec_age q)).

(** ** Ticks spent outside the window *)

(** A request together with the number of ticks it has so far spent outside
    the first-[C] window: ticks in which it accrued latency and received no
    service decrement.  The count is bookkeeping of the model and has no
    counterpart in the code. *)
Definition Waiting : Type := (Request * nat)%type.

Definition wait_enqueue (originId : Z) (q : list Waiting) : list Waiting :=
  q ++ [(new_request originId, O)].

Definition wait_serve (w : Waiting) : Waiting := (spec_serve (fst w), snd w).
Definition wait_outside (w : Waiting) : Waiting := (fst w, S (snd w)).
Definition wait_age (w : Waiting) : Waiting := (spec_age (fst w), snd w).

Definition wait_window (q : list Waiting) : list Waiting :=
  map wait_serve (take C q) ++ map wait_outside (drop C q).

Fixpoint wait_drain (q : list Waiting)
  : list (Completion * nat) * list Waiting :=
  match q with
  | [] => ([], [])
  | w :: q' =>
      if remaining (fst w) =? 0 then
        let (emitted, rest) := wait_drain q' in
        ((completion_of (fst w), snd w) :: emitted, rest)
      else ([], q)
  end.

Definition wait_tick (q : list Waiting)
  : list (Completion * nat) * list Waiting :=
  wait_drain (wait_window (map wait_age q)).

(** The calls of [UpstreamServer_calls] on the model: the completion
    records emitted so far, each with the ticks its request spent outside
    the window, and the queue. *)
Fixpoint wait_calls (calls : list server_call)
  (emitted : list (Completion * nat)) (q : list Waiting)
  : list (Completion * nat) * list Waiting :=
  match calls with
  | [] => (emitted, q)
  | call_onReceiveRequest source :: calls' =>
      wait_calls calls' emitted (wait_enqueue source q)
  | call_processRequest :: calls' =>
      let (emitted', q') := wait_tick q in
      wait_calls calls' (emitted ++ emitted') q'
  end.

(** The invariant of a waiting request after at most [n] ticks: its
    latency is the service already received plus the ticks spent outside
    the window. *)
Definition wait_inv (n : Z) (w : Waiting) : Prop :=
  latency (fst w) = fixed_service_time - remaining (fst w) + Z.of_nat (snd w) /\
  0 <= latency (fst w) <= n /\
  remaining (fst w) <= fixed_service_time.

End QueueModel.

(** A server with eight queued requests, two of them about to complete,
    and the queue its deques hold. *)
Definition example_server : UpstreamServer :=
  {| service_timers := [1; 1; 5; 5; 5; 5; 100; 100];
     request_sources := [0; 1; 0; 1; 0; 1; 0; 1];
     latencies := [99; 99; 95; 95; 95; 95; 7; 3];
     server_id := 2;
     service_time := 100 |}.

Definition example_queue : list Request :=
  [ {| origin := 0; remaining := 1; latency := 99 |};
    {| origin := 1; remaining := 1; latency := 99 |};
    {| origin := 0; remaining := 5; latency := 95 |};
    {| origin := 1; remaining := 5; latency := 95 |};
    {| origin := 0; remaining := 5; latency := 95 |};
    {| origin := 1; remaining := 5; latency := 95 |};
    {| origin := 0; remaining := 100; latency := 7 |};
    {| origin := 1; remaining := 100; latency := 3 |} ].

(** Eight requests arrive at once at an idle server, which then runs for
    200 ticks. *)
Definition example_calls : list server_call :=
  map call_onReceiveRequest [0; 1; 2; 3; 4; 5; 6; 7]
  ++ repeat call_processRequest 200.

(** * Counting requests in flight *)

Fixpoint sumZ (l : list Z) : Z :=
  match l with
  | [] => 0
  | x :: l' => x + sumZ l'
  end.

(** The sum of the active-request queue lengths of all servers. *)
Definition total_active (b : Backend) : Z :=
  sumZ (map (fun s => Z.of_nat (length (service_timers s))) (upstream_servers b)).

(** The sum of a proxy's local outstanding-request counters (a proxy
    without a load balancer has none), and the sum over all proxies. *)
Definition outstanding (p : ProxyServer) : Z :=
  match load_balancer p with
  | Some lb => sumZ (active_requests lb)
  | None => 0
  end.

Definition total_outstanding (f : Frontend) : Z :=
  sumZ (map outstanding (proxies f)).

(** How often [src] occurs in a deque of request sources. *)
Fixpoint count_src (src : Z) (sources : list Z) : Z :=
  match sources with
  | [] => 0
  | x :: sources' => (if x =? src then 1 else 0) + count_src src sources'
  end.

(** The requests of proxy [src] queued at the servers whose id is [sid]. *)
Definition queued (src sid : Z) (servers : list UpstreamServer) : Z :=
  sumZ (map (fun s => if server_id s =? sid
                      then count_src src (request_sources s) else 0) servers).

(** The responses for proxy [src] from server [sid] that wait in the
    buffers [request_proxy] and [response_server]. *)
Fixpoint pending (src sid : Z) (rp rs : list Z) : Z :=
  match rp, rs with
  | a :: rp', c :: rs' =>
      (if (a =? src) && (c =? sid) then 1 else 0) + pending src sid rp' rs'
  | _, _ => 0
  end.

(** Requests of proxy [src] sent to server [sid] whose response the proxy
    has not received yet. *)
Definition ledger (servers : list UpstreamServer) (rp rs : list Z) (src sid : Z) : Z :=
  queued src sid servers + pending src sid rp rs.

(** The servers are numbered by position, their deques run in parallel,
    and every queued request comes from one of the [P] proxies. *)
Definition backend_ok (P : Z) (servers : list UpstreamServer) : Prop :=
  forall (j : nat) (s : UpstreamServer),
    servers !! j = Some s ->
    server_id s = Z.of_nat j /\
    length (request_sources s) = length (service_timers s) /\
    Forall (fun src => 0 <= src < P) (request_sources s).

(** A proxy's counter for a server is the number [L] of its requests there
    that are not answered yet, as an [int]; a proxy without a load balancer
    has no request anywhere. *)
Definition proxy_ok (N : Z) (L : Z -> Z -> Z) (p : ProxyServer) : Prop :=
  match load_balancer p with
  | Some lb => active_requests lb = map (fun j => wrap_int (L (id p) j)) (seqZ 0 N)
  | None => forall sid, L (id p) sid = 0
  end.

(** The proxies are numbered by position. *)
Definition proxies_numbered (ps : list ProxyServer) : Prop :=
  map id ps = seqZ 0 (Z.of_nat (length ps)).

(** The three buffers are the same in both states. *)
Definition same_buffers (g g' : Globals) : Prop :=
  response_latency g' = response_latency g /\
  request_proxy g' = request_proxy g /\
  response_server g' = response_server g.

(** The delivery loop of [collectStats] as a recursion on the two buffers. *)
Fixpoint deliver_each (rp rs : list Z) (ps : list ProxyServer)
  : outcome (list ProxyServer) :=
  match rp with
  | [] => Ret ps
  | a :: rp' =>
      match rs with
      | [] => Undefined
      | c :: rs' =>
          obind (vec_at ps a) (fun p =>
          obind (ProxyServer_onReceiveResponse c p) (fun p' =>
          deliver_each rp' rs' (<[Z.to_nat a := p']> ps)))
      end
  end.

(** The state of the counters between the delivery of the responses and
    the next processing step: every counter equals the number of requests
    the proxy has queued at that server. *)
Definition counters_ok (sim : LBSimulator) : Prop :=
  backend_ok (Z.of_nat (length (proxies (frontend sim))))
             (upstream_servers (backend sim)) /\
  proxies_numbered (proxies (frontend sim)) /\
  Forall (proxy_ok (Z.of_nat (length (upstream_servers (backend sim))))
                   (ledger (upstream_servers (backend sim)) [] []))
         (proxies (frontend sim)).

(** Between two time units the buffers are empty as well. *)
Definition sim_ok (sim : LBSimulator) (g : Globals) : Prop :=
  counters_ok sim /\ request_proxy g = [] /\ response_server g = [].

(** The first two statements of [run1TimeUnit]: the state in which the
    responses of this time unit have been delivered and the arrivals have
    not been generated yet. *)
Definition delivered (sim : LBSimulator) : M LBSimulator :=
  let* backend1 := Backend_processRequest (backend sim) in
  LBSimulator_collectStats
    {| backend := backend1; frontend := frontend sim;
       all_latency := all_latency sim;
       request_cnt := request_cnt sim;
       total_latency := total_latency sim;
       timer := timer sim; output := output sim |}.

(** Some results of [rand()] to run examples with. *)
Definition example_tape : list N :=
  map (fun i => ((N.of_nat i * 7919 + 13) mod 1009)%N) (seq 0 1500).

(** * Further invariants of the code *)

(** The sources of the requests a sequence of calls hands to the server, in
    the order of the calls. *)
Fixpoint enqueued_sources (calls : list server_call) : list Z :=
  match calls with
  | [] => []
  | call_onReceiveRequest source :: calls' => source :: enqueued_sources calls'
  | call_processRequest :: calls' => enqueued_sources calls'
  end.

(** The three deques of a server have one entry per queued request. *)
Definition parallel_deques (s : UpstreamServer) : Prop :=
  length (request_sources s) = length (service_timers s) /\
  length (latencies s) = length (service_timers s).

(** The timers of a server between two calls: each lies between 1 and the
    service time, they do not decrease from the front to the back, and the
    requests behind the first [concurrency] positions have not been served
    at all. *)
Definition timers_ok (s : UpstreamServer) : Prop :=
  Forall (fun t => 1 <= t <= service_time s) (service_timers s) /\
  (forall (i j : nat) (ti tj : Z),
     (i <= j)%nat ->
     service_timers s !! i = Some ti ->
     service_timers s !! j = Some tj ->
     ti <= tj) /\
  Forall (fun t => t = service_time s)
         (drop (Z.to_nat concurrency) (service_timers s)).

(** The outcome is defined, and a result satisfies [Q]: the computation
    may only stop short because the tape of random numbers ran out. *)
Definition outcome_sat {A : Type} (Q : A -> Prop) (o : outcome A) : Prop :=
  match o with
  | Ret a => Q a
  | Undefined => False
  | Starved => True
  end.

Definition known_policy (name : string) : Prop :=
  name = "Round Robin"%string \/ name = "Random Select"%string \/
  name = "Least Request"%string.

(** What keeps the accesses of a proxy in bounds: it has a load balancer
    with one counter per server, a Round Robin cursor is a server index,
    and its id is a proxy index. *)
Definition safe_proxy (P N : Z) (p : ProxyServer) : Prop :=
  0 <= id p < P /\
  exists lb,
    load_balancer p = Some lb /\
    Z.of_nat (length (active_requests lb)) = N /\
    forall cur, policy lb = RoundRobin cur -> 0 <= cur < N.

(** What keeps the accesses of a server in bounds: parallel deques, a
    valid id, and sources that are proxy indices. *)
Definition safe_server (P N : Z) (s : UpstreamServer) : Prop :=
  0 <= server_id s < N /\
  parallel_deques s /\
  Forall (fun src => 0 <= src < P) (request_sources s).

Definition safe_buffers (P N : Z) (g : Globals) : Prop :=
  length (request_proxy g) = length (response_server g) /\
  Forall (fun a => 0 <= a < P) (request_proxy g) /\
  Forall (fun c => 0 <= c < N) (response_server g).

Definition safe_sim (sim : LBSimulator) : Prop :=
  1 <= Z.of_nat (length (upstream_servers (backend sim))) <= INT_MAX /\
  Forall (safe_server (Z.of_nat (length (proxies (frontend sim))))
                      (Z.of_nat (length (upstream_servers (backend sim)))))
         (upstream_servers (backend sim)) /\
  Forall (safe_proxy (Z.of_nat (length (proxies (frontend sim))))
                     (Z.of_nat (length (upstream_servers (backend sim)))))
         (proxies (frontend sim)).

(** A proxy whose load balancer is a [RoundRobin] object. *)
Definition round_robin_proxy (p : ProxyServer) : Prop :=
  exists lb cur, load_balancer p = Some lb /\ policy lb = RoundRobin cur.

(** At time [T], between two calls: every queued request has been in the
    queue for between 0 and [T] time units, and what it has waited plus the
    service it still needs is at least the service time. *)
Definition latencies_ok (T : Z) (s : UpstreamServer) : Prop :=
  forall (i : nat) (t l : Z),
    service_timers s !! i = Some t -> latencies s !! i = Some l ->
    0 <= l <= T /\ service_time s <= l + t.

(** A server of the simulation after [T] time units. *)
Definition server_ok (T : Z) (s : UpstreamServer) : Prop :=
  parallel_deques s /\ timers_ok s /\ service_time s = 100 /\ latencies_ok T s.

(** * Properties *)

(** ** The statistics report, [LBSimulator::latency] *)

Lemma wrap_int_small z : INT_MIN <= z <= INT_MAX -> wrap_int z = z.
Proof.
  unfold wrap_int, INT_MIN, INT_MAX. intros H.
  rewrite Z.mod_small; lia.
Qed.

Lemma wrap_size_t_small z : 0 <= z < 2 ^ 64 -> wrap_size_t z = z.
Proof. unfold wrap_size_t. intros H. apply Z.mod_small; lia. Qed.

Lemma vec_at_beyond {A : Type} (v : list A) (i : Z) :
  Z.of_nat (length v) <= i -> vec_at v i = Undefined.
Proof.
  intros H. unfold vec_at.
  destruct (i <? 0); [reflexivity|].
  rewrite (lookup_ge_None_2 v (Z.to_nat i)) by lia. reflexivity.
Qed.

Lemma vec_at_inside {A : Type} (v : list A) (i : Z) :
  0 <= i < Z.of_nat (length v) -> exists x, vec_at v i = Ret x /\ v !! Z.to_nat i = Some x.
Proof.
  intros H. unfold vec_at.
  destruct (Z.ltb_spec i 0); [lia|].
  destruct (lookup_lt_is_Some_2 v (Z.to_nat i)) as [x Hx]; [lia|].
  rewrite Hx. eauto.
Qed.

(** With fewer than 1000 completed requests the offset [request_cnt / 1000]
    is 0 and the index read is [size], one past the last element. *)
Lemma latency_tail_short_history (sim : LBSimulator) :
  request_cnt sim = Z.of_nat (length (all_latency sim)) ->
  (length (all_latency sim) < 1000)%nat ->
  latency_tail sim = Undefined.
Proof.
  intros Hcnt Hlen. unfold latency_tail, latency_tail_index.
  rewrite vec_at_beyond; [reflexivity|].
  rewrite Hcnt. rewrite merge_sort_Permutation.
  rewrite Z.quot_small by lia.
  rewrite wrap_size_t_small by (change (2 ^ 64) with 18446744073709551616; lia).
  lia.
Qed.

(** From 1000 completed requests on (and as long as the count fits in an
    [int]) the index read lies inside the history. *)
Lemma latency_tail_long_history (sim : LBSimulator) :
  request_cnt sim = Z.of_nat (length (all_latency sim)) ->
  (1000 <= length (all_latency sim))%nat ->
  Z.of_nat (length (all_latency sim)) <= INT_MAX ->
  exists printed,
    latency_tail sim = Ret (merge_sort Z.le (all_latency sim), printed) /\
    merge_sort Z.le (all_latency sim)
      !! (length (all_latency sim) - Z.to_nat (request_cnt sim / 1000))%nat
    = Some printed.
Proof.
  intros Hcnt Hlen Hmax. unfold latency_tail, latency_tail_index.
  set (sorted := merge_sort Z.le (all_latency sim)).
  assert (Hs : length sorted = length (all_latency sim))
    by (unfold sorted; now rewrite merge_sort_Permutation).
  rewrite Hs, Hcnt.
  set (n := Z.of_nat (length (all_latency sim))) in *.
  assert (Hn : 1000 <= n) by lia.
  assert (Hq : 1 <= Z.quot n 1000 <= n).
  { rewrite Z.quot_div_nonneg by lia. split.
    - apply Z.div_le_lower_bound; lia.
    - apply Z.div_le_upper_bound; lia. }
  unfold INT_MAX in Hmax.
  rewrite wrap_size_t_small by (change (2 ^ 64) with 18446744073709551616; lia).
  destruct (vec_at_inside sorted (n - Z.quot n 1000)) as [x [Hx Hl]]; [lia|].
  rewrite Hx. simpl. exists x. split; [reflexivity|].
  rewrite <- Hl. f_equal.
  rewrite Z.quot_div_nonneg in * by lia. lia.
Qed.

(** C1 (the claim fails on the code): the tail-latency statement reads
    [all_latency[size - request_cnt / 1000]] without clamping the index.
    For the history [1, 2, ..., 999] with 999 counted requests the offset is
    0, the index is 999 = [size], one past the last element, and the read is
    outside the vector instead of giving the maximum 999.  The same happens
    after an execution of 105 time units that has completed 10 requests
    (one in which the arrival phase returns to its caller every time). *)
Theorem latency_tail_index_not_clamped :
  (let sim := simulator_with_history (map Z.of_nat (seq 1 999)) in
   request_cnt sim = 999 /\
   length (all_latency sim) = 999%nat /\
   latency_tail_index (length (all_latency sim)) (request_cnt sim) = 999 /\
   latency_tail sim = Undefined /\
   LBSimulator_latency sim = Undefined) /\
  (exists sim g,
     simulator_after EndReturns 2 3 "Round Robin" 105 (repeat 0%N 400) = Ret (sim, g) /\
     all_latency sim = repeat 100 10 /\
     request_cnt sim = 10 /\
     latency_tail sim = Undefined).
Proof.
  split.
  - cbv zeta. repeat split; vm_compute; reflexivity.
  - eexists. eexists. split; [vm_compute; reflexivity|].
    repeat split; vm_compute; reflexivity.
Qed.

Lemma latency_mean_positive (sim : LBSimulator) :
  0 < request_cnt sim ->
  latency_mean sim = Ret (wrap_int (Z.quot (total_latency sim) (request_cnt sim))).
Proof.
  intros H. unfold latency_mean, llong_div.
  destruct (Z.eqb_spec (request_cnt sim) 0); [lia|].
  destruct (Z.eqb_spec (request_cnt sim) (-1)); [lia|].
  rewrite andb_false_r. reflexivity.
Qed.

Lemma latency_mean_no_requests (sim : LBSimulator) :
  request_cnt sim = 0 -> latency_mean sim = Undefined.
Proof. intros H. unfold latency_mean, llong_div. rewrite H. reflexivity. Qed.

(** C3 (the claim fails on the code): [latency()] returns
    [total_latency / request_cnt] with no test of [request_cnt].  On a
    simulator that has completed no request the divisor is 0: the division
    is carried out and has no defined result, where the claim wants a
    no-data result without a division. *)
Theorem latency_mean_divides_by_zero :
  exists sim g,
    simulator_after EndReturns 2 3 "Round Robin" 0 [] = Ret (sim, g) /\
    request_cnt sim = 0 /\
    total_latency sim = 0 /\
    llong_div (total_latency sim) (request_cnt sim) = Undefined /\
    latency_mean sim = Undefined /\
    LBSimulator_latency sim = Undefined.
Proof.
  eexists. eexists. split; [vm_compute; reflexivity|].
  repeat split; vm_compute; reflexivity.
Qed.

(** ** Construction with an unknown policy name *)

Lemma ProxyServer_new_unknown_policy (b : Backend) (name : string) (i : Z) :
  name <> "Round Robin"%string ->
  name <> "Random Select"%string ->
  name <> "Least Request"%string ->
  load_balancer (ProxyServer_new b name i) = None /\
  (forall b' g, ProxyServer_onSendRequest (ProxyServer_new b name i) b' g = Undefined) /\
  (forall s, ProxyServer_onReceiveResponse s (ProxyServer_new b name i) = Undefined).
Proof.
  intros H1 H2 H3.
  assert (E : load_balancer (ProxyServer_new b name i) = None).
  { unfold ProxyServer_new; simpl.
    destruct (String.eqb_spec name "Round Robin"); [contradiction|].
    destruct (String.eqb_spec name "Random Select"); [contradiction|].
    destruct (String.eqb_spec name "Least Request"); [contradiction|].
    reflexivity. }
  split; [exact E|]. split.
  - intros b' g. unfold ProxyServer_onSendRequest. rewrite E. reflexivity.
  - intros s. unfold ProxyServer_onReceiveResponse. rewrite E. reflexivity.
Qed.

(** C2 (the claim fails on the code): the constructor of [ProxyServer] has
    no branch for an unknown policy name.  With the name "Weighted" the
    proxy and the simulator are constructed without any error, the
    [load_balancer] pointer is null, and the first request a proxy sends
    dereferences it. *)
Theorem unknown_policy_constructs_null_load_balancer :
  load_balancer (ProxyServer_new (Backend_new 3) "Weighted" 0) = None /\
  (exists sim g,
     simulator_after EndReturns 1 3 "Weighted" 0 [0%N] = Ret (sim, g) /\
     map load_balancer (proxies (frontend sim)) = [None]) /\
  (forall b g,
     ProxyServer_onSendRequest (ProxyServer_new (Backend_new 3) "Weighted" 0) b g
     = Undefined) /\
  simulator_after EndReturns 1 3 "Weighted" 1 [0%N] = Undefined.
Proof.
  split; [reflexivity|]. split.
  - eexists. eexists. split; vm_compute; reflexivity.
  - split; [|vm_compute; reflexivity].
    intros b g.
    apply (ProxyServer_new_unknown_policy (Backend_new 3) "Weighted" 0);
      discriminate.
Qed.

(** ** Round Robin *)

Lemma int_incr_small x : INT_MIN <= x < INT_MAX -> int_incr x = x + 1.
Proof. intros H. unfold int_incr. apply wrap_int_small. lia. Qed.

Lemma int_decr_small x : INT_MIN < x <= INT_MAX -> int_decr x = x - 1.
Proof. intros H. unfold int_decr. apply wrap_int_small. lia. Qed.

Lemma int_rem_nonneg a b : 0 <= a -> 0 < b -> int_rem a b = Ret (a mod b).
Proof.
  intros Ha Hb. unfold int_rem.
  destruct (Z.eqb_spec b 0); [lia|].
  destruct (Z.eqb_spec b (-1)); [lia|].
  rewrite andb_false_r. simpl. now rewrite Z.rem_mod_nonneg by lia.
Qed.

(** One call: the cursor is incremented first, then reduced. *)
Lemma RoundRobin_select_step (cur K : Z) :
  0 <= cur < K -> K <= INT_MAX ->
  RoundRobin_selectUpstreamServer cur K = Ret ((cur + 1) mod K).
Proof.
  intros Hc HK. unfold RoundRobin_selectUpstreamServer.
  rewrite int_incr_small by (unfold INT_MIN; lia).
  apply int_rem_nonneg; lia.
Qed.

Lemma RoundRobin_select_repeatedly (k : nat) :
  forall (K cur : Z) (ar : list Z) (g : Globals),
    0 <= cur < K -> K <= INT_MAX ->
    select_repeatedly k K {| active_requests := ar; policy := RoundRobin cur |} g
    = Ret (((fun i => (cur + Z.of_nat i) mod K) <$> seq 1 k,
            {| active_requests := ar;
               policy := RoundRobin ((cur + Z.of_nat k) mod K) |}), g).
Proof.
  induction k as [|k IH]; intros K cur ar g Hc HK.
  - simpl. unfold ret. rewrite Z.add_0_r, Z.mod_small by lia. reflexivity.
  - cbn [select_repeatedly]. unfold bind at 1.
    unfold selectUpstreamServer. cbn [policy active_requests].
    unfold bind at 1, lift. rewrite RoundRobin_select_step by assumption.
    cbn [obind]. unfold ret at 1. cbn [obind].
    unfold bind at 1.
    pose proof (Z.mod_pos_bound (cur + 1) K ltac:(lia)) as Hb.
    rewrite IH by assumption.
    cbn [obind]. unfold ret. do 3 f_equal.
    + change (seq 1 (S k)) with (1%nat :: seq 2 k).
      rewrite fmap_cons. f_equal.
      rewrite <- (seq_shift k 1), <- list_fmap_compose.
      apply list_fmap_ext. intros _ i _. cbn.
      rewrite Zplus_mod_idemp_l. f_equal. lia.
    + do 2 f_equal. rewrite Zplus_mod_idemp_l. f_equal. lia.
Qed.

Lemma mod_window_inj (K a b : Z) :
  0 < K -> a mod K = b mod K -> - K < a - b < K -> a = b.
Proof.
  intros HK E Hab.
  pose proof (Z.div_mod a K ltac:(lia)). pose proof (Z.div_mod b K ltac:(lia)).
  assert (a - b = K * (a / K - b / K)) by lia.
  assert (a / K - b / K = 0) by nia. lia.
Qed.

(** C7: a fresh Round Robin policy has cursor 0; each call increments the
    cursor, reduces it modulo the candidate count [K] and returns it.  So
    the [i]-th call (counted from 1) returns [i mod K]; the sequence repeats
    with period [K]; and any [K] calls in a row return [K] distinct values,
    which are all of [0 .. K-1]. *)
Theorem RoundRobin_cycle (backend_ : Backend) (K : Z) (k : nat) (g : Globals) :
  0 < K <= INT_MAX ->
  exists returns lb',
    select_repeatedly k K (LoadBalancer_new backend_ (RoundRobin 0)) g
      = Ret ((returns, lb'), g) /\
    length returns = k /\
    policy lb' = RoundRobin (Z.of_nat k mod K) /\
    (forall i, (i < k)%nat -> returns !! i = Some ((Z.of_nat i + 1) mod K)) /\
    (forall i, (i + Z.to_nat K < k)%nat -> returns !! (i + Z.to_nat K)%nat = returns !! i) /\
    (forall start, (start + Z.to_nat K <= k)%nat ->
       let cycle := take (Z.to_nat K) (drop start returns) in
       length cycle = Z.to_nat K /\
       NoDup cycle /\
       forall v, 0 <= v < K <-> v ∈ cycle).
Proof.
  intros HK. unfold LoadBalancer_new.
  rewrite RoundRobin_select_repeatedly by lia.
  eexists. eexists. split; [reflexivity|].
  assert (Hlook : forall i, (i < k)%nat ->
            ((fun i => (0 + Z.of_nat i) mod K) <$> seq 1 k) !! i
            = Some ((Z.of_nat i + 1) mod K)).
  { intros i Hi. rewrite list_lookup_fmap, lookup_seq_lt by lia.
    cbn. do 2 f_equal. lia. }
  split; [now rewrite length_fmap, length_seq|].
  split; [reflexivity|].
  split; [exact Hlook|].
  split.
  { intros i Hi. rewrite !Hlook by lia. f_equal.
    replace (Z.of_nat (i + Z.to_nat K) + 1) with (Z.of_nat i + 1 + 1 * K) by lia.
    apply Z_mod_plus_full. }
  intros start Hs.
  set (cycle := take (Z.to_nat K) (drop start _)).
  assert (Hcyc : forall j, (j < Z.to_nat K)%nat ->
            cycle !! j = Some ((Z.of_nat (start + j) + 1) mod K)).
  { intros j Hj. unfold cycle.
    rewrite lookup_take_lt, lookup_drop by lia. apply Hlook. lia. }
  assert (Hlen : length cycle = Z.to_nat K).
  { unfold cycle. rewrite length_take, length_drop, length_fmap, length_seq. lia. }
  split; [exact Hlen|]. split.
  - apply NoDup_alt. intros i j x Hi Hj.
    assert (i < Z.to_nat K)%nat by (rewrite <- Hlen; eapply lookup_lt_Some; eauto).
    assert (j < Z.to_nat K)%nat by (rewrite <- Hlen; eapply lookup_lt_Some; eauto).
    rewrite Hcyc in Hi, Hj by assumption.
    assert (E : (Z.of_nat (start + i) + 1) mod K = (Z.of_nat (start + j) + 1) mod K)
      by congruence.
    apply mod_window_inj in E; lia.
  - intros v. split.
    + intros Hv.
      set (j := Z.to_nat ((v - (Z.of_nat start + 1)) mod K)).
      pose proof (Z.mod_pos_bound (v - (Z.of_nat start + 1)) K ltac:(lia)) as Hb.
      apply (list_elem_of_lookup_2 _ j). rewrite Hcyc by (unfold j; lia).
      f_equal. unfold j.
      replace (Z.of_nat (start + Z.to_nat ((v - (Z.of_nat start + 1)) mod K)) + 1)
        with ((Z.of_nat start + 1) + (v - (Z.of_nat start + 1)) mod K) by lia.
      rewrite Zplus_mod_idemp_r.
      replace (Z.of_nat start + 1 + (v - (Z.of_nat start + 1))) with v by lia.
      apply Z.mod_small; lia.
    + intros Hv. apply list_elem_of_lookup_1 in Hv as [j Hj].
      assert (j < Z.to_nat K)%nat by (rewrite <- Hlen; eapply lookup_lt_Some; eauto).
      rewrite Hcyc in Hj by assumption. injection Hj as <-.
      apply Z.mod_pos_bound; lia.
Qed.

Lemma RoundRobin_cycle_witness :
  0 < 3 <= INT_MAX /\
  exists returns lb',
    select_repeatedly 7 3 (LoadBalancer_new (Backend_new 3) (RoundRobin 0))
                      (initial_globals [])
      = Ret ((returns, lb'), initial_globals []) /\
    returns = [1; 2; 0; 1; 2; 0; 1].
Proof.
  assert (H : 0 < 3 <= INT_MAX) by (unfold INT_MAX; lia).
  split; [exact H|].
  destruct (RoundRobin_cycle (Backend_new 3) 3 7 (initial_globals []) H)
    as (returns & lb' & Hrun & _).
  exists returns, lb'. split; [exact Hrun|].
  vm_compute in Hrun. congruence.
Defined.

(** ** Least Request: power of two choices *)

Lemma redraw_exit (n s1 s2 : Z) (tape : list N) :
  s2 <> s1 -> redraw n s1 s2 tape = Ret (s2, tape).
Proof.
  intros H. destruct tape; simpl;
    destruct (Z.eqb_spec s2 s1); congruence.
Qed.

(** The loop rejects every draw that falls on [server1] again and exits at
    the first one that does not. *)
Lemma redraw_skips (n s1 : Z) (skipped : list N) (r2 : N) (rest : list N) :
  0 < n ->
  Forall (fun r => Z.of_N r mod n = s1) skipped ->
  Z.of_N r2 mod n <> s1 ->
  redraw n s1 s1 (skipped ++ r2 :: rest) = Ret (Z.of_N r2 mod n, rest).
Proof.
  intros Hn Hs Hr. induction Hs as [|r skipped Hr1 _ IH]; simpl.
  - rewrite Z.eqb_refl, int_rem_nonneg by lia. simpl.
    now apply redraw_exit.
  - rewrite Z.eqb_refl, int_rem_nonneg by lia. simpl.
    rewrite Hr1. exact IH.
Qed.

(** Conversely, when the loop exits it has seen a draw off [server1]. *)
Lemma redraw_returns (n s1 : Z) (tape rest : list N) (s2 : Z) :
  0 < n ->
  redraw n s1 s1 tape = Ret (s2, rest) ->
  exists skipped r2,
    tape = skipped ++ r2 :: rest /\
    Forall (fun r => Z.of_N r mod n = s1) skipped /\
    s2 = Z.of_N r2 mod n /\ s2 <> s1.
Proof.
  intros Hn. induction tape as [|r tape IH]; simpl; rewrite Z.eqb_refl.
  - discriminate.
  - rewrite int_rem_nonneg by lia. simpl.
    destruct (Z.eq_dec (Z.of_N r mod n) s1) as [E|E].
    + rewrite E. intros H. destruct (IH H) as (sk & r2 & -> & Hf & Hs2 & Hne).
      exists (r :: sk), r2. repeat split; auto.
    + rewrite redraw_exit by assumption. intros [= <- <-].
      exists [], r. repeat split; auto.
Qed.

(** With a single candidate every draw falls on index 0: however long the
    tape is, the loop uses all of it without exiting. *)
Lemma int_rem_one (a : Z) : int_rem a 1 = Ret 0.
Proof. unfold int_rem. cbn [Z.eqb orb]. now rewrite andb_false_r, Z.rem_1_r. Qed.

Lemma redraw_single_candidate (tape : list N) : redraw 1 0 0 tape = Starved.
Proof.
  induction tape as [|r tape IH]; simpl; [reflexivity|].
  rewrite int_rem_one. exact IH.
Qed.

Lemma LeastRequests_select_run (ar : list Z) (n : Z) (g : Globals)
  (r1 : N) (skipped : list N) (r2 : N) (rest : list N) (ca cb : Z) :
  0 < n ->
  rand_tape g = r1 :: skipped ++ r2 :: rest ->
  Forall (fun r => Z.of_N r mod n = Z.of_N r1 mod n) skipped ->
  Z.of_N r2 mod n <> Z.of_N r1 mod n ->
  ar !! Z.to_nat (Z.of_N r1 mod n) = Some ca ->
  ar !! Z.to_nat (Z.of_N r2 mod n) = Some cb ->
  LeastRequests_selectUpstreamServer ar n g
  = Ret (if ca <? cb then Z.of_N r1 mod n else Z.of_N r2 mod n,
         {| rand_tape := rest;
            response_latency := response_latency g;
            request_proxy := request_proxy g;
            response_server := response_server g |}).
Proof.
  intros Hn Htape Hsk Hne Ha Hb.
  pose proof (Z.mod_pos_bound (Z.of_N r1) n Hn) as Ba.
  pose proof (Z.mod_pos_bound (Z.of_N r2) n Hn) as Bb.
  unfold LeastRequests_selectUpstreamServer.
  unfold bind at 1. unfold rand. rewrite Htape. cbn [obind].
  unfold bind at 1. unfold lift at 1. rewrite int_rem_nonneg by lia. cbn [obind].
  unfold bind at 1. unfold with_tape. cbn [rand_tape].
  rewrite redraw_skips by assumption. cbn [obind].
  unfold bind at 1. unfold lift at 1, vec_at.
  destruct (Z.ltb_spec (Z.of_N r1 mod n) 0); [lia|]. rewrite Ha. cbn [obind].
  unfold bind at 1. unfold lift at 1.
  destruct (Z.ltb_spec (Z.of_N r2 mod n) 0); [lia|]. rewrite Hb. cbn [obind].
  reflexivity.
Qed.

(** C6: let [a] be the first index drawn and [b] the first later draw that
    differs from it (draws equal to [a] are rejected).  The selection
    returns [a] when the proxy's counter for [a] is strictly below the one
    for [b], and [b] otherwise: never the index with the strictly larger
    counter, and [b] on a tie. *)
Theorem LeastRequests_picks_lower_counter
  (lb : LoadBalancer) (n : Z) (g : Globals)
  (r1 : N) (skipped : list N) (r2 : N) (rest : list N) (a b ca cb : Z) :
  policy lb = LeastRequests ->
  0 < n ->
  rand_tape g = r1 :: skipped ++ r2 :: rest ->
  a = Z.of_N r1 mod n ->
  b = Z.of_N r2 mod n ->
  Forall (fun r => Z.of_N r mod n = a) skipped ->
  b <> a ->
  active_requests lb !! Z.to_nat a = Some ca ->
  active_requests lb !! Z.to_nat b = Some cb ->
  exists selected g',
    selectUpstreamServer lb n g = Ret ((selected, lb), g') /\
    rand_tape g' = rest /\
    selected = (if ca <? cb then a else b) /\
    (ca < cb -> selected = a) /\
    (cb <= ca -> selected = b) /\
    (ca = cb -> selected = b) /\
    (cb < ca -> selected <> a) /\
    (ca < cb -> selected <> b).
Proof.
  intros Hp Hn Htape -> -> Hsk Hne Ha Hb.
  eexists. eexists. split.
  - unfold selectUpstreamServer. rewrite Hp. unfold bind.
    erewrite LeastRequests_select_run by eassumption.
    cbn [obind]. unfold ret. reflexivity.
  - cbn [rand_tape]. split; [reflexivity|]. split; [reflexivity|].
    destruct (Z.ltb_spec ca cb); repeat split; intros; (reflexivity || lia || congruence).
Qed.

Lemma LeastRequests_picks_lower_counter_witness :
  exists g',
    selectUpstreamServer
      {| active_requests := [5; 3; 3]; policy := LeastRequests |} 3
      (initial_globals [4; 1; 7; 2; 9]%N)
    = Ret ((2, {| active_requests := [5; 3; 3]; policy := LeastRequests |}), g') /\
    rand_tape g' = [9%N].
Proof.
  destruct (LeastRequests_picks_lower_counter
              {| active_requests := [5; 3; 3]; policy := LeastRequests |} 3
              (initial_globals [4; 1; 7; 2; 9]%N)
              4%N [1; 7]%N 2%N [9%N] 1 2 3 3)
    as (selected & g' & Hrun & Htape & Hsel & _);
    try reflexivity; try lia.
  - repeat constructor.
  - exists g'. split; [|exact Htape]. rewrite Hrun, Hsel. reflexivity.
Defined.

(** As long as the draws fall on [server1] again the loop goes on. *)
Lemma redraw_starves (n s1 : Z) (tape : list N) :
  0 < n ->
  Forall (fun r => Z.of_N r mod n = s1) tape ->
  redraw n s1 s1 tape = Starved.
Proof.
  intros Hn Hs. induction Hs as [|r tape Hr _ IH]; simpl; rewrite Z.eqb_refl.
  - reflexivity.
  - rewrite int_rem_nonneg by lia. simpl. rewrite Hr. exact IH.
Qed.

Lemma LeastRequests_select_starves (ar : list Z) (n : Z) (g : Globals) :
  0 < n ->
  match rand_tape g with
  | [] => True
  | r1 :: rest => Forall (fun r => Z.of_N r mod n = Z.of_N r1 mod n) rest
  end ->
  LeastRequests_selectUpstreamServer ar n g = Starved.
Proof.
  intros Hn Hsame. unfold LeastRequests_selectUpstreamServer.
  unfold bind at 1. unfold rand.
  destruct (rand_tape g) as [|r1 rest]; [reflexivity|]. cbn [obind].
  unfold bind at 1. unfold lift at 1. rewrite int_rem_nonneg by lia. cbn [obind].
  unfold bind at 1. unfold with_tape. cbn [rand_tape].
  rewrite redraw_starves by assumption. reflexivity.
Qed.

(** The claim C10 as it is written fails: with two candidates and a
    [rand()] that keeps returning 4, every draw falls on index 0 and the
    selection does not return, however many draws it is given. *)
Lemma LeastRequests_two_candidates_constant_draws :
  exists (lb : LoadBalancer) (n : Z),
    policy lb = LeastRequests /\
    Z.of_nat (length (active_requests lb)) = n /\
    2 <= n /\
    forall k : nat,
      selectUpstreamServer lb n (initial_globals (repeat 4%N k)) = Starved.
Proof.
  exists {| active_requests := [0; 0]; policy := LeastRequests |}, 2.
  split; [reflexivity|]. split; [reflexivity|]. split; [lia|].
  intros k. unfold selectUpstreamServer. cbn [policy active_requests].
  unfold bind. rewrite LeastRequests_select_starves; [reflexivity|lia|].
  cbn [initial_globals rand_tape]. destruct k as [|k]; [exact I|].
  cbn [repeat]. apply Forall_forall. intros r Hr.
  apply list_elem_of_In, repeat_spec in Hr. now subst r.
Qed.

(** C10 (amended): whether the selection returns is decided by the draws,
    for every number of candidates.  It returns at the first draw that
    falls on another index than the first one, having consumed the tape up
    to it; with two or more candidates such a draw exists for every first
    draw.  While the draws keep falling on the first index the selection
    does not return, and with one candidate they cannot do anything else. *)
Theorem LeastRequests_terminates_at_first_different_draw
  (lb : LoadBalancer) (n : Z) (g : Globals) :
  policy lb = LeastRequests ->
  Z.of_nat (length (active_requests lb)) = n ->
  (n = 1 -> selectUpstreamServer lb n g = Starved) /\
  (0 < n ->
     match rand_tape g with
     | [] => True
     | r1 :: rest => Forall (fun r => Z.of_N r mod n = Z.of_N r1 mod n) rest
     end ->
     selectUpstreamServer lb n g = Starved) /\
  (2 <= n ->
     (forall r1 : N, exists r2 : N, Z.of_N r2 mod n <> Z.of_N r1 mod n) /\
     (forall r1 skipped r2 rest,
        rand_tape g = r1 :: skipped ++ r2 :: rest ->
        Forall (fun r => Z.of_N r mod n = Z.of_N r1 mod n) skipped ->
        Z.of_N r2 mod n <> Z.of_N r1 mod n ->
        exists selected g',
          selectUpstreamServer lb n g = Ret ((selected, lb), g') /\
          rand_tape g' = rest /\
          (selected = Z.of_N r1 mod n \/ selected = Z.of_N r2 mod n))).
Proof.
  intros Hp Hlen. split; [|split].
  - intros ->. unfold selectUpstreamServer. rewrite Hp.
    unfold bind at 1. unfold LeastRequests_selectUpstreamServer.
    unfold bind at 1. unfold rand.
    destruct (rand_tape g) as [|r tape]; [reflexivity|]. cbn [obind].
    unfold bind at 1. unfold lift at 1. rewrite int_rem_one. cbn [obind].
    unfold bind at 1. unfold with_tape. cbn [rand_tape].
    rewrite redraw_single_candidate. reflexivity.
  - intros Hn Hsame. unfold selectUpstreamServer. rewrite Hp.
    unfold bind. now rewrite LeastRequests_select_starves.
  - intros Hn. split.
    + intros r1. exists (N.succ r1). intros E.
      apply mod_window_inj in E; lia.
    + intros r1 skipped r2 rest Htape Hsk Hne.
      pose proof (Z.mod_pos_bound (Z.of_N r1) n ltac:(lia)) as Ba.
      pose proof (Z.mod_pos_bound (Z.of_N r2) n ltac:(lia)) as Bb.
      destruct (lookup_lt_is_Some_2 (active_requests lb) (Z.to_nat (Z.of_N r1 mod n)))
        as [ca Ha]; [lia|].
      destruct (lookup_lt_is_Some_2 (active_requests lb) (Z.to_nat (Z.of_N r2 mod n)))
        as [cb Hb]; [lia|].
      eexists. eexists. split.
      * unfold selectUpstreamServer. rewrite Hp. unfold bind.
        erewrite LeastRequests_select_run by (eassumption || lia).
        cbn [obind]. unfold ret. reflexivity.
      * cbn [rand_tape]. split; [reflexivity|].
        destruct (ca <? cb); auto.
Qed.

Lemma LeastRequests_terminates_at_first_different_draw_witness :
  (selectUpstreamServer {| active_requests := [0]; policy := LeastRequests |} 1
     (initial_globals [3; 1; 4; 1; 5; 9; 2; 6]%N) = Starved) /\
  (selectUpstreamServer {| active_requests := [0; 0]; policy := LeastRequests |} 2
     (initial_globals [4; 2; 6; 0; 8]%N) = Starved) /\
  (exists selected g',
     selectUpstreamServer {| active_requests := [0; 0]; policy := LeastRequests |} 2
       (initial_globals [3; 1; 4; 1; 5]%N)
     = Ret ((selected, {| active_requests := [0; 0]; policy := LeastRequests |}), g') /\
     rand_tape g' = [1; 5]%N).
Proof.
  split; [|split].
  - destruct (LeastRequests_terminates_at_first_different_draw
                {| active_requests := [0]; policy := LeastRequests |} 1
                (initial_globals [3; 1; 4; 1; 5; 9; 2; 6]%N) eq_refl eq_refl)
      as (Hone & _).
    apply Hone. reflexivity.
  - destruct (LeastRequests_terminates_at_first_different_draw
                {| active_requests := [0; 0]; policy := LeastRequests |} 2
                (initial_globals [4; 2; 6; 0; 8]%N) eq_refl eq_refl)
      as (_ & Hsame & _).
    apply Hsame; [lia|]. cbn [initial_globals rand_tape]. repeat constructor.
  - destruct (LeastRequests_terminates_at_first_different_draw
                {| active_requests := [0; 0]; policy := LeastRequests |} 2
                (initial_globals [3; 1; 4; 1; 5]%N) eq_refl eq_refl)
      as (_ & _ & H2).
    destruct (H2 ltac:(lia)) as [_ Hrun].
    destruct (Hrun 3%N [1%N] 4%N [1; 5]%N) as (selected & g' & Hsel & Ht & _).
    + reflexivity.
    + repeat constructor.
    + vm_compute. discriminate.
    + exists selected, g'. split; assumption.
Defined.

(** ** One tick of an upstream server *)

Lemma serve_window_app (fuel : nat) :
  forall pre l : list Z,
    (length pre + fuel = Z.to_nat concurrency)%nat ->
    serve_window fuel (Z.of_nat (length pre)) (pre ++ l)
    = pre ++ map int_decr (take fuel l) ++ drop fuel l.
Proof.
  induction fuel as [|fuel IH]; intros pre l Hf.
  - simpl. now rewrite drop_0.
  - cbn [serve_window]. destruct l as [|x l].
    + rewrite app_nil_r.
      destruct (Z.ltb_spec (Z.of_nat (length pre)) (Z.of_nat (length pre))); [lia|].
      cbn [andb take drop map]. now rewrite app_nil_r.
    + destruct (Z.ltb_spec (Z.of_nat (length pre)) (Z.of_nat (length (pre ++ x :: l))))
        as [_|Hge]; [|rewrite length_app in Hge; simpl in Hge; lia].
      destruct (Z.ltb_spec (Z.of_nat (length pre)) concurrency) as [_|Hge]; [|lia].
      cbn [andb]. rewrite Nat2Z.id.
      replace (length pre) with (length pre + 0)%nat at 2 by lia.
      rewrite alter_app_r. cbn [alter list_alter].
      replace (Z.of_nat (length pre) + 1) with (Z.of_nat (length (pre ++ [int_decr x])))
        by (rewrite length_app; simpl; lia).
      rewrite (cons_middle (int_decr x) pre l), app_assoc.
      rewrite IH by (rewrite length_app; simpl; lia).
      rewrite <- app_assoc. reflexivity.
Qed.

(** The index loop decrements the first [concurrency] timers, or all of
    them when there are fewer; [concurrency] iterations are enough. *)
Lemma serve_window_spec (timers : list Z) :
  serve_window (Z.to_nat concurrency) 0 timers
  = map int_decr (take (Z.to_nat concurrency) timers)
    ++ drop (Z.to_nat concurrency) timers.
Proof. exact (serve_window_app (Z.to_nat concurrency) [] timers eq_refl). Qed.

Lemma serve_window_length (timers : list Z) :
  length (serve_window (Z.to_nat concurrency) 0 timers) = length timers.
Proof.
  rewrite serve_window_spec, length_app, length_map, length_take, length_drop. lia.
Qed.

Lemma spec_drain_popped (sid : Z) (q : list Request) :
  forall completions rest,
    spec_drain sid q = (completions, rest) ->
    exists popped,
      q = popped ++ rest /\
      Forall (fun r => remaining r = 0) popped /\
      completions = map (completion_of sid) popped /\
      match rest with [] => True | r :: _ => remaining r <> 0 end.
Proof.
  induction q as [|r q IH]; intros completions rest; simpl.
  - intros [= <- <-]. exists []. auto.
  - destruct (Z.eqb_spec (remaining r) 0) as [E|E].
    + destruct (spec_drain sid q) as [emitted rest'] eqn:Hd.
      intros [= <- <-].
      destruct (IH _ _ eq_refl) as (popped & -> & Hz & -> & Hfront).
      exists (r :: popped). repeat split; auto.
    + intros [= <- <-]. exists []. auto.
Qed.

(** On three deques that hold a queue field by field, the draining loop
    does what [spec_drain] says. *)
Lemma drain_represents (sid : Z) (q : list Request) :
  forall g : Globals,
    drain sid (map remaining q) (map origin q) (map latency q) g
    = Ret ((map remaining (snd (spec_drain sid q)),
            map origin (snd (spec_drain sid q)),
            map latency (snd (spec_drain sid q))),
           {| rand_tape := rand_tape g;
              response_latency :=
                response_latency g ++ map c_latency (fst (spec_drain sid q));
              request_proxy :=
                request_proxy g ++ map c_origin (fst (spec_drain sid q));
              response_server :=
                response_server g ++ map c_server (fst (spec_drain sid q)) |}).
Proof.
  induction q as [|r q IH]; intros g.
  - simpl. rewrite !app_nil_r. now destruct g.
  - cbn [map drain spec_drain].
    destruct (Z.eqb_spec (remaining r) 0) as [E|E].
    + rewrite IH. destruct (spec_drain sid q) as [emitted rest].
      cbn [fst snd map push_response rand_tape response_latency request_proxy
           response_server c_latency c_origin c_server].
      now rewrite <- !app_assoc.
    + cbn [fst snd map]. rewrite !app_nil_r. now destruct g.
Qed.

Lemma take_min_length {A : Type} (n : nat) (l : list A) :
  take (Nat.min n (length l)) l = take n l.
Proof.
  destruct (Nat.le_ge_cases n (length l)).
  - now rewrite Nat.min_l.
  - rewrite Nat.min_r by assumption. now rewrite !take_ge by lia.
Qed.

Lemma drop_min_length {A : Type} (n : nat) (l : list A) :
  drop (Nat.min n (length l)) l = drop n l.
Proof.
  destruct (Nat.le_ge_cases n (length l)).
  - now rewrite Nat.min_l.
  - rewrite Nat.min_r by assumption. now rewrite !drop_ge by lia.
Qed.

Lemma spec_serve_window_remaining (C : nat) (q : list Request) :
  map remaining (spec_serve_window C q)
  = map (fun t => t - 1) (take C (map remaining q)) ++ drop C (map remaining q).
Proof.
  unfold spec_serve_window. rewrite take_min_length, drop_min_length.
  rewrite map_app, map_map, <- fmap_take, <- fmap_drop.
  change (remaining <$> take C q) with (map remaining (take C q)).
  now rewrite map_map.
Qed.

Lemma spec_serve_window_origin (C : nat) (q : list Request) :
  map origin (spec_serve_window C q) = map origin q.
Proof.
  unfold spec_serve_window. rewrite take_min_length, drop_min_length.
  rewrite map_app, map_map. cbn [spec_serve origin].
  rewrite <- map_app. now rewrite take_drop.
Qed.

Lemma spec_serve_window_latency (C : nat) (q : list Request) :
  map latency (spec_serve_window C q) = map latency q.
Proof.
  unfold spec_serve_window. rewrite take_min_length, drop_min_length.
  rewrite map_app, map_map. cbn [spec_serve latency].
  rewrite <- map_app. now rewrite take_drop.
Qed.

(** The refinement shared by the properties of a tick: [processRequest]
    on deques that hold [q] computes [spec_tick] of [q]. *)
Lemma processRequest_refines
  (s : UpstreamServer) (q : list Request) (g : Globals) :
  represents s q ->
  Forall (fun r => INT_MIN < remaining r <= INT_MAX /\
                   INT_MIN <= latency r < INT_MAX) q ->
  exists s' g' completions rest popped,
    UpstreamServer_processRequest s g = Ret (s', g') /\
    spec_tick (Z.to_nat concurrency) (server_id s) q = (completions, rest) /\
    represents s' rest /\
    server_id s' = server_id s /\
    service_time s' = service_time s /\
    response_latency g' = response_latency g ++ map c_latency completions /\
    request_proxy g' = request_proxy g ++ map c_origin completions /\
    response_server g' = response_server g ++ map c_server completions /\
    rand_tape g' = rand_tape g /\
    (* the three steps, spelled out *)
    map spec_serve (take (Nat.min (Z.to_nat concurrency) (length q)) (map spec_age q))
      ++ drop (Nat.min (Z.to_nat concurrency) (length q)) (map spec_age q)
      = popped ++ rest /\
    Forall (fun r => remaining r = 0) popped /\
    completions = map (completion_of (server_id s)) popped /\
    match rest with [] => True | r :: _ => remaining r <> 0 end /\
    (Forall (fun r => 1 <= remaining r) q ->
     match rest with [] => True | r :: _ => 0 < remaining r end).
Proof.
  intros (Ht & Hs & Hl) Hrange.
  set (q1 := spec_serve_window (Z.to_nat concurrency) (map spec_age q)).
  assert (Ea : serve_window (Z.to_nat concurrency) 0 (service_timers s)
               = map remaining q1).
  { rewrite serve_window_spec, Ht. unfold q1.
    rewrite spec_serve_window_remaining, map_map. cbn [spec_age remaining].
    f_equal. apply map_ext_Forall. apply Forall_take.
    rewrite Forall_map. eapply Forall_impl; [exact Hrange|].
    intros r [Hr _]. now apply int_decr_small. }
  assert (Eb : request_sources s = map origin q1).
  { unfold q1. rewrite spec_serve_window_origin, map_map. exact Hs. }
  assert (Ec : map int_incr (latencies s) = map latency q1).
  { unfold q1. rewrite spec_serve_window_latency, Hl, !map_map.
    cbn [spec_age latency]. apply map_ext_Forall.
    eapply Forall_impl; [exact Hrange|].
    intros r [_ Hr]. now apply int_incr_small. }
  destruct (spec_drain (server_id s) q1) as [completions rest] eqn:Hd.
  destruct (spec_drain_popped _ _ _ _ Hd) as (popped & Hq1 & Hz & Hc & Hfront).
  eexists. eexists. exists completions, rest, popped. split.
  { unfold UpstreamServer_processRequest, bind.
    rewrite Ea, Eb, Ec, drain_represents, Hd. cbn [obind fst snd].
    unfold ret. reflexivity. }
  split; [exact Hd|].
  split; [repeat split|].
  cbn [server_id service_time response_latency request_proxy response_server
       rand_tape].
  repeat (split; [reflexivity|]).
  split.
  { rewrite <- Hq1. unfold q1, spec_serve_window. now rewrite length_map. }
  repeat (split; [assumption|]).
  intros Hpos. destruct rest as [|r rest]; [exact I|].
  assert (Hin : In r q1) by (rewrite Hq1; apply in_or_app; right; left; reflexivity).
  assert (Hall : Forall (fun r => 0 <= remaining r) q1).
  { unfold q1, spec_serve_window. rewrite take_min_length, drop_min_length.
    apply Forall_app. split.
    - rewrite Forall_map. apply Forall_take. rewrite Forall_map.
      eapply Forall_impl; [exact Hpos|]. intros x Hx. cbn in Hx |- *. lia.
    - apply Forall_drop. rewrite Forall_map.
      eapply Forall_impl; [exact Hpos|]. intros x Hx. cbn in Hx |- *. lia. }
  rewrite Forall_forall in Hall. apply list_elem_of_In in Hin.
  specialize (Hall r Hin). lia.
Qed.

(** C4: one call of [processRequest] on a server whose deques hold the
    queue [q] (values within the range of [int], so that the increment and
    the decrement do not overflow) does the three steps of the specified
    tick in order: every queued latency goes up by 1; the remaining service
    of exactly the first [min(C, length)] requests goes down by 1, the
    others keep theirs; then requests are popped from the front while the
    front has remaining service 0, each pop appending a record (origin,
    server id, latency) to the three buffers.  The loop stops on an empty
    queue or on a front with non-zero remaining service, which is positive
    when all remaining services were at least 1 before the tick. *)
Theorem processRequest_is_spec_tick
  (s : UpstreamServer) (q : list Request) (g : Globals) :
  represents s q ->
  Forall (fun r => INT_MIN < remaining r <= INT_MAX /\
                   INT_MIN <= latency r < INT_MAX) q ->
  exists s' g' completions rest popped,
    UpstreamServer_processRequest s g = Ret (s', g') /\
    spec_tick (Z.to_nat concurrency) (server_id s) q = (completions, rest) /\
    represents s' rest /\
    server_id s' = server_id s /\
    service_time s' = service_time s /\
    response_latency g' = response_latency g ++ map c_latency completions /\
    request_proxy g' = request_proxy g ++ map c_origin completions /\
    response_server g' = response_server g ++ map c_server completions /\
    rand_tape g' = rand_tape g /\
    (* the three steps, spelled out *)
    map spec_serve (take (Nat.min (Z.to_nat concurrency) (length q)) (map spec_age q))
      ++ drop (Nat.min (Z.to_nat concurrency) (length q)) (map spec_age q)
      = popped ++ rest /\
    Forall (fun r => remaining r = 0) popped /\
    completions = map (completion_of (server_id s)) popped /\
    match rest with [] => True | r :: _ => remaining r <> 0 end /\
    (Forall (fun r => 1 <= remaining r) q ->
     match rest with [] => True | r :: _ => 0 < remaining r end).
Proof. exact (processRequest_refines s q g). Qed.

Lemma processRequest_is_spec_tick_witness :
  exists s' g',
    UpstreamServer_processRequest example_server (initial_globals []) = Ret (s', g') /\
    service_timers s' = [4; 4; 4; 4; 100; 100] /\
    latencies s' = [96; 96; 96; 96; 8; 4] /\
    response_latency g' = [100; 100] /\
    request_proxy g' = [0; 1] /\
    response_server g' = [2; 2].
Proof.
  assert (Hrep : represents example_server example_queue)
    by (repeat split; reflexivity).
  assert (Hrange : Forall (fun r => INT_MIN < remaining r <= INT_MAX /\
                                    INT_MIN <= latency r < INT_MAX) example_queue)
    by (repeat constructor; vm_compute; congruence).
  destruct (processRequest_is_spec_tick example_server example_queue
              (initial_globals []) Hrep Hrange)
    as (s' & g' & completions & rest & popped & Hrun & _).
  exists s', g'. split; [exact Hrun|].
  vm_compute in Hrun. injection Hrun as <- <-. repeat split; reflexivity.
Defined.

(** ** Latency of a completed request *)

Section WaitingModel.

Variable C : nat.
Variables sid f n : Z.

Lemma wait_window_erase (q : list Waiting) :
  map fst (wait_window C q) = spec_serve_window C (map fst q).
Proof.
  unfold wait_window, spec_serve_window.
  rewrite take_min_length, drop_min_length.
  change (map fst q) with (fst <$> q).
  rewrite <- fmap_take, <- fmap_drop.
  change (fst <$> take C q) with (map fst (take C q)).
  change (fst <$> drop C q) with (map fst (drop C q)).
  rewrite map_app, !map_map. reflexivity.
Qed.

Lemma wait_age_erase (q : list Waiting) :
  map fst (map wait_age q) = map spec_age (map fst q).
Proof. now rewrite !map_map. Qed.

Lemma wait_drain_erase (q : list Waiting) :
  spec_drain sid (map fst q)
  = (map fst (fst (wait_drain sid q)), map fst (snd (wait_drain sid q))).
Proof.
  induction q as [|w q IH]; [reflexivity|].
  cbn [map wait_drain spec_drain].
  destruct (remaining (fst w) =? 0); [|reflexivity].
  rewrite IH. now destruct (wait_drain sid q).
Qed.

Lemma wait_tick_erase (q : list Waiting) :
  spec_tick C sid (map fst q)
  = (map fst (fst (wait_tick C sid q)), map fst (snd (wait_tick C sid q))).
Proof.
  unfold spec_tick, wait_tick.
  now rewrite <- wait_age_erase, <- wait_window_erase, wait_drain_erase.
Qed.

(** A tick keeps the invariant, whether the request is served or waits. *)
Lemma wait_inv_tick (w : Waiting) :
  wait_inv f n w ->
  wait_inv f (n + 1) (wait_outside (wait_age w)) /\
  wait_inv f (n + 1) (wait_serve (wait_age w)).
Proof.
  unfold wait_inv. destruct w as [r k].
  cbn [fst snd wait_outside wait_age wait_serve spec_age spec_serve latency remaining].
  intros (H1 & H2 & H3). repeat split; lia.
Qed.

Lemma wait_window_inv (q : list Waiting) :
  Forall (wait_inv f n) q ->
  Forall (wait_inv f (n + 1)) (wait_window C (map wait_age q)).
Proof.
  intros H. unfold wait_window. apply Forall_app. split.
  - rewrite Forall_map. apply Forall_take. rewrite Forall_map.
    eapply Forall_impl; [exact H|]. intros w Hw.
    apply (wait_inv_tick w Hw).
  - rewrite Forall_map. apply Forall_drop. rewrite Forall_map.
    eapply Forall_impl; [exact H|]. intros w Hw.
    apply (wait_inv_tick w Hw).
Qed.

(** A popped request has no service left, so its latency is the fixed
    service time plus its ticks outside the window. *)
Lemma wait_drain_inv (q : list Waiting) :
  Forall (wait_inv f n) q ->
  Forall (wait_inv f n) (snd (wait_drain sid q)) /\
  Forall (fun cw => c_latency (fst cw) = f + Z.of_nat (snd cw))
         (fst (wait_drain sid q)).
Proof.
  induction 1 as [|w q Hw Hq IH]; cbn [wait_drain fst snd]; [auto|].
  destruct (Z.eqb_spec (remaining (fst w)) 0) as [E|E].
  - destruct (wait_drain sid q) as [emitted rest]. cbn [fst snd] in *.
    split; [apply IH|]. constructor; [|apply IH].
    cbn [fst snd completion_of c_latency].
    destruct Hw as (H1 & _). lia.
  - cbn [fst snd]. auto.
Qed.

Lemma wait_inv_mono (m : Z) (w : Waiting) :
  n <= m -> wait_inv f n w -> wait_inv f m w.
Proof. unfold wait_inv. intros Hnm (H1 & H2 & H3). repeat split; lia. Qed.

End WaitingModel.

(** [onReceiveRequest] is the specified enqueue. *)
Lemma onReceiveRequest_is_spec_enqueue
  (source : Z) (s : UpstreamServer) (q : list Request) :
  represents s q ->
  represents (UpstreamServer_onReceiveRequest source s)
             (spec_enqueue (service_time s) source q).
Proof.
  intros (Ht & Hs & Hl). unfold represents, spec_enqueue.
  cbn [UpstreamServer_onReceiveRequest service_timers request_sources latencies].
  rewrite !map_app, Ht, Hs, Hl. repeat split.
Qed.

Lemma UpstreamServer_calls_refine (sid : Z) (calls : list server_call) :
  forall (s : UpstreamServer) (q : list Waiting) (emitted : list (Completion * nat))
         (g : Globals) (n : Z),
    represents s (map fst q) ->
    server_id s = sid ->
    service_time s = 100 ->
    Forall (wait_inv 100 n) q ->
    0 <= n ->
    n + Z.of_nat (length calls) <= INT_MAX ->
    exists s' g' new q',
      UpstreamServer_calls calls s g = Ret (s', g') /\
      wait_calls (Z.to_nat concurrency) 100 sid calls emitted q
        = (emitted ++ new, q') /\
      represents s' (map fst q') /\
      service_time s' = 100 /\
      response_latency g'
        = response_latency g ++ map (fun cw => c_latency (fst cw)) new /\
      request_proxy g'
        = request_proxy g ++ map (fun cw => c_origin (fst cw)) new /\
      response_server g'
        = response_server g ++ map (fun cw => c_server (fst cw)) new /\
      Forall (fun cw => c_latency (fst cw) = 100 + Z.of_nat (snd cw)) new /\
      Forall (wait_inv 100 (n + Z.of_nat (length calls))) q'.
Proof.
  induction calls as [|c calls IH]; intros s q emitted g n Hrep Hsid Hst Hinv Hn Hmax.
  - exists s, g, [], q. cbn [UpstreamServer_calls wait_calls map length].
    rewrite !app_nil_r, Z.add_0_r. unfold ret. repeat split; auto; apply Hrep.
  - cbn [length] in Hmax. destruct c as [source|].
    + cbn [UpstreamServer_calls wait_calls].
      destruct (IH (UpstreamServer_onReceiveRequest source s)
                   (wait_enqueue 100 source q) emitted g n)
        as (s' & g' & new & q' & Hrun & Hw & Hrep' & Hst' & Hl & Hp & Hs & Hnew & Hq');
        try assumption; try lia.
      * unfold wait_enqueue. rewrite map_app. cbn [map fst]. rewrite <- Hst.
        now apply onReceiveRequest_is_spec_enqueue.
      * apply Forall_app. split; [assumption|]. constructor; [|constructor].
        unfold wait_inv. cbn. lia.
      * exists s', g', new, q'. repeat split; try assumption; try apply Hrep'.
        eapply Forall_impl; [exact Hq'|]. intros w. apply wait_inv_mono. cbn [length]. lia.
    + cbn [UpstreamServer_calls wait_calls].
      assert (Hrange : Forall (fun r => INT_MIN < remaining r <= INT_MAX /\
                                        INT_MIN <= latency r < INT_MAX) (map fst q)).
      { rewrite Forall_map. eapply Forall_impl; [exact Hinv|].
        intros w (H1 & H2 & H3). unfold INT_MIN, INT_MAX in *. cbn. lia. }
      destruct (processRequest_refines s (map fst q) g Hrep Hrange)
        as (s1 & g1 & completions & rest & popped & Hrun1 & Hspec & Hrep1 & Hsid1
            & Hst1 & Hl1 & Hp1 & Hs1 & _).
      rewrite Hsid, wait_tick_erase in Hspec.
      pose proof (wait_window_inv (Z.to_nat concurrency) 100 n q Hinv) as Hwin.
      pose proof (wait_drain_inv sid 100 (n + 1) _ Hwin) as [Hq1 Hem1].
      fold (wait_tick (Z.to_nat concurrency) sid q) in Hq1, Hem1.
      destruct (wait_tick (Z.to_nat concurrency) sid q) as [em1 q1].
      cbn [fst snd] in Hspec, Hq1, Hem1. injection Hspec as <- <-.
      destruct (IH s1 q1 (emitted ++ em1) g1 (n + 1))
        as (s' & g' & new & q' & Hrun & Hw & Hrep' & Hst' & Hl & Hp & Hs & Hnew & Hq');
        try assumption; try lia; try congruence.
      exists s', g', (em1 ++ new), q'.
      unfold bind. rewrite Hrun1. cbn [obind]. rewrite Hrun, Hw, Hl, Hp, Hs.
      rewrite Hl1, Hp1, Hs1, !map_app, !map_map, <- !app_assoc.
      repeat split; try assumption; try apply Hrep'.
      * apply Forall_app. split; assumption.
      * eapply Forall_impl; [exact Hq'|]. intros w. apply wait_inv_mono. cbn [length]. lia.
Qed.

(** C5: take any sequence of calls made on a fresh upstream server.  The
    code and the queueing model run in step, and every completion record
    the code emits carries a latency equal to the fixed service time plus
    the number of ticks its request spent outside the first-[C] window
    (ticks in which it accrued latency and received no service decrement);
    so the latency is the fixed service time alone exactly when the request
    never waited outside the window. *)
Theorem completion_latency_is_service_plus_waiting
  (sid : Z) (calls : list server_call) (g : Globals) :
  Z.of_nat (length calls) <= INT_MAX ->
  exists s' g' emitted q,
    UpstreamServer_calls calls (UpstreamServer_new sid) g = Ret (s', g') /\
    wait_calls (Z.to_nat concurrency) (service_time (UpstreamServer_new sid))
               sid calls [] [] = (emitted, q) /\
    represents s' (map fst q) /\
    response_latency g'
      = response_latency g ++ map (fun cw => c_latency (fst cw)) emitted /\
    request_proxy g'
      = request_proxy g ++ map (fun cw => c_origin (fst cw)) emitted /\
    response_server g'
      = response_server g ++ map (fun cw => c_server (fst cw)) emitted /\
    Forall (fun cw =>
              c_latency (fst cw) = service_time s' + Z.of_nat (snd cw) /\
              (c_latency (fst cw) = service_time s' <-> snd cw = O))
           emitted.
Proof.
  intros Hmax.
  destruct (UpstreamServer_calls_refine sid calls (UpstreamServer_new sid) [] [] g 0)
    as (s' & g' & new & q' & Hrun & Hw & Hrep' & Hst' & Hl & Hp & Hs & Hnew & _);
    try reflexivity; try lia.
  { repeat split. }
  { constructor. }
  exists s', g', new, q'. cbn [app] in Hw.
  repeat split; try assumption; try apply Hrep'.
  rewrite Hst'. eapply Forall_impl; [exact Hnew|].
  intros cw Hcw. cbn in Hcw |- *. lia.
Qed.

Lemma completion_latency_is_service_plus_waiting_witness :
  Z.of_nat (length example_calls) <= INT_MAX /\
  exists s' g' emitted q,
    UpstreamServer_calls example_calls (UpstreamServer_new 0) (initial_globals [])
      = Ret (s', g') /\
    wait_calls (Z.to_nat concurrency) 100 0 example_calls [] [] = (emitted, q) /\
    response_latency g' = [100; 100; 100; 100; 100; 100; 200; 200] /\
    map snd emitted = [0; 0; 0; 0; 0; 0; 100; 100]%nat.
Proof.
  assert (H : Z.of_nat (length example_calls) <= INT_MAX) by (vm_compute; congruence).
  split; [exact H|].
  destruct (completion_latency_is_service_plus_waiting 0 example_calls
              (initial_globals []) H)
    as (s' & g' & emitted & q & Hrun & Hw & _).
  exists s', g', emitted, q. split; [exact Hrun|]. split; [exact Hw|].
  vm_compute in Hrun. injection Hrun as <- <-.
  vm_compute in Hw. injection Hw as <- <-.
  split; reflexivity.
Defined.

(** ** Requests in flight and the proxies' counters *)

Lemma sumZ_app (l1 l2 : list Z) : sumZ (l1 ++ l2) = sumZ l1 + sumZ l2.
Proof. induction l1 as [|x l1 IH]; simpl; lia. Qed.

Lemma count_src_app (src : Z) (l1 l2 : list Z) :
  count_src src (l1 ++ l2) = count_src src l1 + count_src src l2.
Proof. induction l1 as [|x l1 IH]; simpl; lia. Qed.

Lemma count_src_bounds (src : Z) (l : list Z) :
  0 <= count_src src l <= Z.of_nat (length l).
Proof. induction l as [|x l IH]; simpl; [lia|]. destruct (x =? src); lia. Qed.

Lemma pending_app (src sid : Z) (rp rs rp2 rs2 : list Z) :
  length rp = length rs ->
  pending src sid (rp ++ rp2) (rs ++ rs2)
  = pending src sid rp rs + pending src sid rp2 rs2.
Proof.
  revert rs. induction rp as [|a rp IH]; intros [|c rs] Hlen;
    simpl in Hlen; try discriminate; [reflexivity|].
  simpl. rewrite IH by lia. lia.
Qed.

Lemma pending_replicate (src sid sid' : Z) (popped : list Z) :
  pending src sid popped (replicate (length popped) sid')
  = if sid' =? sid then count_src src popped else 0.
Proof.
  induction popped as [|a popped IH]; simpl.
  - now destruct (sid' =? sid).
  - rewrite IH. destruct (a =? src), (sid' =? sid); simpl; lia.
Qed.

Lemma queued_cons (src sid : Z) (s : UpstreamServer) (servers : list UpstreamServer) :
  queued src sid (s :: servers)
  = (if server_id s =? sid then count_src src (request_sources s) else 0)
    + queued src sid servers.
Proof. reflexivity. Qed.

(** What the draining loop does to the deque of sources and to the
    buffers, whatever the deques hold. *)
Lemma drain_effect (sid : Z) (timers : list Z) :
  forall (sources lats : list Z) (g : Globals) t' s' l' g',
    drain sid timers sources lats g = Ret ((t', s', l'), g') ->
    exists popped,
      sources = popped ++ s' /\
      (length timers = length popped + length t')%nat /\
      request_proxy g' = request_proxy g ++ popped /\
      response_server g' = response_server g ++ replicate (length popped) sid /\
      rand_tape g' = rand_tape g.
Proof.
  induction timers as [|t timers IH]; intros sources lats g t' s' l' g'; simpl.
  - intros [= <- <- <- <-]. exists []. simpl. now rewrite !app_nil_r.
  - destruct (t =? 0).
    + destruct lats as [|lat lats]; [discriminate|].
      destruct sources as [|src sources]; [discriminate|].
      intros H. destruct (IH _ _ _ _ _ _ _ H) as (popped & -> & Hlen & Hp & Hs & Ht).
      exists (src :: popped). simpl in *.
      rewrite Hp, Hs, <- !app_assoc. repeat split; auto with lia.
    + intros [= <- <- <- <-]. exists []. simpl. now rewrite !app_nil_r.
Qed.

Lemma processRequest_effect (s s' : UpstreamServer) (g g' : Globals) :
  UpstreamServer_processRequest s g = Ret (s', g') ->
  exists popped,
    request_sources s = popped ++ request_sources s' /\
    (length (service_timers s) = length popped + length (service_timers s'))%nat /\
    server_id s' = server_id s /\
    request_proxy g' = request_proxy g ++ popped /\
    response_server g' = response_server g ++ replicate (length popped) (server_id s) /\
    rand_tape g' = rand_tape g.
Proof.
  unfold UpstreamServer_processRequest, bind. intros H.
  destruct (drain _ _ _ _ g) as [[[[t' src'] l'] g1]| |] eqn:Hd; try discriminate.
  cbn [obind] in H. unfold ret in H. injection H as <- <-.
  destruct (drain_effect _ _ _ _ _ _ _ _ _ Hd) as (popped & Hs & Hlen & Hp & Hr & Ht).
  rewrite serve_window_length in Hlen.
  exists popped. cbn. repeat split; assumption || reflexivity.
Qed.

Lemma processRequest_ledger (s s' : UpstreamServer) (g g' : Globals) :
  UpstreamServer_processRequest s g = Ret (s', g') ->
  length (request_proxy g) = length (response_server g) ->
  length (request_proxy g') = length (response_server g') /\
  rand_tape g' = rand_tape g /\
  server_id s' = server_id s /\
  (length (request_sources s) = length (service_timers s) ->
   length (request_sources s') = length (service_timers s')) /\
  (forall P, Forall (fun src => 0 <= src < P) (request_sources s) ->
             Forall (fun src => 0 <= src < P) (request_sources s')) /\
  (forall src sid,
     (if server_id s' =? sid then count_src src (request_sources s') else 0)
     + pending src sid (request_proxy g') (response_server g')
     = (if server_id s =? sid then count_src src (request_sources s) else 0)
       + pending src sid (request_proxy g) (response_server g)).
Proof.
  intros H Hal.
  destruct (processRequest_effect _ _ _ _ H) as (popped & Hs & Hlen & Hid & Hp & Hr & Ht).
  repeat split; auto.
  - rewrite Hp, Hr, !length_app, length_replicate. lia.
  - rewrite Hs, length_app. lia.
  - intros P HP. rewrite Hs in HP. now apply Forall_app in HP.
  - intros src sid. rewrite Hp, Hr, pending_app, pending_replicate, Hid, Hs by assumption.
    rewrite count_src_app. destruct (server_id s =? sid); lia.
Qed.

(** Processing moves requests from the queues into the buffers: no entry
    of the ledger changes. *)
Lemma for_each_processRequest_ledger (servers : list UpstreamServer) :
  forall (g : Globals) servers' g',
    for_each UpstreamServer_processRequest servers g = Ret (servers', g') ->
    length (request_proxy g) = length (response_server g) ->
    length (request_proxy g') = length (response_server g') /\
    rand_tape g' = rand_tape g /\
    Forall2 (fun s s' =>
               server_id s' = server_id s /\
               (length (request_sources s) = length (service_timers s) ->
                length (request_sources s') = length (service_timers s')) /\
               (forall P, Forall (fun src => 0 <= src < P) (request_sources s) ->
                          Forall (fun src => 0 <= src < P) (request_sources s')))
            servers servers' /\
    (forall src sid,
       ledger servers' (request_proxy g') (response_server g') src sid
       = ledger servers (request_proxy g) (response_server g) src sid).
Proof.
  induction servers as [|s servers IH]; intros g servers' g'; cbn [for_each].
  - unfold ret. intros [= <- <-] Hal. repeat split; auto.
  - unfold bind at 1. intros H Hal.
    destruct (UpstreamServer_processRequest s g) as [[s1 g1]| |] eqn:Hs; try discriminate.
    cbn [obind] in H. unfold bind at 1 in H.
    destruct (for_each UpstreamServer_processRequest servers g1)
      as [[servers1 g2]| |] eqn:Hrest; try discriminate.
    cbn [obind] in H. unfold ret in H. injection H as <- <-.
    destruct (processRequest_ledger _ _ _ _ Hs Hal) as (Hal1 & Ht1 & Hid & Hlen & Hval & Hled).
    destruct (IH _ _ _ Hrest Hal1) as (Hal2 & Ht2 & Hall & Hled2).
    repeat split; auto; [congruence|].
    intros src sid. unfold ledger in *. rewrite !queued_cons.
    specialize (Hled src sid). specialize (Hled2 src sid). lia.
Qed.

Lemma Backend_processRequest_ok (P : Z) (b b' : Backend) (g g' : Globals) :
  Backend_processRequest b g = Ret (b', g') ->
  length (request_proxy g) = length (response_server g) ->
  backend_ok P (upstream_servers b) ->
  length (request_proxy g') = length (response_server g') /\
  rand_tape g' = rand_tape g /\
  length (upstream_servers b') = length (upstream_servers b) /\
  backend_ok P (upstream_servers b') /\
  (forall src sid,
     ledger (upstream_servers b') (request_proxy g') (response_server g') src sid
     = ledger (upstream_servers b) (request_proxy g) (response_server g) src sid).
Proof.
  unfold Backend_processRequest, bind. intros H Hal Hok.
  destruct (for_each _ _ g) as [[servers' g1]| |] eqn:Hf; try discriminate.
  cbn [obind] in H. unfold ret in H. injection H as <- <-.
  destruct (for_each_processRequest_ledger _ _ _ _ Hf Hal) as (Hal' & Ht & Hall & Hled).
  cbn [upstream_servers]. repeat split; auto.
  - symmetry. eapply Forall2_length; eauto.
  - destruct (Forall2_lookup_r _ _ _ _ _ Hall H) as (s0 & Hs0 & Hid & Hlen & Hval).
    destruct (Hok _ _ Hs0) as (Hid0 & _). congruence.
  - destruct (Forall2_lookup_r _ _ _ _ _ Hall H) as (s0 & Hs0 & Hid & Hlen & Hval).
    destruct (Hok _ _ Hs0) as (_ & Hlen0 & _). auto.
  - destruct (Forall2_lookup_r _ _ _ _ _ Hall H) as (s0 & Hs0 & Hid & Hlen & Hval).
    destruct (Hok _ _ Hs0) as (_ & _ & Hval0). auto.
Qed.

Lemma wrap_int_wrap_add (x y : Z) : wrap_int (wrap_int x + y) = wrap_int (x + y).
Proof.
  unfold wrap_int.
  replace ((x + 2 ^ 31) mod 2 ^ 32 - 2 ^ 31 + y + 2 ^ 31)
    with ((x + 2 ^ 31) mod 2 ^ 32 + y) by lia.
  rewrite Zplus_mod_idemp_l. do 2 f_equal. lia.
Qed.

Lemma int_incr_wrap (x : Z) : int_incr (wrap_int x) = wrap_int (x + 1).
Proof. unfold int_incr. apply wrap_int_wrap_add. Qed.

Lemma int_decr_wrap (x : Z) : int_decr (wrap_int x) = wrap_int (x - 1).
Proof.
  unfold int_decr. replace (wrap_int x - 1) with (wrap_int x + -1) by lia.
  now rewrite wrap_int_wrap_add.
Qed.

Lemma vec_at_nat {A : Type} (v : list A) (i : nat) :
  vec_at v (Z.of_nat i)
  = match v !! i with Some x => Ret x | None => Undefined end.
Proof.
  unfold vec_at. destruct (Z.ltb_spec (Z.of_nat i) 0); [lia|].
  now rewrite Nat2Z.id.
Qed.

Lemma vec_at_Ret {A : Type} (v : list A) (i : Z) (x : A) :
  vec_at v i = Ret x -> 0 <= i /\ v !! Z.to_nat i = Some x.
Proof.
  unfold vec_at. destruct (Z.ltb_spec i 0); [discriminate|].
  destruct (v !! Z.to_nat i); [|discriminate].
  intros [= ->]. auto.
Qed.

Lemma vec_alter_Ret {A : Type} (f : A -> A) (v v' : list A) (i : Z) :
  vec_alter f v i = Ret v' ->
  0 <= i /\ (Z.to_nat i < length v)%nat /\ v' = alter f (Z.to_nat i) v.
Proof.
  unfold vec_alter. destruct (Z.ltb_spec i 0); [discriminate|].
  destruct (Nat.ltb_spec (Z.to_nat i) (length v)); [|discriminate].
  intros [= <-]. auto.
Qed.

(** The index loop of [collectStats] visits the records of the two buffers
    in order; [length request_proxy] iterations are enough. *)
Lemma deliver_unroll (fuel : nat) :
  forall (i : nat) (rp rs : list Z) (ps : list ProxyServer),
    (i + fuel = length rp)%nat ->
    deliver fuel (Z.of_nat i) rp rs ps = deliver_each (drop i rp) (drop i rs) ps.
Proof.
  induction fuel as [|fuel IH]; intros i rp rs ps Hlen.
  - rewrite (drop_ge rp) by lia. reflexivity.
  - cbn [deliver].
    destruct (Z.ltb_spec (Z.of_nat i) (Z.of_nat (length rp))); [|lia].
    destruct (lookup_lt_is_Some_2 rp i) as [a Ha]; [lia|].
    rewrite !vec_at_nat, Ha, (drop_S _ _ _ Ha). cbn [obind deliver_each].
    destruct (rs !! i) as [c|] eqn:Hc.
    + rewrite (drop_S _ _ _ Hc). cbn [obind].
      destruct (vec_at ps a) as [p| |]; cbn [obind]; try reflexivity.
      destruct (ProxyServer_onReceiveResponse c p) as [p'| |]; cbn [obind];
        try reflexivity.
      replace (Z.of_nat i + 1) with (Z.of_nat (S i)) by lia.
      apply IH. lia.
    + rewrite (drop_ge rs) by (apply lookup_ge_None; assumption). reflexivity.
Qed.

Lemma deliver_is_deliver_each (rp rs : list Z) (ps : list ProxyServer) :
  deliver (length rp) 0 rp rs ps = deliver_each rp rs ps.
Proof. exact (deliver_unroll (length rp) 0 rp rs ps eq_refl). Qed.

Lemma proxies_numbered_lookup (ps : list ProxyServer) (i : nat) (p : ProxyServer) :
  proxies_numbered ps -> ps !! i = Some p -> id p = Z.of_nat i.
Proof.
  unfold proxies_numbered. intros Hn Hp.
  assert (H : (id <$> ps) !! i = Some (id p)) by (rewrite list_lookup_fmap, Hp; reflexivity).
  change (id <$> ps) with (map id ps) in H. rewrite Hn in H.
  apply lookup_seqZ in H. lia.
Qed.

Lemma proxy_ok_ext (N : Z) (L L' : Z -> Z -> Z) (p : ProxyServer) :
  (forall sid, L' (id p) sid = L (id p) sid) ->
  proxy_ok N L p -> proxy_ok N L' p.
Proof.
  intros E. unfold proxy_ok. destruct (load_balancer p) as [lb|].
  - intros ->. apply map_ext. intros j. now rewrite E.
  - intros H sid. now rewrite E.
Qed.

Lemma alter_map_seqZ (f : Z -> Z) (F F' : Z -> Z) (N c : Z) :
  0 <= c ->
  F' c = f (F c) ->
  (forall k, k <> c -> F' k = F k) ->
  alter f (Z.to_nat c) (map F (seqZ 0 N)) = map F' (seqZ 0 N).
Proof.
  intros Hc Hat Hother. apply list_eq. intros k.
  rewrite list_lookup_alter.
  change (map F (seqZ 0 N)) with (F <$> seqZ 0 N).
  change (map F' (seqZ 0 N)) with (F' <$> seqZ 0 N).
  rewrite !list_lookup_fmap.
  destruct (decide (Z.to_nat c = k)) as [<-|Hne].
  - destruct (seqZ 0 N !! Z.to_nat c) as [x|] eqn:Hx; [|reflexivity].
    apply lookup_seqZ in Hx as [-> _]. cbn.
    rewrite Z.add_0_l, Z2Nat.id by lia. now rewrite Hat.
  - destruct (seqZ 0 N !! k) as [x|] eqn:Hx; [|reflexivity].
    apply lookup_seqZ in Hx as [-> _]. cbn.
    rewrite Hother by lia. reflexivity.
Qed.

Lemma onReceiveResponse_effect (c : Z) (p p' : ProxyServer) :
  ProxyServer_onReceiveResponse c p = Ret p' ->
  exists lb,
    load_balancer p = Some lb /\
    0 <= c /\
    load_balancer p'
      = Some {| active_requests := alter int_decr (Z.to_nat c) (active_requests lb);
                policy := policy lb |} /\
    id p' = id p.
Proof.
  unfold ProxyServer_onReceiveResponse, LoadBalancer_onReceiveResponse.
  destruct (load_balancer p) as [lb|]; [|discriminate].
  destruct (vec_alter int_decr (active_requests lb) c) as [ar| |] eqn:Hv;
    try discriminate.
  cbn [obind]. intros [= <-].
  apply vec_alter_Ret in Hv as (Hc & _ & ->).
  exists lb. cbn. auto.
Qed.

(** Delivering the buffered responses brings every counter back in line
    with the queues alone. *)
Lemma deliver_each_ok (N : Z) (servers : list UpstreamServer) (rp : list Z) :
  forall (rs : list Z) (ps ps' : list ProxyServer),
    deliver_each rp rs ps = Ret ps' ->
    proxies_numbered ps ->
    Forall (proxy_ok N (ledger servers rp rs)) ps ->
    proxies_numbered ps' /\
    length ps' = length ps /\
    Forall (proxy_ok N (ledger servers [] [])) ps'.
Proof.
  induction rp as [|a rp IH]; intros rs ps ps'; cbn [deliver_each].
  - intros [= <-] Hn Hok. repeat split; auto.
  - destruct rs as [|c rs]; [discriminate|].
    destruct (vec_at ps a) as [p| |] eqn:Hp; try discriminate. cbn [obind].
    destruct (ProxyServer_onReceiveResponse c p) as [p'| |] eqn:Hr; try discriminate.
    cbn [obind]. intros Hrun Hn Hok.
    apply vec_at_Ret in Hp as (Ha & Hp).
    destruct (onReceiveResponse_effect _ _ _ Hr) as (lb & Hlb & Hc & Hlb' & Hid).
    pose proof (proxies_numbered_lookup _ _ _ Hn Hp) as Hida.
    rewrite Z2Nat.id in Hida by assumption.
    assert (Hn1 : proxies_numbered (<[Z.to_nat a := p']> ps)).
    { unfold proxies_numbered in *. rewrite length_insert, <- Hn.
      change (map id (<[Z.to_nat a:=p']> ps)) with (id <$> <[Z.to_nat a:=p']> ps).
      rewrite list_fmap_insert. apply list_insert_id.
      rewrite list_lookup_fmap, Hp. cbn. now rewrite Hid. }
    destruct (IH rs (<[Z.to_nat a := p']> ps) ps' Hrun Hn1) as (Hn' & Hlen & Hok').
    + rewrite Forall_lookup in Hok |- *. intros i q Hq.
      destruct (decide (Z.to_nat a = i)) as [<-|Hne].
      * rewrite list_lookup_insert_eq in Hq by (eapply lookup_lt_Some; eauto).
        injection Hq as <-.
        specialize (Hok _ _ Hp). unfold proxy_ok in Hok |- *.
        rewrite Hlb in Hok. rewrite Hlb', Hid. cbn [active_requests].
        rewrite Hok. apply alter_map_seqZ; [assumption| |].
        -- rewrite int_decr_wrap. f_equal.
           unfold ledger. cbn [pending]. rewrite Hida, !Z.eqb_refl. cbn. lia.
        -- intros k Hk. f_equal. unfold ledger. cbn [pending].
           destruct (Z.eqb_spec c k); [congruence|]. rewrite andb_false_r. lia.
      * rewrite list_lookup_insert_ne in Hq by assumption.
        specialize (Hok _ _ Hq). revert Hok. apply proxy_ok_ext.
        intros sid. unfold ledger. cbn [pending].
        pose proof (proxies_numbered_lookup _ _ _ Hn Hq) as Hidq.
        destruct (Z.eqb_spec a (id q)); [lia|]. cbn. lia.
    + rewrite length_insert in Hlen. auto.
Qed.

Lemma bind_Ret {A B : Type} (m : M A) (k : A -> M B) (g g' : Globals) (b : B) :
  bind m k g = Ret (b, g') ->
  exists a g1, m g = Ret (a, g1) /\ k a g1 = Ret (b, g').
Proof.
  unfold bind. destruct (m g) as [[a g1]| |]; try discriminate.
  cbn [obind]. eauto.
Qed.

Lemma lift_Ret {A : Type} (o : outcome A) (g g' : Globals) (a : A) :
  lift o g = Ret (a, g') -> o = Ret a /\ g' = g.
Proof. unfold lift. destruct o; try discriminate. cbn. intros [= <- <-]. auto. Qed.

Lemma flow_off_end_Ret (mr : MissingReturn) (g g' : Globals) (u : unit) :
  flow_off_end mr g = Ret (u, g') -> mr = EndReturns /\ g' = g.
Proof.
  destruct mr; cbn; [discriminate|]. unfold ret. intros [= _ <-]. auto.
Qed.

(** With the closing brace returning, the call is its loop. *)
Lemma Frontend_onReceiveRequest_returns (f : Frontend) (b : Backend) :
  Frontend_onReceiveRequest EndReturns f b
  = (let* (ps, b') := arrivals (Z.of_nat (length (proxies f))) (proxies f) b in
     ret ({| proxies := ps |}, b')).
Proof. reflexivity. Qed.

(** A call that returns has run its loop to the end, under the reading
    that lets it return. *)
Lemma Frontend_onReceiveRequest_Ret (mr : MissingReturn) (f : Frontend) (b : Backend)
  (g : Globals) (r : Frontend * Backend * Globals) :
  Frontend_onReceiveRequest mr f b g = Ret r ->
  mr = EndReturns /\
  (let* (ps, b') := arrivals (Z.of_nat (length (proxies f))) (proxies f) b in
   ret ({| proxies := ps |}, b')) g = Ret r.
Proof.
  destruct mr; [|auto].
  unfold Frontend_onReceiveRequest, bind.
  destruct (arrivals _ _ _ g) as [[[ps b'] g1]| |]; discriminate.
Qed.

Lemma same_buffers_refl (g : Globals) : same_buffers g g.
Proof. repeat split. Qed.

Lemma same_buffers_trans (g1 g2 g3 : Globals) :
  same_buffers g1 g2 -> same_buffers g2 g3 -> same_buffers g1 g3.
Proof. unfold same_buffers. intros (A1 & A2 & A3) (B1 & B2 & B3). repeat split; congruence. Qed.

Lemma rand_same_buffers (g g' : Globals) (r : Z) :
  rand g = Ret (r, g') -> same_buffers g g'.
Proof.
  unfold rand. destruct (rand_tape g); [discriminate|].
  intros [= <- <-]. repeat split.
Qed.

Lemma with_tape_same_buffers {A : Type} (f : list N -> outcome (A * list N))
  (g g' : Globals) (a : A) :
  with_tape f g = Ret (a, g') -> same_buffers g g'.
Proof.
  unfold with_tape. destruct (f (rand_tape g)) as [[a' t]| |]; try discriminate.
  cbn. intros [= <- <-]. repeat split.
Qed.

Create HintDb buffers.
#[local] Hint Resolve same_buffers_refl rand_same_buffers with_tape_same_buffers
  : buffers.

(** Selecting a server reads the counters and may move the cursor and use
    up random numbers; nothing else changes. *)
Lemma selectUpstreamServer_effect (lb lb1 : LoadBalancer) (n j : Z) (g g1 : Globals) :
  selectUpstreamServer lb n g = Ret ((j, lb1), g1) ->
  active_requests lb1 = active_requests lb /\ same_buffers g g1.
Proof.
  unfold selectUpstreamServer. destruct (policy lb).
  - intros H. apply bind_Ret in H as (c & g2 & H1 & H2).
    apply lift_Ret in H1 as (_ & ->). unfold ret in H2. injection H2 as <- <- <-.
    split; [reflexivity|auto with buffers].
  - intros H. apply bind_Ret in H as (s & g2 & H1 & H2).
    unfold ret in H2. injection H2 as <- <- <-.
    unfold RandomSelect_selectUpstreamServer in H1.
    apply bind_Ret in H1 as (r & g3 & H1 & H3).
    apply lift_Ret in H3 as (_ & ->).
    split; [reflexivity|eauto with buffers].
  - intros H. apply bind_Ret in H as (s & g2 & H1 & H2).
    unfold ret in H2. injection H2 as <- <- <-.
    unfold LeastRequests_selectUpstreamServer in H1.
    apply bind_Ret in H1 as (r & g3 & H1 & H3).
    apply bind_Ret in H3 as (s1 & g4 & H3 & H4).
    apply bind_Ret in H4 as (s2 & g5 & H4 & H5).
    apply bind_Ret in H5 as (a1 & g6 & H5 & H6).
    apply bind_Ret in H6 as (a2 & g7 & H6 & H7).
    apply lift_Ret in H3 as (_ & ->). apply lift_Ret in H5 as (_ & ->).
    apply lift_Ret in H6 as (_ & ->). unfold ret in H7. injection H7 as _ <-.
    split; [reflexivity|].
    eapply same_buffers_trans; [eapply rand_same_buffers; eassumption|].
    eauto with buffers.
Qed.

(** Sending a request: one counter of the proxy goes up and the server
    chosen gets one more queued request, with this proxy as its source. *)
Lemma onSendRequest_effect (p p' : ProxyServer) (b b' : Backend) (g g' : Globals) :
  ProxyServer_onSendRequest p b g = Ret ((p', b'), g') ->
  exists lb lb' j,
    load_balancer p = Some lb /\
    load_balancer p' = Some lb' /\
    id p' = id p /\
    0 <= j /\
    (Z.to_nat j < length (upstream_servers b))%nat /\
    active_requests lb' = alter int_incr (Z.to_nat j) (active_requests lb) /\
    upstream_servers b'
      = alter (UpstreamServer_onReceiveRequest (id p)) (Z.to_nat j) (upstream_servers b) /\
    same_buffers g g'.
Proof.
  unfold ProxyServer_onSendRequest.
  destruct (load_balancer p) as [lb|]; [|discriminate].
  intros H. apply bind_Ret in H as ([j lb1] & g1 & Hsel & H).
  apply bind_Ret in H as (lb2 & g2 & Hlb & H).
  apply bind_Ret in H as (b2 & g3 & Hb & H).
  unfold ret in H. injection H as <- <- <-.
  apply lift_Ret in Hlb as (Hlb & ->). apply lift_Ret in Hb as (Hb & ->).
  apply selectUpstreamServer_effect in Hsel as (Har & Hbuf).
  unfold LoadBalancer_onSendRequest in Hlb.
  destruct (vec_alter int_incr (active_requests lb1) j) as [ar| |] eqn:Hv;
    try discriminate.
  cbn in Hlb. injection Hlb as <-.
  apply vec_alter_Ret in Hv as (Hj & _ & ->).
  unfold Backend_onReceiveRequest in Hb.
  destruct (vec_alter _ (upstream_servers b) j) as [servers| |] eqn:Hs;
    try discriminate.
  cbn in Hb. injection Hb as <-.
  apply vec_alter_Ret in Hs as (_ & Hlen & ->).
  eexists lb, _, j. cbn. rewrite Har. repeat split; auto; apply Hbuf.
Qed.

Lemma queued_alter_enqueue (src src' sid : Z) (servers : list UpstreamServer) :
  forall (k : nat) (s : UpstreamServer),
    servers !! k = Some s ->
    queued src' sid (alter (UpstreamServer_onReceiveRequest src) k servers)
    = queued src' sid servers
      + (if (src =? src') && (server_id s =? sid) then 1 else 0).
Proof.
  induction servers as [|s0 servers IH]; intros [|k] s Hs; try discriminate.
  - injection Hs as ->. cbn [alter list_alter]. rewrite !queued_cons.
    cbn [UpstreamServer_onReceiveRequest server_id request_sources].
    rewrite count_src_app. cbn [count_src].
    destruct (src =? src'), (server_id s =? sid); cbn; lia.
  - cbn [alter list_alter]. rewrite !queued_cons.
    rewrite (IH k s Hs). lia.
Qed.

Lemma backend_ok_alter_enqueue (P src : Z) (servers : list UpstreamServer) (k : nat) :
  backend_ok P servers ->
  0 <= src < P ->
  backend_ok P (alter (UpstreamServer_onReceiveRequest src) k servers).
Proof.
  intros Hok Hsrc j s Hs. rewrite list_lookup_alter in Hs.
  destruct (decide (k = j)) as [->|Hne]; [|now apply Hok].
  destruct (servers !! j) as [s0|] eqn:Hs0; [|discriminate].
  cbn in Hs. injection Hs as <-. destruct (Hok _ _ Hs0) as (Hid & Hlen & Hval).
  cbn [UpstreamServer_onReceiveRequest server_id request_sources service_timers].
  repeat split; [assumption| |].
  - rewrite !length_app. cbn. lia.
  - apply Forall_app. split; [assumption|]. now constructor.
Qed.

Lemma arrival_effect (n : Z) (p p' : ProxyServer) (b b' : Backend) (g g' : Globals) :
  arrival n p b g = Ret ((p', b'), g') ->
  (p' = p /\ b' = b /\ same_buffers g g') \/
  (exists g1, same_buffers g g1 /\
              ProxyServer_onSendRequest p b g1 = Ret ((p', b'), g')).
Proof.
  unfold arrival. intros H.
  apply bind_Ret in H as (r & g1 & Hr & H).
  apply bind_Ret in H as (d & g2 & Hd & H).
  apply lift_Ret in Hd as (_ & ->). apply rand_same_buffers in Hr.
  destruct (d =? 0).
  - right. eauto.
  - left. unfold ret in H. injection H as <- <- <-. auto.
Qed.

Lemma onSendRequest_ok (P N : Z) (rp rs : list Z)
  (p p' : ProxyServer) (b b' : Backend) (g g' : Globals) :
  ProxyServer_onSendRequest p b g = Ret ((p', b'), g') ->
  backend_ok P (upstream_servers b) ->
  0 <= id p < P ->
  same_buffers g g' /\
  id p' = id p /\
  backend_ok P (upstream_servers b') /\
  length (upstream_servers b') = length (upstream_servers b) /\
  (forall src sid, src <> id p ->
     queued src sid (upstream_servers b') = queued src sid (upstream_servers b)) /\
  (proxy_ok N (ledger (upstream_servers b) rp rs) p ->
   proxy_ok N (ledger (upstream_servers b') rp rs) p').
Proof.
  intros H Hok Hid.
  destruct (onSendRequest_effect _ _ _ _ _ _ H)
    as (lb & lb' & j & Hlb & Hlb' & Hid' & Hj & Hlen & Har & Hb & Hbuf).
  destruct (lookup_lt_is_Some_2 _ _ Hlen) as [s Hs].
  destruct (Hok _ _ Hs) as (Hsid & _). rewrite Z2Nat.id in Hsid by assumption.
  split; [assumption|]. split; [assumption|]. rewrite Hb.
  split; [now apply backend_ok_alter_enqueue|].
  split; [apply length_alter|]. split.
  - intros src sid Hne. rewrite (queued_alter_enqueue _ _ _ _ _ _ Hs).
    destruct (Z.eqb_spec (id p) src); [congruence|]. cbn. lia.
  - unfold proxy_ok. rewrite Hlb, Hlb', Hid', Har. intros ->.
    apply alter_map_seqZ; [assumption| |].
    + rewrite int_incr_wrap. f_equal. unfold ledger.
      rewrite (queued_alter_enqueue _ _ _ _ _ _ Hs), Hsid, !Z.eqb_refl. cbn. lia.
    + intros k Hk. f_equal. unfold ledger.
      rewrite (queued_alter_enqueue _ _ _ _ _ _ Hs), Hsid.
      destruct (Z.eqb_spec j k); [congruence|]. rewrite andb_false_r. lia.
Qed.

(** The arrival phase keeps the servers and the counters in step. *)
Lemma arrivals_ok (n P N : Z) (rp rs : list Z) (ps : list ProxyServer) :
  forall (b : Backend) (g : Globals) ps' b' g',
    arrivals n ps b g = Ret ((ps', b'), g') ->
    backend_ok P (upstream_servers b) ->
    Forall (fun p => 0 <= id p < P) ps ->
    NoDup (map id ps) ->
    same_buffers g g' /\
    map id ps' = map id ps /\
    backend_ok P (upstream_servers b') /\
    length (upstream_servers b') = length (upstream_servers b) /\
    (forall src sid, ~ In src (map id ps) ->
       queued src sid (upstream_servers b') = queued src sid (upstream_servers b)) /\
    (Forall (proxy_ok N (ledger (upstream_servers b) rp rs)) ps ->
     Forall (proxy_ok N (ledger (upstream_servers b') rp rs)) ps').
Proof.
  induction ps as [|p ps IH]; intros b g ps' b' g'; cbn [arrivals].
  - unfold ret. intros [= <- <- <-] Hok _ _.
    split; [apply same_buffers_refl|]. split; [reflexivity|].
    split; [assumption|]. split; [reflexivity|]. split; auto.
  - intros H Hok Hids Hnd.
    apply bind_Ret in H as ([p1 b1] & g1 & Hp & H).
    apply bind_Ret in H as ([ps2 b2] & g2 & Hps & H).
    unfold ret in H. injection H as <- <- <-.
    apply Forall_cons in Hids as [Hid Hids].
    cbn [map] in Hnd. apply NoDup_cons in Hnd as [Hnin Hnd].
    assert (Hstep :
      same_buffers g g1 /\ id p1 = id p /\
      backend_ok P (upstream_servers b1) /\
      length (upstream_servers b1) = length (upstream_servers b) /\
      (forall src sid, src <> id p ->
         queued src sid (upstream_servers b1) = queued src sid (upstream_servers b)) /\
      (proxy_ok N (ledger (upstream_servers b) rp rs) p ->
       proxy_ok N (ledger (upstream_servers b1) rp rs) p1)).
    { destruct (arrival_effect _ _ _ _ _ _ _ Hp) as [(-> & -> & Hbuf)|(g0 & Hbuf & Hsend)].
      - split; [assumption|]. split; [reflexivity|]. split; [assumption|].
        split; [reflexivity|]. split; auto.
      - destruct (onSendRequest_ok P N rp rs _ _ _ _ _ _ Hsend Hok Hid)
          as (Hbuf' & Hid' & Hok' & Hlen' & Hfr & Hpok).
        split; [eapply same_buffers_trans; eauto|]. split; [assumption|].
        split; [assumption|]. split; [assumption|]. split; assumption. }
    destruct Hstep as (Hbuf1 & Hid1 & Hok1 & Hlen1 & Hfr1 & Hpok1).
    destruct (IH _ _ _ _ _ Hps Hok1 Hids Hnd)
      as (Hbuf2 & Hid2 & Hok2 & Hlen2 & Hfr2 & Hpok2).
    split; [eapply same_buffers_trans; eauto|].
    split; [cbn [map]; congruence|].
    split; [assumption|]. split; [congruence|]. split.
    + intros src sid Hsrc. cbn [map] in Hsrc.
      rewrite Hfr2, Hfr1; auto.
      * intros ->. apply Hsrc. now left.
      * intros Hin. apply Hsrc. now right.
    + intros Hall. apply Forall_cons in Hall as [Hp0 Hall]. constructor.
      * apply Hpok1 in Hp0. revert Hp0. apply proxy_ok_ext.
        intros sid. unfold ledger. rewrite Hid1, Hfr2; [reflexivity|].
        intros Hin. apply Hnin. now apply list_elem_of_In.
      * apply Hpok2. rewrite Forall_forall in Hall |- *. intros q Hq.
        specialize (Hall q Hq). revert Hall. apply proxy_ok_ext.
        intros sid. unfold ledger. rewrite Hfr1; [reflexivity|].
        intros E. apply Hnin. rewrite <- E.
        apply list_elem_of_fmap_2 with (f := id) in Hq. exact Hq.
Qed.

Lemma proxies_numbered_ids (ps : list ProxyServer) :
  proxies_numbered ps ->
  Forall (fun p => 0 <= id p < Z.of_nat (length ps)) ps /\ NoDup (map id ps).
Proof.
  intros Hn. split.
  - apply Forall_lookup. intros i p Hp.
    rewrite (proxies_numbered_lookup _ _ _ Hn Hp).
    apply lookup_lt_Some in Hp. lia.
  - unfold proxies_numbered in Hn. rewrite Hn. apply NoDup_seqZ.
Qed.

(** [collectStats] changes the proxies by delivering the buffered
    responses, and nothing else that the counters depend on. *)
Lemma collectStats_ok (sim0 sim1 : LBSimulator) (g1 g2 : Globals) :
  LBSimulator_collectStats sim0 g1 = Ret (sim1, g2) ->
  backend_ok (Z.of_nat (length (proxies (frontend sim0))))
             (upstream_servers (backend sim0)) ->
  proxies_numbered (proxies (frontend sim0)) ->
  Forall (proxy_ok (Z.of_nat (length (upstream_servers (backend sim0))))
                   (ledger (upstream_servers (backend sim0))
                           (request_proxy g1) (response_server g1)))
         (proxies (frontend sim0)) ->
  counters_ok sim1 /\ g2 = g1 /\ backend sim1 = backend sim0.
Proof.
  unfold LBSimulator_collectStats. intros H Hok Hn Hall.
  apply bind_Ret in H as (g & g0 & Hg & H).
  unfold get_globals in Hg. injection Hg as <- <-.
  apply bind_Ret in H as (ps & g0 & Hd & H). apply lift_Ret in Hd as (Hd & ->).
  apply bind_Ret in H as (hi & g0 & Hhi & H). apply lift_Ret in Hhi as (_ & ->).
  apply bind_Ret in H as (lo & g0 & Hlo & H). apply lift_Ret in Hlo as (_ & ->).
  unfold ret in H. injection H as <- <-.
  rewrite deliver_is_deliver_each in Hd.
  destruct (deliver_each_ok _ _ _ _ _ _ Hd Hn Hall) as (Hn' & Hlen & Hall').
  split; [|auto]. unfold counters_ok. cbn [backend frontend proxies].
  rewrite Hlen. auto.
Qed.

(** One time unit keeps the counters in step with the queues. *)
Lemma run1TimeUnit_ok {mr : MissingReturn} (sim sim' : LBSimulator) (g g' : Globals) :
  LBSimulator_run1TimeUnit mr sim g = Ret (sim', g') ->
  sim_ok sim g ->
  sim_ok sim' g'.
Proof.
  unfold LBSimulator_run1TimeUnit. intros H ((Hok & Hn & Hall) & Hrp & Hrs).
  apply bind_Ret in H as (b1 & g1 & Hproc & H).
  apply bind_Ret in H as (sim1 & g2 & Hcol & H).
  apply bind_Ret in H as ([] & g3 & Hclean & H).
  apply bind_Ret in H as ([f2 b2] & g4 & Harr & H).
  unfold ret in H. injection H as <- <-.
  destruct (Backend_processRequest_ok _ _ _ _ _ Hproc ltac:(congruence) Hok)
    as (Hal1 & _ & Hlen1 & Hok1 & Hled1).
  apply collectStats_ok in Hcol as ((Hok2 & Hn2 & Hall2) & -> & Hb).
  2: { exact Hok1. }
  2: { exact Hn. }
  2: { cbn [backend frontend]. rewrite Hlen1.
       eapply Forall_impl; [exact Hall|]. intros p. apply proxy_ok_ext.
       intros sid. rewrite Hled1, Hrp, Hrs. reflexivity. }
  unfold cleanup in Hclean. injection Hclean as <-.
  apply Frontend_onReceiveRequest_Ret in Harr as (_ & Harr).
  apply bind_Ret in Harr as ([ps b3] & g5 & Harr & H).
  unfold ret in H. injection H as <- <- <-.
  destruct (proxies_numbered_ids _ Hn2) as (Hids & Hnd).
  destruct (arrivals_ok _ _ (Z.of_nat (length (upstream_servers (backend sim1)))) [] []
                        _ _ _ _ _ _ Harr Hok2 Hids Hnd)
    as (Hbuf & Hid & Hok3 & Hlen3 & _ & Hall3).
  assert (Hlenps : length ps = length (proxies (frontend sim1))).
  { rewrite <- (length_map id ps), Hid. apply length_map. }
  split; [|destruct Hbuf as (_ & -> & ->); auto].
  unfold counters_ok. cbn [backend frontend proxies].
  rewrite Hlenps, Hlen3. split; [assumption|]. split; [|auto].
  unfold proxies_numbered in *. rewrite Hid, Hlenps. exact Hn2.
Qed.

Lemma run_ok {mr : MissingReturn} (n : nat) :
  forall (sim sim' : LBSimulator) (g g' : Globals),
    run mr n sim g = Ret (sim', g') -> sim_ok sim g -> sim_ok sim' g'.
Proof.
  induction n as [|n IH]; intros sim sim' g g'; cbn [run].
  - unfold ret. intros [= <- <-]. auto.
  - intros H Hok. apply bind_Ret in H as (sim1 & g1 & H1 & H).
    eapply IH; [exact H|]. eapply run1TimeUnit_ok; eauto.
Qed.

Lemma queued_new_servers (src sid : Z) (ids : list Z) :
  queued src sid (map UpstreamServer_new ids) = 0.
Proof.
  induction ids as [|i ids IH]; [reflexivity|].
  cbn [map]. rewrite queued_cons, IH. cbn. now destruct (i =? sid).
Qed.

Lemma ProxyServer_new_load_balancer (b : Backend) (name : string) (i : Z) :
  id (ProxyServer_new b name i) = i /\
  (load_balancer (ProxyServer_new b name i) = None \/
   exists pol, load_balancer (ProxyServer_new b name i) = Some (LoadBalancer_new b pol)).
Proof.
  split; [reflexivity|]. unfold ProxyServer_new. cbn [load_balancer].
  destruct (String.eqb name "Round Robin"); [right; eauto|].
  destruct (String.eqb name "Random Select"); [right; eauto|].
  destruct (String.eqb name "Least Request"); [right; eauto|].
  now left.
Qed.

Lemma map_const_replicate {A B : Type} (c : B) (l : list A) :
  map (fun _ => c) l = replicate (length l) c.
Proof. induction l; cbn; congruence. Qed.

Lemma seqZ_to_nat (n : Z) : seqZ 0 (Z.of_nat (Z.to_nat n)) = seqZ 0 n.
Proof. unfold seqZ. now rewrite Nat2Z.id. Qed.

(** A freshly constructed simulator: no request anywhere, all counters 0. *)
Lemma LBSimulator_new_ok (proxy_servers backend_servers : Z) (lb_policy : string)
  (g g' : Globals) (sim : LBSimulator) :
  backend_servers <= INT_MAX ->
  LBSimulator_new proxy_servers backend_servers lb_policy g = Ret (sim, g') ->
  sim_ok sim g'.
Proof.
  intros Hmax H. unfold LBSimulator_new in H.
  apply bind_Ret in H as ([] & g1 & Hc & H).
  unfold cleanup in Hc. injection Hc as <-.
  unfold ret in H. injection H as <- <-.
  split; [|auto]. unfold counters_ok.
  cbn [backend frontend Backend_new Frontend_new upstream_servers proxies].
  split; [|split].
  - intros j s Hs.
    change (map UpstreamServer_new (int_range backend_servers))
      with (UpstreamServer_new <$> seqZ 0 backend_servers) in Hs.
    rewrite list_lookup_fmap in Hs.
    destruct (seqZ 0 backend_servers !! j) as [x|] eqn:Hx; [|discriminate].
    apply lookup_seqZ in Hx as [-> _]. cbn in Hs. injection Hs as <-.
    cbn. split; [lia|]. split; [reflexivity|constructor].
  - unfold proxies_numbered. rewrite map_map, length_map. unfold int_range.
    rewrite length_seqZ, seqZ_to_nat. cbn [ProxyServer_new id]. apply map_id.
  - apply Forall_map. apply Forall_forall. intros i _.
    destruct (ProxyServer_new_load_balancer
                (Backend_new backend_servers) lb_policy i) as (Hid & [Hnone|(pol & Hsome)]);
      unfold proxy_ok; [rewrite Hnone|rewrite Hsome].
    + intros sid. unfold ledger, Backend_new. cbn [upstream_servers].
      now rewrite queued_new_servers.
    + unfold LoadBalancer_new, Backend_num_servers, Backend_new.
      cbn [active_requests upstream_servers].
      rewrite length_map. unfold int_range. rewrite length_seqZ.
      rewrite wrap_int_small by (unfold INT_MIN, INT_MAX in *; lia).
      rewrite seqZ_to_nat, Nat2Z.id.
      rewrite (map_ext _ (fun _ => 0)).
      * rewrite map_const_replicate, length_seqZ. reflexivity.
      * intros j. unfold ledger. now rewrite queued_new_servers.
Qed.

(** *** Summing the ledger *)

Lemma sumZ_map_add {A : Type} (f h : A -> Z) (l : list A) :
  sumZ (map (fun x => f x + h x) l) = sumZ (map f l) + sumZ (map h l).
Proof. induction l as [|x l IH]; cbn; lia. Qed.

Lemma sumZ_map_ext {A : Type} (f h : A -> Z) (l : list A) :
  Forall (fun x => f x = h x) l -> sumZ (map f l) = sumZ (map h l).
Proof. intros H. now rewrite (map_ext_Forall _ _ H). Qed.

Lemma sumZ_indicator_from (a c : Z) (n : nat) :
  forall m : Z,
    sumZ (map (fun j => if a =? j then c else 0) (seqZ m (Z.of_nat n)))
    = if (m <=? a) && (a <? m + Z.of_nat n) then c else 0.
Proof.
  induction n as [|n IH]; intros m.
  - change (Z.of_nat 0) with 0. change (seqZ m 0) with (@nil Z).
    cbn [map sumZ]. rewrite Z.add_0_r.
    destruct (Z.leb_spec m a), (Z.ltb_spec a m); cbn; try reflexivity; lia.
  - rewrite seqZ_cons by lia.
    replace (Z.pred (Z.of_nat (S n))) with (Z.of_nat n) by lia.
    cbn [map sumZ]. rewrite IH.
    destruct (Z.eqb_spec a m), (Z.leb_spec (Z.succ m) a), (Z.leb_spec m a),
      (Z.ltb_spec a (Z.succ m + Z.of_nat n)), (Z.ltb_spec a (m + Z.of_nat (S n)));
      cbn; lia.
Qed.

Lemma sumZ_indicator (a c N : Z) :
  0 <= a < N ->
  sumZ (map (fun j => if a =? j then c else 0) (seqZ 0 N)) = c.
Proof.
  intros H. rewrite <- (Z2Nat.id N) by lia. rewrite sumZ_indicator_from.
  destruct (Z.leb_spec 0 a), (Z.ltb_spec a (0 + Z.of_nat (Z.to_nat N))); cbn; lia.
Qed.

(** All requests of proxy [src], wherever they are queued. *)
Lemma queued_sum (src N : Z) (servers : list UpstreamServer) :
  Forall (fun s => 0 <= server_id s < N) servers ->
  sumZ (map (fun j => queued src j servers) (seqZ 0 N))
  = sumZ (map (fun s => count_src src (request_sources s)) servers).
Proof.
  induction 1 as [|s servers Hs _ IH].
  - cbn. rewrite (map_const_replicate 0). induction (length (seqZ 0 N)); cbn; lia.
  - cbn [map sumZ]. rewrite <- IH.
    rewrite <- (sumZ_indicator (server_id s) (count_src src (request_sources s)) N Hs)
      at 1.
    rewrite <- sumZ_map_add. reflexivity.
Qed.

(** Every queued request comes from exactly one of the proxies. *)
Lemma count_src_sum (P : Z) (l : list Z) :
  Forall (fun x => 0 <= x < P) l ->
  sumZ (map (fun i => count_src i l) (seqZ 0 P)) = Z.of_nat (length l).
Proof.
  induction 1 as [|x l Hx _ IH].
  - cbn. rewrite (map_const_replicate 0). induction (length (seqZ 0 P)); cbn; lia.
  - cbn [count_src length]. rewrite sumZ_map_add, IH, (sumZ_indicator x 1 P Hx). lia.
Qed.

Lemma sumZ_exchange {A B : Type} (F : A -> B -> Z) (la : list A) (lb : list B) :
  sumZ (map (fun a => sumZ (map (F a) lb)) la)
  = sumZ (map (fun b => sumZ (map (fun a => F a b) la)) lb).
Proof.
  induction lb as [|b lb IH].
  - cbn. rewrite (map_const_replicate 0). induction (length la); cbn; lia.
  - cbn [map sumZ]. rewrite sumZ_map_add, IH. reflexivity.
Qed.

Lemma queued_bounds (src sid : Z) (servers : list UpstreamServer) :
  0 <= queued src sid servers
  <= sumZ (map (fun s => Z.of_nat (length (request_sources s))) servers).
Proof.
  induction servers as [|s servers IH]; [cbn; lia|].
  rewrite queued_cons. cbn [map sumZ].
  pose proof (count_src_bounds src (request_sources s)).
  destruct (server_id s =? sid); lia.
Qed.

(** With the counters in step, and as long as the number of requests in
    flight fits in an [int], the two sums agree. *)
Lemma counters_sum (sim : LBSimulator) :
  counters_ok sim ->
  total_active (backend sim) <= INT_MAX ->
  total_active (backend sim) = total_outstanding (frontend sim).
Proof.
  intros (Hok & Hn & Hall) Hmax.
  set (servers := upstream_servers (backend sim)) in *.
  set (ps := proxies (frontend sim)) in *.
  set (N := Z.of_nat (length servers)) in *.
  set (P := Z.of_nat (length ps)) in *.
  assert (Hsrv : Forall (fun s => 0 <= server_id s < N /\
                                  length (request_sources s) = length (service_timers s) /\
                                  Forall (fun src => 0 <= src < P) (request_sources s))
                        servers).
  { apply Forall_lookup. intros j s Hs. destruct (Hok _ _ Hs) as (Hid & Hlen & Hval).
    apply lookup_lt_Some in Hs. unfold N. repeat split; auto; lia. }
  assert (Htot : total_active (backend sim)
                 = sumZ (map (fun s => Z.of_nat (length (request_sources s))) servers)).
  { unfold total_active. fold servers. apply sumZ_map_ext.
    eapply Forall_impl; [exact Hsrv|]. intros s (_ & Hlen & _). cbn. now rewrite Hlen. }
  assert (Hout : Forall (fun p => outstanding p
                   = sumZ (map (fun s => count_src (id p) (request_sources s)) servers)) ps).
  { eapply Forall_impl; [exact Hall|]. intros p Hp. cbn beta.
    rewrite <- (queued_sum (id p) N servers)
      by (eapply Forall_impl; [exact Hsrv|]; intros s Hs; apply Hs).
    unfold proxy_ok in Hp. unfold outstanding.
    destruct (load_balancer p) as [lb|].
    - rewrite Hp. apply sumZ_map_ext. apply Forall_forall. intros j _.
      unfold ledger. cbn [pending]. rewrite Z.add_0_r.
      pose proof (queued_bounds (id p) j servers).
      apply wrap_int_small. unfold INT_MIN. lia.
    - rewrite (map_ext (fun j => queued (id p) j servers) (fun _ => 0)).
      + rewrite (map_const_replicate 0). induction (length (seqZ 0 N)); cbn; lia.
      + intros j. specialize (Hp j). unfold ledger in Hp. cbn [pending] in Hp. lia. }
  unfold total_outstanding. fold ps.
  rewrite (sumZ_map_ext _ _ _ Hout).
  rewrite <- (map_map id (fun i => sumZ (map (fun s => count_src i (request_sources s)) servers))).
  unfold proxies_numbered in Hn. fold ps in Hn. rewrite Hn. fold P.
  rewrite (sumZ_exchange (fun i s => count_src i (request_sources s))).
  rewrite Htot. apply sumZ_map_ext.
  eapply Forall_impl; [exact Hsrv|]. intros s (_ & _ & Hval). cbn beta.
  symmetry. now apply count_src_sum.
Qed.

Lemma run1TimeUnit_delivered {mr : MissingReturn} (sim : LBSimulator) (g : Globals) :
  LBSimulator_run1TimeUnit mr sim g
  = (let* sim1 := delivered sim in
     cleanup ;;;
     let* (frontend2, backend2) :=
       Frontend_onReceiveRequest mr (frontend sim1) (backend sim1) in
     ret {| backend := backend2; frontend := frontend2;
            all_latency := all_latency sim1;
            request_cnt := request_cnt sim1;
            total_latency := total_latency sim1;
            timer := timer sim1; output := output sim1 |}) g.
Proof.
  unfold LBSimulator_run1TimeUnit, delivered, bind.
  destruct (Backend_processRequest (backend sim) g) as [[b1 g1]| |]; reflexivity.
Qed.

Lemma delivered_ok (sim sim1 : LBSimulator) (g g1 : Globals) :
  delivered sim g = Ret (sim1, g1) -> sim_ok sim g -> counters_ok sim1.
Proof.
  unfold delivered. intros H ((Hok & Hn & Hall) & Hrp & Hrs).
  apply bind_Ret in H as (b1 & g0 & Hproc & Hcol).
  destruct (Backend_processRequest_ok _ _ _ _ _ Hproc ltac:(congruence) Hok)
    as (_ & _ & Hlen1 & Hok1 & Hled1).
  apply collectStats_ok in Hcol as (Hc & _); [exact Hc|exact Hok1|exact Hn|].
  cbn [backend frontend]. rewrite Hlen1.
  eapply Forall_impl; [exact Hall|]. intros p. apply proxy_ok_ext.
  intros sid. rewrite Hled1, Hrp, Hrs. reflexivity.
Qed.

(** C8: take any execution: a simulator constructed with any numbers of
    proxies and servers and any policy name, run for any number of time
    units with any results of [rand()].  In the state between two time
    units the sum of the queue lengths of all servers equals the sum of all
    proxies' outstanding-request counters; the same holds inside the next
    time unit once the completions have been delivered, before the
    arrivals.  The counters are [int]s, so this is stated for as long as
    the number of requests in flight fits in an [int]. *)
Theorem outstanding_counters_match_queue_lengths {mr : MissingReturn}
  (proxy_servers backend_servers : Z) (lb_policy : string)
  (ticks : nat) (tape : list N) (sim : LBSimulator) (g : Globals) :
  backend_servers <= INT_MAX ->
  simulator_after mr proxy_servers backend_servers lb_policy ticks tape = Ret (sim, g) ->
  (total_active (backend sim) <= INT_MAX ->
   total_active (backend sim) = total_outstanding (frontend sim)) /\
  (forall sim1 g1,
     delivered sim g = Ret (sim1, g1) ->
     total_active (backend sim1) <= INT_MAX ->
     total_active (backend sim1) = total_outstanding (frontend sim1)).
Proof.
  intros Hmax Hrun. unfold simulator_after in Hrun.
  apply bind_Ret in Hrun as (sim0 & g0 & Hnew & Hrun).
  apply (LBSimulator_new_ok _ _ _ _ _ _ Hmax) in Hnew.
  pose proof (run_ok _ _ _ _ _ Hrun Hnew) as Hok.
  split.
  - apply counters_sum. apply Hok.
  - intros sim1 g1 Hd. apply counters_sum. eapply delivered_ok; eauto.
Qed.

Lemma outstanding_counters_match_queue_lengths_witness :
  exists sim g,
    simulator_after EndReturns 3 4 "Least Request" 150 example_tape = Ret (sim, g) /\
    total_active (backend sim) = 56 /\
    total_outstanding (frontend sim) = 56.
Proof.
  assert (Hex : exists sim g,
             simulator_after EndReturns 3 4 "Least Request" 150 example_tape = Ret (sim, g) /\
             total_active (backend sim) = 56).
  { eexists. eexists. split; vm_compute; reflexivity. }
  destruct Hex as (sim & g & Hrun & Hact).
  exists sim, g. split; [exact Hrun|]. split; [exact Hact|].
  assert (Hmax : 4 <= INT_MAX) by (unfold INT_MAX; lia).
  destruct (outstanding_counters_match_queue_lengths
              3 4 "Least Request" 150 example_tape sim g Hmax Hrun) as [Heq _].
  rewrite <- Heq; [exact Hact|].
  rewrite Hact. unfold INT_MAX. lia.
Defined.

(** ** The arrival phase *)

Lemma arrivals_app (n : Z) (pre : list ProxyServer) :
  forall (post : list ProxyServer) (b : Backend) (g : Globals),
    arrivals n (pre ++ post) b g
    = (let* (pre', b1) := arrivals n pre b in
       let* (post', b2) := arrivals n post b1 in
       ret (pre' ++ post', b2)) g.
Proof.
  induction pre as [|p pre IH]; intros post b g;
    cbn [app arrivals]; unfold bind, ret in *; cbn [obind].
  - destruct (arrivals n post b g) as [[[post' b2] g2]| |]; reflexivity.
  - destruct (arrival n p b g) as [[[p1 b1] g1]| |]; cbn [obind]; try reflexivity.
    rewrite IH.
    destruct (arrivals n pre b1 g1) as [[[pre' b2] g2]| |]; cbn [obind];
      try reflexivity.
    destruct (arrivals n post b2 g2) as [[[post' b3] g3]| |]; reflexivity.
Qed.

Lemma rand_nonneg (g g' : Globals) (r : Z) : rand g = Ret (r, g') -> 0 <= r.
Proof.
  unfold rand. destruct (rand_tape g); [discriminate|].
  intros [= <- _]. lia.
Qed.

Lemma onSendRequest_total_active (p p' : ProxyServer) (b b' : Backend) (g g' : Globals) :
  ProxyServer_onSendRequest p b g = Ret ((p', b'), g') ->
  total_active b' = total_active b + 1.
Proof.
  intros H.
  destruct (onSendRequest_effect _ _ _ _ _ _ H)
    as (lb & lb' & j & _ & _ & _ & Hj & Hlen & _ & Hb & _).
  destruct (lookup_lt_is_Some_2 _ _ Hlen) as [s Hs].
  unfold total_active. rewrite Hb.
  rewrite <- (take_drop_middle _ _ _ Hs) at 2.
  rewrite <- (take_drop_middle _ _ _ Hs) at 1.
  assert (Hl : length (take (Z.to_nat j) (upstream_servers b)) = Z.to_nat j)
    by (rewrite length_take; lia).
  rewrite <- Hl at 1. rewrite <- (Nat.add_0_r (length _)) at 1.
  rewrite alter_app_r. cbn [alter list_alter].
  rewrite !map_app, !sumZ_app.
  cbn [map sumZ UpstreamServer_onReceiveRequest service_timers].
  rewrite length_app. cbn [length]. lia.
Qed.

(** X16: the loop of [Frontend::onReceiveRequest] gives every proxy one
    iteration, in order (the call splits at any proxy into the iterations
    before it, its own one, those after it, and the closing brace).  One
    iteration makes one call of [rand()]; the draw [rand() % proxies.size()]
    lies in [0, proxies.size()); the proxy calls [onSendRequest] once when
    the draw is 0 and not at all otherwise, so the queues grow by one
    request in the first case and by none in the second. *)
Theorem arrival_loop_one_trial_per_proxy
  (mr : MissingReturn) (f : Frontend) (b : Backend) (g : Globals)
  (pre : list ProxyServer) (p : ProxyServer) (post : list ProxyServer) :
  proxies f = pre ++ p :: post ->
  Frontend_onReceiveRequest mr f b g
  = (let* (pre', b1) := arrivals (Z.of_nat (length (proxies f))) pre b in
     let* (p', b2) := arrival (Z.of_nat (length (proxies f))) p b1 in
     let* (post', b3) := arrivals (Z.of_nat (length (proxies f))) post b2 in
     flow_off_end mr ;;;
     ret ({| proxies := pre' ++ p' :: post' |}, b3)) g /\
  (forall (b1 : Backend) (g1 g2 : Globals) (r : Z),
     rand g1 = Ret (r, g2) ->
     0 <= r mod Z.of_nat (length (proxies f)) < Z.of_nat (length (proxies f)) /\
     (r mod Z.of_nat (length (proxies f)) = 0 ->
      arrival (Z.of_nat (length (proxies f))) p b1 g1
      = ProxyServer_onSendRequest p b1 g2) /\
     (r mod Z.of_nat (length (proxies f)) <> 0 ->
      arrival (Z.of_nat (length (proxies f))) p b1 g1 = Ret ((p, b1), g2)) /\
     (forall p' b2 g3,
        arrival (Z.of_nat (length (proxies f))) p b1 g1 = Ret ((p', b2), g3) ->
        total_active b2
        = total_active b1
          + (if r mod Z.of_nat (length (proxies f)) =? 0 then 1 else 0))).
Proof.
  intros Hps.
  assert (HP : 0 < Z.of_nat (length (proxies f)))
    by (rewrite Hps, length_app; cbn [length]; lia).
  set (P := Z.of_nat (length (proxies f))) in *.
  split.
  - unfold Frontend_onReceiveRequest. fold P.
    rewrite Hps. unfold bind at 1. rewrite arrivals_app.
    cbn [arrivals]. unfold bind, ret. cbn [obind].
    destruct (arrivals P pre b g) as [[[pre' b1] g1]| |]; cbn [obind]; try reflexivity.
    destruct (arrival P p b1 g1) as [[[p' b2] g2]| |]; cbn [obind]; try reflexivity.
    destruct (arrivals P post b2 g2) as [[[post' b3] g3]| |]; reflexivity.
  - intros b1 g1 g2 r Hr. pose proof (rand_nonneg _ _ _ Hr) as Hr0.
    assert (Harr : arrival P p b1 g1
                   = if r mod P =? 0 then ProxyServer_onSendRequest p b1 g2
                     else Ret ((p, b1), g2)).
    { unfold arrival. unfold bind at 1. rewrite Hr. cbn [obind].
      unfold bind at 1. unfold lift. rewrite int_rem_nonneg by lia. cbn [obind].
      destruct (r mod P =? 0); reflexivity. }
    split; [apply Z.mod_pos_bound; lia|].
    rewrite Harr. destruct (Z.eqb_spec (r mod P) 0) as [E|E].
    + split; [reflexivity|]. split; [congruence|].
      intros p' b2 g3 Hsend. now apply onSendRequest_total_active in Hsend.
    + split; [congruence|]. split; [reflexivity|].
      intros p' b2 g3 [= <- <- <-]. lia.
Qed.

Lemma arrival_loop_one_trial_per_proxy_witness :
  exists f' b' g',
    Frontend_onReceiveRequest EndReturns
      (Frontend_new 3 (Backend_new 4) "Round Robin") (Backend_new 4)
      (initial_globals [7; 3; 5]%N)
    = Ret ((f', b'), g') /\
    total_active b' = 1 /\
    map outstanding (proxies f') = [0; 1; 0].
Proof.
  destruct (arrival_loop_one_trial_per_proxy EndReturns
              (Frontend_new 3 (Backend_new 4) "Round Robin") (Backend_new 4)
              (initial_globals [7; 3; 5]%N)
              [ProxyServer_new (Backend_new 4) "Round Robin" 0]
              (ProxyServer_new (Backend_new 4) "Round Robin" 1)
              [ProxyServer_new (Backend_new 4) "Round Robin" 2]
              eq_refl) as [Hrun _].
  rewrite Hrun. vm_compute. eexists. eexists. eexists.
  split; [reflexivity|]. split; reflexivity.
Defined.

Lemma run1TimeUnit_end_is_undefined (sim : LBSimulator) (g : Globals)
  (r : LBSimulator * Globals) :
  LBSimulator_run1TimeUnit EndIsUndefined sim g <> Ret r.
Proof.
  intros H. destruct r as [sim' g'].
  unfold LBSimulator_run1TimeUnit in H.
  apply bind_Ret in H as (b1 & g1 & _ & H).
  apply bind_Ret in H as (sim1 & g2 & _ & H).
  apply bind_Ret in H as ([] & g3 & _ & H).
  apply bind_Ret in H as ([f2 b2] & g4 & Harr & _).
  apply Frontend_onReceiveRequest_Ret in Harr as (Hmr & _). discriminate.
Qed.

(** C9 (the code fails the claim): the loop of the arrival phase does what
    the claim says: with three proxies and the draws 7, 3 and 5 it makes
    three trials, the second proxy (3 mod 3 = 0) sends one request and the
    other two send none.  But the function is declared [int] and control
    then reaches its closing brace without a [return]: the call is
    undefined here, it returns for no frontend, backend and draws, and
    neither does a time unit of a simulation.  Nothing of what the claim
    promises of a tick is guaranteed. *)
Theorem arrival_phase_flows_off_the_end :
  (exists ps b' g',
     arrivals 3 (proxies (Frontend_new 3 (Backend_new 4) "Round Robin"))
              (Backend_new 4) (initial_globals [7; 3; 5]%N)
     = Ret ((ps, b'), g') /\
     rand_tape g' = [] /\
     total_active b' = 1 /\
     map outstanding ps = [0; 1; 0]) /\
  Frontend_onReceiveRequest EndIsUndefined
    (Frontend_new 3 (Backend_new 4) "Round Robin") (Backend_new 4)
    (initial_globals [7; 3; 5]%N) = Undefined /\
  simulator_after EndIsUndefined 3 4 "Round Robin" 1 [7; 3; 5]%N = Undefined /\
  (forall (f : Frontend) (b : Backend) (g : Globals)
          (r : Frontend * Backend * Globals),
     Frontend_onReceiveRequest EndIsUndefined f b g <> Ret r) /\
  (forall (sim : LBSimulator) (g : Globals) (r : LBSimulator * Globals),
     LBSimulator_run1TimeUnit EndIsUndefined sim g <> Ret r).
Proof.
  split; [|split; [|split; [|split]]].
  - eexists. eexists. eexists.
    split; [vm_compute; reflexivity|].
    split; [reflexivity|]. split; reflexivity.
  - vm_compute. reflexivity.
  - vm_compute. reflexivity.
  - intros f b g r H.
    apply Frontend_onReceiveRequest_Ret in H as (Hmr & _). discriminate.
  - exact run1TimeUnit_end_is_undefined.
Qed.

(** * Further properties of the code *)

(** ** An upstream server on its own *)

Lemma drain_parallel (sid : Z) (timers : list Z) :
  forall (sources lats : list Z) (g : Globals),
    length sources = length timers ->
    length lats = length timers ->
    exists k,
      (k <= length timers)%nat /\
      Forall (fun t => t = 0) (take k timers) /\
      match drop k timers with [] => True | t :: _ => t <> 0 end /\
      drain sid timers sources lats g
      = Ret ((drop k timers, drop k sources, drop k lats),
             {| rand_tape := rand_tape g;
                response_latency := response_latency g ++ take k lats;
                request_proxy := request_proxy g ++ take k sources;
                response_server := response_server g ++ replicate k sid |}).
Proof.
  induction timers as [|t timers IH]; intros sources lats g Hs Hl.
  - exists O. destruct sources, lats; try discriminate.
    cbn. rewrite !app_nil_r. destruct g. repeat split; auto.
  - destruct sources as [|src sources]; [discriminate|].
    destruct lats as [|lat lats]; [discriminate|].
    cbn [drain]. destruct (Z.eqb_spec t 0) as [->|Hne].
    + destruct (IH sources lats (push_response lat src sid g))
        as (k & Hk & Hz & Hfront & Hrun); [cbn in *; lia..|].
      exists (S k). cbn [take drop length]. rewrite Hrun.
      cbn [push_response rand_tape response_latency request_proxy response_server
           replicate].
      rewrite <- !app_assoc. cbn [app].
      split; [lia|]. split; [now constructor|]. split; [assumption|reflexivity].
    + exists O. cbn [take drop replicate]. rewrite !app_nil_r. destruct g.
      split; [lia|]. split; [constructor|]. split; [assumption|reflexivity].
Qed.

Lemma timers_window_lookup (timers : list Z) (i : nat) :
  (map int_decr (take (Z.to_nat concurrency) timers)
   ++ drop (Z.to_nat concurrency) timers) !! i
  = if decide (i < Z.to_nat concurrency)%nat
    then int_decr <$> timers !! i else timers !! i.
Proof.
  set (C := Z.to_nat concurrency).
  change (map int_decr (take C timers)) with (int_decr <$> take C timers).
  destruct (decide (i < C)%nat) as [Hi|Hi].
  - destruct (decide (i < length timers)%nat) as [Hl|Hl].
    + rewrite lookup_app_l by (rewrite length_fmap, length_take; lia).
      now rewrite list_lookup_fmap, lookup_take_lt.
    + rewrite (lookup_ge_None_2 timers i) by lia.
      apply lookup_ge_None_2.
      rewrite length_app, length_fmap, length_take, length_drop. lia.
  - destruct (decide (C <= length timers)%nat) as [Hl|Hl].
    + rewrite lookup_app_r by (rewrite length_fmap, length_take; lia).
      rewrite length_fmap, length_take, lookup_drop. f_equal. lia.
    + rewrite (lookup_ge_None_2 timers i) by lia.
      apply lookup_ge_None_2.
      rewrite length_app, length_fmap, length_take, length_drop. lia.
Qed.

(** [processRequest] on parallel deques always returns; it pops the same
    number [k] of entries from the front of each deque. *)
Lemma processRequest_parallel (s : UpstreamServer) (g : Globals) :
  parallel_deques s ->
  exists k s',
    (k <= length (service_timers s))%nat /\
    UpstreamServer_processRequest s g
    = Ret (s', {| rand_tape := rand_tape g;
                  response_latency :=
                    response_latency g ++ take k (map int_incr (latencies s));
                  request_proxy := request_proxy g ++ take k (request_sources s);
                  response_server :=
                    response_server g ++ replicate k (server_id s) |}) /\
    service_timers s'
    = drop k (map int_decr (take (Z.to_nat concurrency) (service_timers s))
              ++ drop (Z.to_nat concurrency) (service_timers s)) /\
    request_sources s' = drop k (request_sources s) /\
    latencies s' = drop k (map int_incr (latencies s)) /\
    server_id s' = server_id s /\
    service_time s' = service_time s /\
    Forall (fun t => t = 0)
           (take k (map int_decr (take (Z.to_nat concurrency) (service_timers s))
                    ++ drop (Z.to_nat concurrency) (service_timers s))) /\
    match service_timers s' with [] => True | t :: _ => t <> 0 end /\
    parallel_deques s'.
Proof.
  intros (Hs & Hl).
  unfold UpstreamServer_processRequest, bind.
  pose proof (serve_window_length (service_timers s)) as Hw.
  destruct (drain_parallel (server_id s)
              (serve_window (Z.to_nat concurrency) 0 (service_timers s))
              (request_sources s) (map int_incr (latencies s)) g)
    as (k & Hk & Hz & Hfront & Hrun);
    [rewrite Hw; assumption | rewrite length_map, Hw; assumption |].
  rewrite Hrun. cbn [obind]. unfold ret.
  rewrite serve_window_spec in Hz, Hfront, Hk |- *.
  eexists k, _. split; [rewrite <- Hw, serve_window_spec; exact Hk|].
  split; [reflexivity|]. cbn [service_timers request_sources latencies server_id
                              service_time].
  repeat (split; [reflexivity || assumption|]).
  unfold parallel_deques.
  cbn [service_timers request_sources latencies].
  rewrite !length_drop, length_map, <- serve_window_spec, Hw. lia.
Qed.

Lemma enqueue_timers_ok (source : Z) (s : UpstreamServer) :
  1 <= service_time s ->
  timers_ok s ->
  timers_ok (UpstreamServer_onReceiveRequest source s).
Proof.
  intros Hst (Hrange & Hsorted & Hout). unfold timers_ok.
  cbn [UpstreamServer_onReceiveRequest service_timers service_time].
  split; [|split].
  - apply Forall_app. split; [assumption|]. constructor; [lia|constructor].
  - intros i j ti tj Hij Hi Hj.
    rewrite Forall_lookup in Hrange.
    destruct (decide (j < length (service_timers s))%nat) as [Hjl|Hjl].
    + rewrite lookup_app_l in Hi, Hj by lia. eauto.
    + rewrite lookup_app_r in Hj by lia.
      assert (tj = service_time s).
      { destruct (j - length (service_timers s))%nat as [|m]; cbn in Hj;
          [congruence|discriminate]. }
      subst tj.
      destruct (decide (i < length (service_timers s))%nat) as [Hil|Hil].
      * rewrite lookup_app_l in Hi by lia. apply (Hrange _ _ Hi).
      * rewrite lookup_app_r in Hi by lia.
        destruct (i - length (service_timers s))%nat as [|m]; cbn in Hi;
          [injection Hi as <-; lia|discriminate].
  - rewrite drop_app. apply Forall_app. split; [assumption|].
    apply Forall_drop. constructor; [reflexivity|constructor].
Qed.

Lemma processRequest_timers_ok (s s' : UpstreamServer) (g g' : Globals) :
  UpstreamServer_processRequest s g = Ret (s', g') ->
  parallel_deques s ->
  service_time s <= INT_MAX ->
  timers_ok s ->
  timers_ok s'.
Proof.
  intros Hrun Hpar Hmax (Hrange & Hsorted & Hout).
  destruct (processRequest_parallel s g Hpar)
    as (k & s1 & Hk & Hrun1 & Ht & _ & _ & _ & Hst & Hz & Hfront & _).
  rewrite Hrun in Hrun1. injection Hrun1 as -> _. clear Hrun.
  set (W := map int_decr (take (Z.to_nat concurrency) (service_timers s))
            ++ drop (Z.to_nat concurrency) (service_timers s)) in *.
  rewrite Forall_lookup in Hrange.
  assert (HW : forall i w, W !! i = Some w ->
             exists t, service_timers s !! i = Some t /\
                       w = (if decide (i < Z.to_nat concurrency)%nat
                            then t - 1 else t)).
  { intros i w Hw. unfold W in Hw. rewrite timers_window_lookup in Hw.
    destruct (decide (i < Z.to_nat concurrency)%nat).
    - destruct (service_timers s !! i) as [t|] eqn:Hti; [|discriminate].
      cbn in Hw. injection Hw as <-. exists t. split; [reflexivity|].
      apply int_decr_small. specialize (Hrange _ _ Hti).
      unfold INT_MIN, INT_MAX in *. cbn in Hrange. lia.
    - eauto. }
  assert (HWsorted : forall i j wi wj, (i <= j)%nat ->
             W !! i = Some wi -> W !! j = Some wj -> wi <= wj).
  { intros i j wi wj Hij Hi Hj.
    destruct (HW _ _ Hi) as (ti & Hti & ->). destruct (HW _ _ Hj) as (tj & Htj & ->).
    pose proof (Hsorted _ _ _ _ Hij Hti Htj).
    destruct (decide (i < Z.to_nat concurrency)%nat),
             (decide (j < Z.to_nat concurrency)%nat); lia. }
  assert (Hfront1 : forall w, W !! k = Some w -> 1 <= w).
  { intros w Hw. rewrite Ht in Hfront.
    destruct (drop k W) as [|w0 rest] eqn:Hd.
    - assert (Hn : drop k W !! O = None) by now rewrite Hd.
      rewrite lookup_drop, Nat.add_0_r, Hw in Hn. discriminate.
    - assert (Hn : drop k W !! O = Some w0) by now rewrite Hd.
      rewrite lookup_drop, Nat.add_0_r, Hw in Hn. injection Hn as ->.
      destruct (HW _ _ Hw) as (t & Hti & Hwt). specialize (Hrange _ _ Hti).
      cbn in Hrange. destruct (decide (k < Z.to_nat concurrency)%nat); lia. }
  unfold timers_ok. rewrite Ht, Hst. split; [|split].
  - apply Forall_lookup. intros i w Hw. rewrite lookup_drop in Hw.
    destruct (lookup_lt_is_Some_2 W k) as [w0 Hw0];
      [apply lookup_lt_Some in Hw; lia|].
    pose proof (Hfront1 _ Hw0).
    pose proof (HWsorted k (k + i)%nat _ _ ltac:(lia) Hw0 Hw).
    destruct (HW _ _ Hw) as (t & Hti & Hwt). specialize (Hrange _ _ Hti).
    cbn in Hrange. destruct (decide (k + i < Z.to_nat concurrency)%nat); lia.
  - intros i j wi wj Hij Hi Hj. rewrite lookup_drop in Hi, Hj.
    eapply (HWsorted (k + i)%nat (k + j)%nat); eauto. lia.
  - apply Forall_lookup. intros i w Hw. rewrite !lookup_drop in Hw.
    destruct (HW _ _ Hw) as (t & Hti & ->).
    destruct (decide (k + (Z.to_nat concurrency + i) < Z.to_nat concurrency)%nat);
      [lia|].
    rewrite Forall_lookup in Hout.
    apply (Hout (k + i)%nat). rewrite lookup_drop, <- Hti. f_equal. lia.
Qed.

(** All that holds of a server after any sequence of calls. *)
Lemma UpstreamServer_calls_inv (calls : list server_call) :
  forall (s : UpstreamServer) (g : Globals),
    parallel_deques s ->
    timers_ok s ->
    1 <= service_time s <= INT_MAX ->
    exists s' g' popped,
      UpstreamServer_calls calls s g = Ret (s', g') /\
      parallel_deques s' /\
      timers_ok s' /\
      server_id s' = server_id s /\
      service_time s' = service_time s /\
      popped ++ request_sources s' = request_sources s ++ enqueued_sources calls /\
      request_proxy g' = request_proxy g ++ popped /\
      response_server g'
      = response_server g ++ replicate (length popped) (server_id s) /\
      length (response_latency g')
      = (length (response_latency g) + length popped)%nat /\
      rand_tape g' = rand_tape g.
Proof.
  induction calls as [|c calls IH]; intros s g Hpar Hok Hst.
  - exists s, g, []. cbn. rewrite !app_nil_r. unfold ret.
    repeat split; try assumption; try apply Hpar; try apply Hok; lia.
  - destruct c as [source|]; cbn [UpstreamServer_calls enqueued_sources].
    + destruct (IH (UpstreamServer_onReceiveRequest source s) g)
        as (s' & g' & popped & Hrun & Hpar' & Hok' & Hid & Hst' & Hfifo & Hrest).
      * destruct Hpar as (A & B). unfold parallel_deques. cbn.
        rewrite !length_app. cbn. lia.
      * apply enqueue_timers_ok; [lia|assumption].
      * cbn. lia.
      * exists s', g', popped. cbn in Hid, Hst', Hfifo.
        rewrite <- app_assoc in Hfifo. cbn in Hfifo. tauto.
    + destruct (processRequest_parallel s g Hpar)
        as (k & s1 & Hk & Hrun1 & Ht & Hsrc & Hlat & Hid1 & Hst1 & _ & _ & Hpar1).
      pose proof (processRequest_timers_ok _ _ _ _ Hrun1 Hpar ltac:(lia) Hok) as Hok1.
      match type of Hrun1 with _ = Ret (_, ?g1) => set (g1' := g1) in * end.
      destruct (IH s1 g1' Hpar1 Hok1 ltac:(lia))
        as (s' & g' & popped & Hrun & Hpar' & Hok' & Hid & Hst' & Hfifo & Hp & Hr & Hl & Htape).
      unfold g1' in Hp, Hr, Hl, Htape.
      cbn [request_proxy response_server response_latency rand_tape] in Hp, Hr, Hl, Htape.
      exists s', g', (take k (request_sources s) ++ popped).
      unfold bind. rewrite Hrun1. cbn [obind]. rewrite Hrun.
      assert (Hklen : length (take k (request_sources s)) = k).
      { rewrite length_take. destruct Hpar as (A & _). lia. }
      assert (Hkl : length (take k (map int_incr (latencies s))) = k).
      { rewrite length_take, length_map. destruct Hpar as (_ & B). lia. }
      repeat split; try assumption; try apply Hpar'; try apply Hok'; try congruence.
      * rewrite <- app_assoc, Hfifo, Hsrc, app_assoc, take_drop. reflexivity.
      * rewrite Hp. now rewrite app_assoc.
      * rewrite Hr, Hid1, length_app, Hklen, replicate_add, app_assoc. reflexivity.
      * rewrite Hl, !length_app, Hkl, Hklen. lia.
Qed.

Lemma UpstreamServer_new_inv (sid : Z) :
  parallel_deques (UpstreamServer_new sid) /\
  timers_ok (UpstreamServer_new sid) /\
  1 <= service_time (UpstreamServer_new sid) <= INT_MAX.
Proof.
  split; [split; reflexivity|]. split.
  - unfold timers_ok. cbn. split; [constructor|]. split; [|constructor].
    intros i j ti tj _ Hi. discriminate.
  - cbn. unfold INT_MAX. lia.
Qed.

(** X1: an upstream server is a FIFO queue that loses and invents nothing.
    Whatever calls are made on a fresh server, every call returns, and the
    origins of the completions emitted so far followed by the origins still
    queued are exactly the origins handed to [onReceiveRequest], in the
    order of the calls.  Every completion carries this server's id and one
    latency, and the random source is not touched. *)
Theorem UpstreamServer_is_fifo (sid : Z) (calls : list server_call) (g : Globals) :
  exists s' g' popped,
    UpstreamServer_calls calls (UpstreamServer_new sid) g = Ret (s', g') /\
    request_proxy g' = request_proxy g ++ popped /\
    popped ++ request_sources s' = enqueued_sources calls /\
    response_server g' = response_server g ++ replicate (length popped) sid /\
    length (response_latency g') = (length (response_latency g) + length popped)%nat /\
    (length popped + length (service_timers s'))%nat = length (enqueued_sources calls) /\
    rand_tape g' = rand_tape g.
Proof.
  destruct (UpstreamServer_new_inv sid) as (Hpar & Hok & Hst).
  destruct (UpstreamServer_calls_inv calls _ g Hpar Hok Hst)
    as (s' & g' & popped & Hrun & Hpar' & _ & _ & _ & Hfifo & Hp & Hr & Hl & Ht).
  exists s', g', popped. cbn in Hfifo, Hr.
  repeat split; try assumption.
  rewrite <- Hfifo, length_app. destruct Hpar' as (A & _). lia.
Qed.

(** X2: between two calls the service timers of a server, whatever calls
    were made on it since its construction, all lie between 1 and the
    service time 100, never decrease from the front of the queue to the
    back, and equal 100 behind the first [concurrency] positions: no queued
    request has run out of service without being popped, and none has been
    served outside the window. *)
Theorem UpstreamServer_timers_invariant (sid : Z) (calls : list server_call) (g : Globals) :
  exists s' g',
    UpstreamServer_calls calls (UpstreamServer_new sid) g = Ret (s', g') /\
    length (request_sources s') = length (service_timers s') /\
    length (latencies s') = length (service_timers s') /\
    Forall (fun t => 1 <= t <= 100) (service_timers s') /\
    (forall (i j : nat) (ti tj : Z),
       (i <= j)%nat ->
       service_timers s' !! i = Some ti ->
       service_timers s' !! j = Some tj ->
       ti <= tj) /\
    Forall (fun t => t = 100) (drop (Z.to_nat concurrency) (service_timers s')).
Proof.
  destruct (UpstreamServer_new_inv sid) as (Hpar & Hok & Hst).
  destruct (UpstreamServer_calls_inv calls _ g Hpar Hok Hst)
    as (s' & g' & popped & Hrun & (A & B) & (Hrange & Hsorted & Hout) & _ & Hst' & _).
  cbn in Hst'. rewrite Hst' in Hrange, Hout.
  exists s', g'. repeat split; assumption.
Qed.

(** ** The load balancers *)

Lemma rand_Ret (g g' : Globals) (r : Z) :
  rand g = Ret (r, g') ->
  exists x, rand_tape g = x :: rand_tape g' /\ r = Z.of_N x /\ same_buffers g g'.
Proof.
  unfold rand. destruct (rand_tape g) as [|x tape]; [discriminate|].
  intros [= <- <-]. exists x. repeat split.
Qed.

Lemma with_tape_Ret {A : Type} (f : list N -> outcome (A * list N))
  (g g' : Globals) (a : A) :
  with_tape f g = Ret (a, g') ->
  f (rand_tape g) = Ret (a, rand_tape g') /\ same_buffers g g'.
Proof.
  unfold with_tape. destruct (f (rand_tape g)) as [[a' t]| |]; try discriminate.
  cbn. intros [= <- <-]. repeat split.
Qed.

Lemma int_rem_Ret_pos (a n r : Z) :
  0 <= a -> 0 < n -> int_rem a n = Ret r -> r = a mod n /\ 0 <= r < n.
Proof.
  intros Ha Hn. rewrite int_rem_nonneg by assumption. intros [= <-].
  split; [reflexivity|]. now apply Z.mod_pos_bound.
Qed.

(** What a call of [selectUpstreamServer] that returns has done. *)
Lemma selectUpstreamServer_Ret
  (lb lb' : LoadBalancer) (n s : Z) (g g' : Globals) :
  0 < n ->
  (forall cur, policy lb = RoundRobin cur -> 0 <= cur < INT_MAX) ->
  selectUpstreamServer lb n g = Ret ((s, lb'), g') ->
  0 <= s < n /\
  active_requests lb' = active_requests lb /\
  same_buffers g g' /\
  match policy lb with
  | RoundRobin cur =>
      policy lb' = RoundRobin s /\ s = (cur + 1) mod n /\ g' = g
  | RandomSelect =>
      lb' = lb /\ exists r, rand_tape g = r :: rand_tape g' /\ s = Z.of_N r mod n
  | LeastRequests =>
      lb' = lb /\
      exists r1 skipped r2,
        rand_tape g = r1 :: skipped ++ r2 :: rand_tape g' /\
        (s = Z.of_N r1 mod n \/ s = Z.of_N r2 mod n)
  end.
Proof.
  intros Hn Hcur H. unfold selectUpstreamServer in H.
  destruct (policy lb) as [cur| |] eqn:Hp.
  - specialize (Hcur cur eq_refl).
    apply bind_Ret in H as (c & g1 & H1 & H2).
    apply lift_Ret in H1 as (H1 & ->). unfold ret in H2. injection H2 as <- <- <-.
    unfold RoundRobin_selectUpstreamServer in H1.
    rewrite int_incr_small in H1 by (unfold INT_MIN; lia).
    apply int_rem_Ret_pos in H1 as (-> & Hr); [|lia|lia].
    split; [assumption|]. split; [reflexivity|].
    split; [apply same_buffers_refl|]. repeat split.
  - apply bind_Ret in H as (s0 & g1 & H1 & H2).
    unfold ret in H2. injection H2 as <- <- <-.
    unfold RandomSelect_selectUpstreamServer in H1.
    apply bind_Ret in H1 as (r & g2 & H1 & H3).
    apply lift_Ret in H3 as (H3 & ->).
    apply rand_Ret in H1 as (x & Ht & -> & Hb).
    apply int_rem_Ret_pos in H3 as (-> & Hr); [|lia|lia].
    split; [assumption|]. split; [reflexivity|]. split; [assumption|].
    split; [reflexivity|]. eauto.
  - apply bind_Ret in H as (s0 & g1 & H1 & H2).
    unfold ret in H2. injection H2 as <- <- <-.
    unfold LeastRequests_selectUpstreamServer in H1.
    apply bind_Ret in H1 as (r & g2 & H1 & H3).
    apply bind_Ret in H3 as (s1 & g3 & H3 & H4).
    apply bind_Ret in H4 as (s2 & g4 & H4 & H5).
    apply bind_Ret in H5 as (a1 & g5 & H5 & H6).
    apply bind_Ret in H6 as (a2 & g6 & H6 & H7).
    apply lift_Ret in H3 as (H3 & ->). apply lift_Ret in H5 as (_ & ->).
    apply lift_Ret in H6 as (_ & ->). unfold ret in H7. injection H7 as <- <-.
    apply rand_Ret in H1 as (x & Ht & -> & Hb1).
    apply int_rem_Ret_pos in H3 as (-> & Hr1); [|lia|lia].
    apply with_tape_Ret in H4 as (H4 & Hb2).
    apply redraw_returns in H4 as (skipped & r2 & Htape & _ & -> & _); [|assumption].
    pose proof (Z.mod_pos_bound (Z.of_N r2) n Hn) as Hr2.
    split; [destruct (a1 <? a2); lia|].
    split; [reflexivity|].
    split; [eapply same_buffers_trans; eauto|].
    split; [reflexivity|].
    exists x, skipped, r2. split; [rewrite Ht, Htape; reflexivity|].
    destruct (a1 <? a2); auto.
Qed.

(** X3: whatever the policy, an index that [selectUpstreamServer] returns
    for a positive number of servers is a valid one, and the call leaves
    the counters and the three buffers alone.  Round Robin moves its cursor
    to the index returned and uses no random number; Random Select uses
    exactly one and returns its remainder; Least Request uses at least two
    and keeps no state. *)
Theorem selectUpstreamServer_in_range
  (lb lb' : LoadBalancer) (n s : Z) (g g' : Globals) :
  0 < n ->
  (forall cur, policy lb = RoundRobin cur -> 0 <= cur < INT_MAX) ->
  selectUpstreamServer lb n g = Ret ((s, lb'), g') ->
  0 <= s < n /\
  active_requests lb' = active_requests lb /\
  same_buffers g g' /\
  match policy lb with
  | RoundRobin cur =>
      policy lb' = RoundRobin s /\ s = (cur + 1) mod n /\ g' = g
  | RandomSelect =>
      lb' = lb /\ exists r, rand_tape g = r :: rand_tape g' /\ s = Z.of_N r mod n
  | LeastRequests =>
      lb' = lb /\
      exists r1 skipped r2,
        rand_tape g = r1 :: skipped ++ r2 :: rand_tape g' /\
        (s = Z.of_N r1 mod n \/ s = Z.of_N r2 mod n)
  end.
Proof. exact (selectUpstreamServer_Ret lb lb' n s g g'). Qed.

Lemma selectUpstreamServer_in_range_witness :
  exists g',
    selectUpstreamServer
      {| active_requests := [2; 0; 1]; policy := RoundRobin 2 |} 3
      (initial_globals [5%N])
    = Ret ((0, {| active_requests := [2; 0; 1]; policy := RoundRobin 0 |}), g') /\
    rand_tape g' = [5%N].
Proof.
  assert (Hrun : selectUpstreamServer
                   {| active_requests := [2; 0; 1]; policy := RoundRobin 2 |} 3
                   (initial_globals [5%N])
                 = Ret ((0, {| active_requests := [2; 0; 1]; policy := RoundRobin 0 |}),
                        initial_globals [5%N])) by reflexivity.
  assert (Hn : 0 < 3) by lia.
  assert (Hcur : forall cur,
             policy {| active_requests := [2; 0; 1]; policy := RoundRobin 2 |}
             = RoundRobin cur -> 0 <= cur < INT_MAX).
  { intros cur [= <-]. unfold INT_MAX. lia. }
  destruct (selectUpstreamServer_in_range _ _ _ _ _ _ Hn Hcur Hrun)
    as (_ & _ & _ & _ & _ & Hg).
  exists (initial_globals [5%N]). split; [exact Hrun|reflexivity].
Defined.

Lemma alter_fixed {A : Type} (h : A -> A) (l : list A) (k : nat) :
  (forall x, l !! k = Some x -> h x = x) -> alter h k l = l.
Proof.
  intros Hh. apply list_eq. intros i.
  destruct (decide (k = i)) as [<-|Hne].
  - rewrite list_lookup_alter_eq.
    destruct (l !! k) as [x|] eqn:Hx; [|reflexivity]. cbn. now rewrite Hh.
  - now apply list_lookup_alter_ne.
Qed.

Lemma alter_decr_incr (l : list Z) (k : nat) :
  Forall (fun c => INT_MIN <= c <= INT_MAX) l ->
  alter int_decr k (alter int_incr k l) = l /\
  alter int_incr k (alter int_decr k l) = l.
Proof.
  intros Hl. rewrite Forall_lookup in Hl.
  rewrite !list_alter_alter_eq. split; apply alter_fixed; intros c Hc;
    specialize (Hl _ _ Hc); cbn in Hl |- *.
  - unfold int_incr. rewrite int_decr_wrap.
    replace (c + 1 - 1) with c by lia. now apply wrap_int_small.
  - unfold int_decr. rewrite int_incr_wrap.
    replace (c - 1 + 1) with c by lia. now apply wrap_int_small.
Qed.

(** X4: on a counter vector of [int]s, [onSendRequest] and
    [onReceiveResponse] for the same server undo each other, in either
    order and also across the wrap-around at the ends of the [int] range;
    each changes the one counter addressed and no other; and both have no
    defined result for an index outside the vector. *)
Theorem LoadBalancer_send_receive_round_trip (lb : LoadBalancer) (j : Z) :
  Forall (fun c => INT_MIN <= c <= INT_MAX) (active_requests lb) ->
  (0 <= j < Z.of_nat (length (active_requests lb)) ->
   exists sent received,
     LoadBalancer_onSendRequest j lb = Ret sent /\
     LoadBalancer_onReceiveResponse j lb = Ret received /\
     LoadBalancer_onReceiveResponse j sent = Ret lb /\
     LoadBalancer_onSendRequest j received = Ret lb /\
     policy sent = policy lb /\
     length (active_requests sent) = length (active_requests lb) /\
     (forall k, k <> Z.to_nat j ->
        active_requests sent !! k = active_requests lb !! k /\
        active_requests received !! k = active_requests lb !! k) /\
     active_requests sent !! Z.to_nat j
     = int_incr <$> active_requests lb !! Z.to_nat j /\
     active_requests received !! Z.to_nat j
     = int_decr <$> active_requests lb !! Z.to_nat j) /\
  (j < 0 \/ Z.of_nat (length (active_requests lb)) <= j ->
   LoadBalancer_onSendRequest j lb = Undefined /\
   LoadBalancer_onReceiveResponse j lb = Undefined).
Proof.
  intros Hint.
  assert (Hin : forall (f : Z -> Z) (l : list Z),
            0 <= j < Z.of_nat (length l) ->
            vec_alter f l j = Ret (alter f (Z.to_nat j) l)).
  { intros f l Hj. unfold vec_alter.
    destruct (Z.ltb_spec j 0); [lia|].
    destruct (Nat.ltb_spec (Z.to_nat j) (length l)); [reflexivity|lia]. }
  split.
  - intros Hj.
    destruct (alter_decr_incr (active_requests lb) (Z.to_nat j) Hint) as (E1 & E2).
    exists {| active_requests := alter int_incr (Z.to_nat j) (active_requests lb);
              policy := policy lb |},
           {| active_requests := alter int_decr (Z.to_nat j) (active_requests lb);
              policy := policy lb |}.
    unfold LoadBalancer_onSendRequest, LoadBalancer_onReceiveResponse.
    cbn [active_requests policy].
    rewrite !Hin by (rewrite ?length_alter; assumption).
    cbn [obind]. rewrite E1, E2.
    split; [reflexivity|]. split; [reflexivity|].
    split; [now destruct lb|]. split; [now destruct lb|].
    split; [reflexivity|]. split; [apply length_alter|].
    split; [|split; apply list_lookup_alter_eq].
    intros k Hk. split; apply list_lookup_alter_ne; congruence.
  - intros Hj.
    unfold LoadBalancer_onSendRequest, LoadBalancer_onReceiveResponse, vec_alter.
    destruct (Z.ltb_spec j 0); [split; reflexivity|].
    destruct (Nat.ltb_spec (Z.to_nat j) (length (active_requests lb))); [lia|].
    split; reflexivity.
Qed.

Lemma LoadBalancer_send_receive_round_trip_witness :
  LoadBalancer_onReceiveResponse 1 {| active_requests := [4; INT_MIN; 0];
                                      policy := RandomSelect |}
  = Ret {| active_requests := [4; INT_MAX; 0]; policy := RandomSelect |}.
Proof.
  assert (Hint : Forall (fun c => INT_MIN <= c <= INT_MAX)
                        (active_requests {| active_requests := [4; INT_MAX; 0];
                                            policy := RandomSelect |})).
  { repeat constructor; vm_compute; congruence. }
  destruct (LoadBalancer_send_receive_round_trip
              {| active_requests := [4; INT_MAX; 0]; policy := RandomSelect |} 1 Hint)
    as [Hin _].
  destruct Hin as (sent & received & Hs & _ & Hback & _); [cbn; lia|].
  vm_compute in Hs. injection Hs as <-. exact Hback.
Defined.

(** ** The simulator between two time units *)

Lemma arrivals_same_buffers (n : Z) (ps : list ProxyServer) :
  forall (b : Backend) (g : Globals) ps' b' g',
    arrivals n ps b g = Ret ((ps', b'), g') -> same_buffers g g'.
Proof.
  induction ps as [|p ps IH]; intros b g ps' b' g'; cbn [arrivals].
  - unfold ret. intros [= <- <- <-]. apply same_buffers_refl.
  - intros H. apply bind_Ret in H as ([p1 b1] & g1 & Hp & H).
    apply bind_Ret in H as ([ps2 b2] & g2 & Hps & H).
    unfold ret in H. injection H as <- <- <-.
    eapply same_buffers_trans; [|eapply IH; eauto].
    destruct (arrival_effect _ _ _ _ _ _ _ Hp) as [(_ & _ & Hb)|(g0 & Hb & Hsend)];
      [assumption|].
    eapply same_buffers_trans; [exact Hb|].
    now destruct (onSendRequest_effect _ _ _ _ _ _ Hsend)
      as (? & ? & ? & _ & _ & _ & _ & _ & _ & _ & Hb').
Qed.

(** What one time unit does to the statistics. *)
Lemma run1TimeUnit_stats {mr : MissingReturn} (sim sim' : LBSimulator) (g g' : Globals) :
  LBSimulator_run1TimeUnit mr sim g = Ret (sim', g') ->
  exists sim1 g1,
    delivered sim g = Ret (sim1, g1) /\
    all_latency sim' = all_latency sim ++ response_latency g1 /\
    request_cnt sim'
    = wrap_int (request_cnt sim + Z.of_nat (length (response_latency g1))) /\
    total_latency sim'
    = fold_left (fun total latency => wrap_llong (total + latency))
                (response_latency g1) (total_latency sim) /\
    timer sim' = int_incr (timer sim) /\
    output sim' = output sim1 /\
    length (output sim1) = S (length (output sim)) /\
    response_latency g' = [] /\ request_proxy g' = [] /\ response_server g' = [].
Proof.
  rewrite run1TimeUnit_delivered. intros H.
  apply bind_Ret in H as (sim1 & g1 & Hd & H).
  apply bind_Ret in H as ([] & g2 & Hc & H).
  apply bind_Ret in H as ([f2 b2] & g3 & Harr & H).
  unfold ret in H. injection H as <- <-.
  unfold cleanup in Hc. injection Hc as <-.
  apply Frontend_onReceiveRequest_Ret in Harr as (_ & Harr).
  apply bind_Ret in Harr as ([ps b3] & g4 & Harr & H).
  unfold ret in H. injection H as <- <- <-.
  apply arrivals_same_buffers in Harr as (B1 & B2 & B3).
  cbn in B1, B2, B3.
  exists sim1, g1. split; [exact Hd|]. cbn [all_latency request_cnt total_latency
                                          timer output].
  unfold delivered in Hd. apply bind_Ret in Hd as (b1 & g0 & Hproc & Hcol).
  unfold LBSimulator_collectStats in Hcol.
  apply bind_Ret in Hcol as (gg & g5 & Hg & Hcol).
  unfold get_globals in Hg. injection Hg as <- <-.
  apply bind_Ret in Hcol as (ps1 & g5 & Hdel & Hcol). apply lift_Ret in Hdel as (_ & ->).
  apply bind_Ret in Hcol as (hi & g5 & Hhi & Hcol). apply lift_Ret in Hhi as (_ & ->).
  apply bind_Ret in Hcol as (lo & g5 & Hlo & Hcol). apply lift_Ret in Hlo as (_ & ->).
  unfold ret in Hcol. injection Hcol as <- <-.
  cbn [all_latency request_cnt total_latency timer output].
  rewrite length_app. cbn [length].
  repeat split; auto. lia.
Qed.

(** X5: after every call of [run1TimeUnit] that returns, whatever the
    state it started from, the three process-wide buffers are empty: the
    completion records of a time unit do not outlive it, since neither the
    arrival phase nor anything it calls writes to them after [cleanup]. *)
Theorem run1TimeUnit_clears_buffers {mr : MissingReturn} (sim sim' : LBSimulator) (g g' : Globals) :
  LBSimulator_run1TimeUnit mr sim g = Ret (sim', g') ->
  response_latency g' = [] /\ request_proxy g' = [] /\ response_server g' = [].
Proof.
  intros H.
  destruct (run1TimeUnit_stats _ _ _ _ H) as (sim1 & g1 & _ & _ & _ & _ & _ & _ & _ & Hb).
  exact Hb.
Qed.

Lemma run1TimeUnit_clears_buffers_witness :
  exists sim' g',
    LBSimulator_run1TimeUnit EndReturns
      (simulator_with_history [])
      {| rand_tape := [1%N]; response_latency := [7];
         request_proxy := [0]; response_server := [0] |}
    = Ret (sim', g') /\
    response_latency g' = [] /\ request_proxy g' = [] /\ response_server g' = [] /\
    all_latency sim' = [7].
Proof.
  assert (Hex : exists sim' g',
             LBSimulator_run1TimeUnit EndReturns
               (simulator_with_history [])
               {| rand_tape := [1%N]; response_latency := [7];
                  request_proxy := [0]; response_server := [0] |}
             = Ret (sim', g') /\ all_latency sim' = [7]).
  { eexists. eexists. split; vm_compute; reflexivity. }
  destruct Hex as (sim' & g' & Hrun & Hall).
  destruct (run1TimeUnit_clears_buffers _ _ _ _ Hrun) as (B1 & B2 & B3).
  exists sim', g'. repeat split; assumption.
Defined.

Lemma wrap_llong_wrap_add (x y : Z) : wrap_llong (wrap_llong x + y) = wrap_llong (x + y).
Proof.
  unfold wrap_llong.
  replace ((x + 2 ^ 63) mod 2 ^ 64 - 2 ^ 63 + y + 2 ^ 63)
    with ((x + 2 ^ 63) mod 2 ^ 64 + y) by lia.
  rewrite Zplus_mod_idemp_l. do 2 f_equal. lia.
Qed.

Lemma fold_wrap_llong (ls : list Z) :
  forall x : Z,
    fold_left (fun total latency => wrap_llong (total + latency)) ls (wrap_llong x)
    = wrap_llong (x + sumZ ls).
Proof.
  induction ls as [|l ls IH]; intros x; cbn [fold_left sumZ].
  - now rewrite Z.add_0_r.
  - rewrite wrap_llong_wrap_add, IH. f_equal. lia.
Qed.

Lemma run_stats {mr : MissingReturn} (n : nat) :
  forall (sim sim' : LBSimulator) (g g' : Globals) (k : nat),
    run mr n sim g = Ret (sim', g') ->
    request_cnt sim = wrap_int (Z.of_nat (length (all_latency sim))) ->
    total_latency sim = wrap_llong (sumZ (all_latency sim)) ->
    timer sim = wrap_int (Z.of_nat k) ->
    length (output sim) = k ->
    request_cnt sim' = wrap_int (Z.of_nat (length (all_latency sim'))) /\
    total_latency sim' = wrap_llong (sumZ (all_latency sim')) /\
    timer sim' = wrap_int (Z.of_nat (k + n)) /\
    length (output sim') = (k + n)%nat /\
    exists later, all_latency sim' = all_latency sim ++ later.
Proof.
  induction n as [|n IH]; intros sim sim' g g' k; cbn [run].
  - unfold ret. intros [= <- <-] H1 H2 H3 H4. rewrite Nat.add_0_r.
    repeat split; auto. exists []. now rewrite app_nil_r.
  - intros H H1 H2 H3 H4. apply bind_Ret in H as (sim1 & g1 & Hstep & H).
    destruct (run1TimeUnit_stats _ _ _ _ Hstep)
      as (simd & gd & _ & Ha & Hc & Ht & Htm & Ho & Hol & _).
    destruct (IH _ _ _ _ (S k) H) as (R1 & R2 & R3 & R4 & later & R5).
    + rewrite Hc, Ha, H1, length_app, wrap_int_wrap_add. f_equal. lia.
    + rewrite Ht, Ha, H2, fold_wrap_llong, sumZ_app. reflexivity.
    + rewrite Htm, H3, int_incr_wrap. f_equal. lia.
    + rewrite Ho, Hol, H4. reflexivity.
    + replace (k + S n)%nat with (S k + n)%nat by lia.
      repeat split; auto. exists (response_latency gd ++ later).
      now rewrite R5, Ha, app_assoc.
Qed.

(** X6: in every execution the running statistics agree with the recorded
    history: [request_cnt] is the number of recorded latencies and
    [total_latency] is their sum, each brought into the range of its type
    ([int] and [long long]); [timer] counts the time units and one
    imbalance value has been written per time unit.  So while fewer than
    2^31 requests have completed, the count is exact. *)
Theorem statistics_agree_with_history {mr : MissingReturn}
  (proxy_servers backend_servers : Z) (lb_policy : string)
  (ticks : nat) (tape : list N) (sim : LBSimulator) (g : Globals) :
  simulator_after mr proxy_servers backend_servers lb_policy ticks tape = Ret (sim, g) ->
  request_cnt sim = wrap_int (Z.of_nat (length (all_latency sim))) /\
  total_latency sim = wrap_llong (sumZ (all_latency sim)) /\
  timer sim = wrap_int (Z.of_nat ticks) /\
  length (output sim) = ticks /\
  (Z.of_nat (length (all_latency sim)) <= INT_MAX ->
   request_cnt sim = Z.of_nat (length (all_latency sim))).
Proof.
  unfold simulator_after. intros H.
  apply bind_Ret in H as (sim0 & g0 & Hnew & Hrun).
  unfold LBSimulator_new in Hnew.
  apply bind_Ret in Hnew as ([] & g1 & _ & Hnew).
  unfold ret in Hnew. injection Hnew as <- <-.
  destruct (run_stats ticks _ _ _ _ O Hrun) as (R1 & R2 & R3 & R4 & _);
    try reflexivity.
  repeat split; auto.
  intros Hmax. rewrite R1. apply wrap_int_small. unfold INT_MIN. lia.
Qed.

Lemma statistics_agree_with_history_witness :
  exists sim g,
    simulator_after EndReturns 3 4 "Least Request" 150 example_tape = Ret (sim, g) /\
    request_cnt sim = 24 /\ length (all_latency sim) = 24%nat /\
    total_latency sim = 2400 /\ timer sim = 150.
Proof.
  assert (Hex : exists sim g,
             simulator_after EndReturns 3 4 "Least Request" 150 example_tape = Ret (sim, g) /\
             length (all_latency sim) = 24%nat /\ sumZ (all_latency sim) = 2400).
  { eexists. eexists. split; [vm_compute; reflexivity|]. split; reflexivity. }
  destruct Hex as (sim & g & Hrun & Hlen & Hsum).
  destruct (statistics_agree_with_history _ _ _ _ _ _ _ Hrun)
    as (H1 & H2 & H3 & _ & _).
  exists sim, g. rewrite H1, H2, H3, Hlen, Hsum.
  split; [exact Hrun|]. repeat split.
Defined.

Lemma queued_none (src sid : Z) (servers : list UpstreamServer) :
  Forall (fun s => server_id s <> sid) servers -> queued src sid servers = 0.
Proof.
  induction 1 as [|s servers Hs _ IH]; [reflexivity|].
  rewrite queued_cons, IH. destruct (Z.eqb_spec (server_id s) sid); [contradiction|lia].
Qed.

Lemma queued_at_index (src : Z) (servers : list UpstreamServer) :
  forall (off : Z) (j : nat) (s : UpstreamServer),
    (forall k s', servers !! k = Some s' -> server_id s' = off + Z.of_nat k) ->
    servers !! j = Some s ->
    queued src (off + Z.of_nat j) servers = count_src src (request_sources s).
Proof.
  induction servers as [|s0 servers IH]; intros off j s Hid Hs; [discriminate|].
  rewrite queued_cons, (Hid O s0 eq_refl). destruct j as [|j].
  - injection Hs as ->. rewrite Z.eqb_refl, queued_none; [lia|].
    apply Forall_lookup. intros k s' Hk. rewrite (Hid (S k) s' Hk). lia.
  - destruct (Z.eqb_spec (off + Z.of_nat 0) (off + Z.of_nat (S j))); [lia|].
    replace (off + Z.of_nat (S j)) with ((off + 1) + Z.of_nat j) by lia.
    rewrite (IH (off + 1) j s); [lia| |exact Hs].
    intros k s' Hk. rewrite (Hid (S k) s' Hk). lia.
Qed.

(** X7: in the state between two time units of any execution, and as long
    as the number of requests in flight fits in an [int], every single
    counter is exact: the counter proxy [i] keeps for server [j] is the
    number of requests queued at server [j] whose source is proxy [i].  So
    no counter is negative, none exceeds the length of its server's queue,
    and a proxy with nothing queued has all its counters at 0. *)
Theorem counters_are_exact {mr : MissingReturn}
  (proxy_servers backend_servers : Z) (lb_policy : string)
  (ticks : nat) (tape : list N) (sim : LBSimulator) (g : Globals) :
  backend_servers <= INT_MAX ->
  simulator_after mr proxy_servers backend_servers lb_policy ticks tape = Ret (sim, g) ->
  total_active (backend sim) <= INT_MAX ->
  forall (i : nat) (p : ProxyServer) (lb : LoadBalancer),
    proxies (frontend sim) !! i = Some p ->
    load_balancer p = Some lb ->
    length (active_requests lb) = length (upstream_servers (backend sim)) /\
    forall (j : nat) (s : UpstreamServer),
      upstream_servers (backend sim) !! j = Some s ->
      exists c,
        active_requests lb !! j = Some c /\
        c = count_src (Z.of_nat i) (request_sources s) /\
        0 <= c <= Z.of_nat (length (service_timers s)).
Proof.
  intros Hmax Hrun Htot i p lb Hp Hlb. unfold simulator_after in Hrun.
  apply bind_Ret in Hrun as (sim0 & g0 & Hnew & Hrun).
  apply (LBSimulator_new_ok _ _ _ _ _ _ Hmax) in Hnew.
  destruct (run_ok _ _ _ _ _ Hrun Hnew) as ((Hok & Hn & Hall) & _).
  rewrite Forall_lookup in Hall. specialize (Hall _ _ Hp).
  unfold proxy_ok in Hall. rewrite Hlb in Hall.
  rewrite (proxies_numbered_lookup _ _ _ Hn Hp) in Hall.
  split.
  - rewrite Hall, length_map, length_seqZ. lia.
  - intros j s Hs. destruct (Hok _ _ Hs) as (Hid & Hlen & _).
    assert (Hq : queued (Z.of_nat i) (Z.of_nat j) (upstream_servers (backend sim))
                 = count_src (Z.of_nat i) (request_sources s)).
    { apply (queued_at_index _ _ 0 j s); [|exact Hs].
      intros k s' Hk. destruct (Hok _ _ Hk) as (Hid' & _). lia. }
    pose proof (count_src_bounds (Z.of_nat i) (request_sources s)) as Hb.
    assert (Hle : Z.of_nat (length (service_timers s)) <= total_active (backend sim)).
    { unfold total_active. clear - Hs.
      revert j Hs. induction (upstream_servers (backend sim)) as [|s0 l IH];
        intros [|j] Hs; try discriminate; cbn [map sumZ].
      - injection Hs as ->.
        assert (0 <= sumZ (map (fun s => Z.of_nat (length (service_timers s))) l)).
        { clear. induction l; cbn; lia. }
        lia.
      - specialize (IH j Hs). lia. }
    exists (count_src (Z.of_nat i) (request_sources s)).
    split; [|split; [reflexivity|lia]].
    rewrite Hall.
    change (map ?f (seqZ 0 ?n)) with (f <$> seqZ 0 n).
    rewrite list_lookup_fmap.
    rewrite (lookup_seqZ_lt 0 _ j) by (apply lookup_lt_Some in Hs; lia).
    cbn. f_equal. unfold ledger. cbn [pending]. rewrite Z.add_0_l, Z.add_0_r, Hq.
    apply wrap_int_small. unfold INT_MIN. lia.
Qed.

Lemma counters_are_exact_witness :
  exists sim g p lb,
    simulator_after EndReturns 3 4 "Least Request" 150 example_tape = Ret (sim, g) /\
    proxies (frontend sim) !! 1%nat = Some p /\
    load_balancer p = Some lb /\
    length (active_requests lb) = 4%nat.
Proof.
  assert (Hex : exists sim g p lb,
             simulator_after EndReturns 3 4 "Least Request" 150 example_tape = Ret (sim, g) /\
             proxies (frontend sim) !! 1%nat = Some p /\
             load_balancer p = Some lb /\
             total_active (backend sim) = 56 /\
             length (upstream_servers (backend sim)) = 4%nat).
  { eexists. eexists. eexists. eexists.
    split; [vm_compute; reflexivity|]. split; [reflexivity|].
    split; [reflexivity|]. split; reflexivity. }
  destruct Hex as (sim & g & p & lb & Hrun & Hp & Hlb & Htot & Hlen).
  assert (Hmax : 4 <= INT_MAX) by (unfold INT_MAX; lia).
  assert (Hfit : total_active (backend sim) <= INT_MAX)
    by (rewrite Htot; unfold INT_MAX; lia).
  destruct (counters_are_exact 3 4 "Least Request" 150 example_tape sim g
              Hmax Hrun Hfit 1%nat p lb Hp Hlb) as (Hl & _).
  exists sim, g, p, lb. rewrite Hl, Hlen. repeat split; assumption.
Defined.

Lemma fold_max_spec (v : list Z) :
  forall x : Z,
    (fold_left Z.max v x = x \/ In (fold_left Z.max v x) v) /\
    x <= fold_left Z.max v x /\
    Forall (fun y => y <= fold_left Z.max v x) v.
Proof.
  induction v as [|y v IH]; intros x; cbn [fold_left].
  - split; [now left|]. split; [lia|constructor].
  - destruct (IH (Z.max x y)) as ([E|Hin] & Hle & Hall).
    + split; [|split; [lia|constructor; [lia|assumption]]].
      rewrite E. destruct (Z.max_spec x y) as [(_ & ->)|(_ & ->)];
        [right; now left|now left].
    + split; [right; now right|]. split; [lia|constructor; [lia|assumption]].
Qed.

Lemma fold_min_spec (v : list Z) :
  forall x : Z,
    (fold_left Z.min v x = x \/ In (fold_left Z.min v x) v) /\
    fold_left Z.min v x <= x /\
    Forall (fun y => fold_left Z.min v x <= y) v.
Proof.
  induction v as [|y v IH]; intros x; cbn [fold_left].
  - split; [now left|]. split; [lia|constructor].
  - destruct (IH (Z.min x y)) as ([E|Hin] & Hle & Hall).
    + split; [|split; [lia|constructor; [lia|assumption]]].
      rewrite E. destruct (Z.min_spec x y) as [(_ & ->)|(_ & ->)];
        [now left|right; now left].
    + split; [right; now right|]. split; [lia|constructor; [lia|assumption]].
Qed.

Lemma max_element_spec (v : list Z) (hi : Z) :
  max_element v = Ret hi -> In hi v /\ Forall (fun y => y <= hi) v.
Proof.
  destruct v as [|x v]; [discriminate|]. cbn. intros [= <-].
  destruct (fold_max_spec v x) as ([E|Hin] & Hle & Hall).
  - split; [left; congruence|]. constructor; assumption.
  - split; [now right|]. constructor; assumption.
Qed.

Lemma min_element_spec (v : list Z) (lo : Z) :
  min_element v = Ret lo -> In lo v /\ Forall (fun y => lo <= y) v.
Proof.
  destruct v as [|x v]; [discriminate|]. cbn. intros [= <-].
  destruct (fold_min_spec v x) as ([E|Hin] & Hle & Hall).
  - split; [left; congruence|]. constructor; assumption.
  - split; [now right|]. constructor; assumption.
Qed.

Lemma deliver_each_not_starved (rp : list Z) :
  forall (rs : list Z) (ps : list ProxyServer), deliver_each rp rs ps <> Starved.
Proof.
  induction rp as [|a rp IH]; intros rs ps; cbn [deliver_each]; [discriminate|].
  destruct rs as [|c rs]; [discriminate|].
  unfold vec_at. destruct (a <? 0); [discriminate|].
  destruct (ps !! Z.to_nat a) as [p|]; [|discriminate]. cbn [obind].
  unfold ProxyServer_onReceiveResponse.
  destruct (load_balancer p) as [lb|]; [|discriminate].
  unfold LoadBalancer_onReceiveResponse, vec_alter.
  destruct (c <? 0); [discriminate|].
  destruct (Z.to_nat c <? length (active_requests lb))%nat; [|discriminate].
  cbn [obind]. apply IH.
Qed.

(** Without servers there is no longest queue. *)
Lemma delivered_no_servers (sim : LBSimulator) (g : Globals) :
  upstream_servers (backend sim) = [] -> delivered sim g = Undefined.
Proof.
  intros Hempty. unfold delivered, Backend_processRequest, bind.
  rewrite Hempty. cbn [for_each]. unfold ret. cbn [obind].
  unfold LBSimulator_collectStats, bind, get_globals. cbn [obind].
  unfold lift. rewrite deliver_is_deliver_each.
  pose proof (deliver_each_not_starved (request_proxy g) (response_server g)
                (proxies (frontend sim))) as Hns.
  cbn [frontend].
  destruct (deliver_each _ _ _) as [ps| |]; cbn [obind]; congruence || reflexivity.
Qed.

(** X8: the imbalance a time unit writes is taken after the servers have
    processed and before the arrivals: it is the difference between the
    longest and the shortest queue of that moment, both attained by some
    server, and one value is written per time unit.  While the queue
    lengths fit in an [int] it is not negative and not above the longest
    queue.  Without any server there is nothing to compare and the call has
    no defined result. *)
Theorem imbalance_is_max_minus_min (sim : LBSimulator) (g : Globals) :
  (upstream_servers (backend sim) = [] -> delivered sim g = Undefined) /\
  (forall sim1 g1,
     delivered sim g = Ret (sim1, g1) ->
     exists hi lo,
       output sim1 = output sim ++ [wrap_int (hi - lo)] /\
       In hi (Backend_activeRequests (backend sim1)) /\
       In lo (Backend_activeRequests (backend sim1)) /\
       Forall (fun x => lo <= x <= hi) (Backend_activeRequests (backend sim1)) /\
       (Forall (fun s => Z.of_nat (length (service_timers s)) <= INT_MAX)
               (upstream_servers (backend sim1)) ->
        wrap_int (hi - lo) = hi - lo /\ 0 <= hi - lo <= hi)).
Proof.
  split.
  - apply delivered_no_servers.
  - intros sim1 g1 Hd. unfold delivered in Hd.
    apply bind_Ret in Hd as (b1 & g0 & Hproc & Hcol).
    unfold LBSimulator_collectStats in Hcol.
    apply bind_Ret in Hcol as (gg & g5 & Hg & Hcol).
    unfold get_globals in Hg. injection Hg as <- <-.
    apply bind_Ret in Hcol as (ps1 & g5 & Hdel & Hcol). apply lift_Ret in Hdel as (_ & ->).
    apply bind_Ret in Hcol as (hi & g5 & Hhi & Hcol). apply lift_Ret in Hhi as (Hhi & ->).
    apply bind_Ret in Hcol as (lo & g5 & Hlo & Hcol). apply lift_Ret in Hlo as (Hlo & ->).
    unfold ret in Hcol. injection Hcol as <- <-. cbn [backend output] in *.
    apply max_element_spec in Hhi as (Hhi & Hmaxall).
    apply min_element_spec in Hlo as (Hlo & Hminall).
    exists hi, lo. split; [reflexivity|]. split; [assumption|]. split; [assumption|].
    split.
    + rewrite Forall_forall in Hmaxall, Hminall |- *. intros x Hx.
      split; [apply Hminall|apply Hmaxall]; assumption.
    + intros Hfit.
      assert (Hst : Forall (fun x => 0 <= x <= INT_MAX) (Backend_activeRequests b1)).
      { unfold Backend_activeRequests. rewrite Forall_map.
        eapply Forall_impl; [exact Hfit|]. intros s Hs. cbn in Hs |- *.
        unfold UpstreamServer_activeRequests.
        rewrite wrap_int_small by (unfold INT_MIN; lia). lia. }
      rewrite Forall_forall in Hst, Hmaxall.
      apply list_elem_of_In in Hhi, Hlo.
      pose proof (Hst _ Hhi). pose proof (Hst _ Hlo).
      pose proof (Hmaxall _ Hlo). cbn in *.
      split; [apply wrap_int_small; unfold INT_MIN, INT_MAX in *; lia|lia].
Qed.

Lemma imbalance_is_max_minus_min_witness :
  exists sim g sim1 g1,
    simulator_after EndReturns 3 4 "Least Request" 150 example_tape = Ret (sim, g) /\
    delivered sim g = Ret (sim1, g1) /\
    Backend_activeRequests (backend sim1) = [15; 14; 13; 14] /\
    exists hi lo, output sim1 = output sim ++ [wrap_int (hi - lo)] /\
                  In hi [15; 14; 13; 14] /\ In lo [15; 14; 13; 14].
Proof.
  assert (Hex : exists sim g sim1 g1,
             simulator_after EndReturns 3 4 "Least Request" 150 example_tape = Ret (sim, g) /\
             delivered sim g = Ret (sim1, g1) /\
             Backend_activeRequests (backend sim1) = [15; 14; 13; 14]).
  { eexists. eexists. eexists. eexists.
    split; [vm_compute; reflexivity|].
    split; [vm_compute; reflexivity|].
    vm_compute; reflexivity. }
  destruct Hex as (sim & g & sim1 & g1 & Hrun & Hd & Hst).
  destruct (imbalance_is_max_minus_min sim g) as [_ H].
  destruct (H sim1 g1 Hd) as (hi & lo & Ho & Hhi & Hlo & _).
  exists sim, g, sim1, g1. rewrite Hst in Hhi, Hlo. eauto 10.
Defined.

(** ** No access out of bounds *)

Lemma sat_bind {A B : Type} (Q1 : A * Globals -> Prop) (Q2 : B * Globals -> Prop)
  (m : M A) (k : A -> M B) (g : Globals) :
  outcome_sat Q1 (m g) ->
  (forall a g1, Q1 (a, g1) -> outcome_sat Q2 (k a g1)) ->
  outcome_sat Q2 (bind m k g).
Proof.
  unfold bind. destruct (m g) as [[a g1]| |]; cbn; auto.
Qed.

Lemma vec_alter_inside {A : Type} (f : A -> A) (v : list A) (i : Z) :
  0 <= i < Z.of_nat (length v) -> vec_alter f v i = Ret (alter f (Z.to_nat i) v).
Proof.
  intros Hi. unfold vec_alter. destruct (Z.ltb_spec i 0); [lia|].
  destruct (Nat.ltb_spec (Z.to_nat i) (length v)); [reflexivity|lia].
Qed.

Section Safety.

Variables NP NS : Z.

Lemma processRequest_safe (s : UpstreamServer) (g : Globals) :
  safe_server NP NS s ->
  safe_buffers NP NS g ->
  exists s' g',
    UpstreamServer_processRequest s g = Ret (s', g') /\
    safe_server NP NS s' /\
    safe_buffers NP NS g' /\
    rand_tape g' = rand_tape g.
Proof.
  intros (Hid & Hpar & Hsrc) (Hlen & Hrp & Hrs).
  destruct (processRequest_parallel s g Hpar)
    as (k & s' & Hk & Hrun & _ & Hsources & _ & Hid' & _ & _ & _ & Hpar').
  eexists s', _. split; [exact Hrun|].
  split; [|split; [|reflexivity]].
  - split; [now rewrite Hid'|]. split; [assumption|].
    rewrite Hsources. now apply Forall_drop.
  - unfold safe_buffers. cbn [request_proxy response_server].
    rewrite !length_app, length_take, length_replicate.
    destruct Hpar as (A & _).
    split; [lia|]. split; apply Forall_app; split; auto.
    + now apply Forall_take.
    + apply Forall_replicate. exact Hid.
Qed.

Lemma for_each_processRequest_safe (servers : list UpstreamServer) :
  forall g : Globals,
    Forall (safe_server NP NS) servers ->
    safe_buffers NP NS g ->
    exists servers' g',
      for_each UpstreamServer_processRequest servers g = Ret (servers', g') /\
      Forall (safe_server NP NS) servers' /\
      length servers' = length servers /\
      safe_buffers NP NS g' /\
      rand_tape g' = rand_tape g.
Proof.
  induction servers as [|s servers IH]; intros g Hall Hbuf; cbn [for_each].
  - exists [], g. unfold ret. auto.
  - apply Forall_cons in Hall as [Hs Hall].
    destruct (processRequest_safe s g Hs Hbuf) as (s' & g1 & Hrun & Hs' & Hbuf1 & Ht1).
    destruct (IH g1 Hall Hbuf1) as (servers' & g2 & Hrest & Hall' & Hlen & Hbuf2 & Ht2).
    exists (s' :: servers'), g2. unfold bind. rewrite Hrun. cbn [obind].
    rewrite Hrest. cbn [obind]. unfold ret.
    split; [reflexivity|]. split; [now constructor|].
    split; [cbn; lia|]. split; [assumption|congruence].
Qed.

Lemma onReceiveResponse_safe (c : Z) (p : ProxyServer) :
  safe_proxy NP NS p ->
  0 <= c < NS ->
  exists p', ProxyServer_onReceiveResponse c p = Ret p' /\ safe_proxy NP NS p'.
Proof.
  intros (Hid & lb & Hlb & Hlen & Hcur) Hc.
  unfold ProxyServer_onReceiveResponse, LoadBalancer_onReceiveResponse.
  rewrite Hlb, vec_alter_inside by lia. cbn [obind].
  eexists. split; [reflexivity|]. split; [exact Hid|].
  eexists. split; [reflexivity|]. cbn [active_requests policy].
  rewrite length_alter. auto.
Qed.

Lemma deliver_each_safe (rp : list Z) :
  forall (rs : list Z) (ps : list ProxyServer),
    length rp = length rs ->
    Forall (fun a => 0 <= a < NP) rp ->
    Forall (fun c => 0 <= c < NS) rs ->
    Z.of_nat (length ps) = NP ->
    Forall (safe_proxy NP NS) ps ->
    exists ps',
      deliver_each rp rs ps = Ret ps' /\
      length ps' = length ps /\
      Forall (safe_proxy NP NS) ps'.
Proof.
  induction rp as [|a rp IH]; intros rs ps Hlen Hrp Hrs HP Hall; cbn [deliver_each].
  - exists ps. auto.
  - destruct rs as [|c rs]; [discriminate|].
    apply Forall_cons in Hrp as [Ha Hrp]. apply Forall_cons in Hrs as [Hc Hrs].
    destruct (vec_at_inside ps a) as (p & Hat & Hp); [lia|].
    rewrite Hat. cbn [obind].
    rewrite Forall_lookup in Hall. pose proof (Hall _ _ Hp) as Hsafe.
    destruct (onReceiveResponse_safe c p Hsafe Hc) as (p' & Hr & Hsafe').
    rewrite Hr. cbn [obind].
    destruct (IH rs (<[Z.to_nat a := p']> ps)) as (ps' & Hrun & Hlen' & Hall');
      [cbn in Hlen; lia | assumption | assumption
       | now rewrite length_insert | |].
    + apply Forall_insert; [apply Forall_lookup; exact Hall|assumption].
    + exists ps'. rewrite length_insert in Hlen'. auto.
Qed.

Lemma redraw_sat (n s1 : Z) (tape : list N) :
  0 < n ->
  forall s2 : Z,
    outcome_sat (fun '(s, _) => s = s2 \/ 0 <= s < n) (redraw n s1 s2 tape).
Proof.
  intros Hn. induction tape as [|r tape IH]; intros s2; cbn [redraw].
  - destruct (s2 =? s1); cbn; auto.
  - destruct (s2 =? s1); [|cbn; auto].
    rewrite int_rem_nonneg by lia. cbn [obind].
    specialize (IH (Z.of_N r mod n)).
    pose proof (Z.mod_pos_bound (Z.of_N r) n Hn).
    destruct (redraw n s1 (Z.of_N r mod n) tape) as [[s t]| |]; cbn in *; auto.
    right. destruct IH; lia.
Qed.

Lemma selectUpstreamServer_sat (lb : LoadBalancer) (g : Globals) :
  0 < NS <= INT_MAX ->
  Z.of_nat (length (active_requests lb)) = NS ->
  (forall cur, policy lb = RoundRobin cur -> 0 <= cur < NS) ->
  outcome_sat (fun _ => True) (selectUpstreamServer lb NS g).
Proof.
  intros HN Hlen Hcur. unfold selectUpstreamServer.
  destruct (policy lb) as [cur| |].
  - specialize (Hcur cur eq_refl). unfold bind, lift, RoundRobin_selectUpstreamServer.
    rewrite int_incr_small by (unfold INT_MIN; lia).
    rewrite int_rem_nonneg by lia. exact I.
  - unfold RandomSelect_selectUpstreamServer, bind, rand.
    destruct (rand_tape g) as [|r tape]; [exact I|]. cbn [obind].
    unfold lift. rewrite int_rem_nonneg by lia. exact I.
  - unfold LeastRequests_selectUpstreamServer, bind, rand.
    destruct (rand_tape g) as [|r tape]; [exact I|]. cbn [obind].
    unfold lift at 1. rewrite int_rem_nonneg by lia. cbn [obind].
    unfold with_tape. cbn [rand_tape].
    pose proof (Z.mod_pos_bound (Z.of_N r) NS ltac:(lia)) as Hr.
    pose proof (redraw_sat NS (Z.of_N r mod NS) tape ltac:(lia) (Z.of_N r mod NS)) as Hre.
    destruct (redraw NS (Z.of_N r mod NS) (Z.of_N r mod NS) tape) as [[s2 t]| |];
      cbn in Hre |- *; auto.
    unfold lift.
    destruct (vec_at_inside (active_requests lb) (Z.of_N r mod NS)) as (a1 & -> & _);
      [lia|].
    cbn [obind].
    destruct (vec_at_inside (active_requests lb) s2) as (a2 & -> & _); [lia|].
    exact I.
Qed.

Lemma enqueue_safe (source : Z) (s : UpstreamServer) :
  0 <= source < NP ->
  safe_server NP NS s ->
  safe_server NP NS (UpstreamServer_onReceiveRequest source s).
Proof.
  intros Hsrc (Hid & (A & B) & Hval). split; [exact Hid|]. split.
  - unfold parallel_deques. cbn. rewrite !length_app. cbn. lia.
  - cbn. apply Forall_app. split; [assumption|]. now constructor.
Qed.

Lemma onSendRequest_sat (p : ProxyServer) (b : Backend) (g : Globals) :
  0 < NS <= INT_MAX ->
  Z.of_nat (length (upstream_servers b)) = NS ->
  Forall (safe_server NP NS) (upstream_servers b) ->
  safe_proxy NP NS p ->
  outcome_sat
    (fun '((p', b'), g') =>
       safe_proxy NP NS p' /\
       Forall (safe_server NP NS) (upstream_servers b') /\
       length (upstream_servers b') = length (upstream_servers b) /\
       same_buffers g g')
    (ProxyServer_onSendRequest p b g).
Proof.
  intros HN Hlenb Hservers (Hid & lb & Hlb & Hlen & Hcur).
  unfold ProxyServer_onSendRequest. rewrite Hlb.
  assert (Hnum : Backend_num_servers b = NS).
  { unfold Backend_num_servers. rewrite Hlenb.
    apply wrap_int_small. unfold INT_MIN. lia. }
  rewrite Hnum.
  pose proof (selectUpstreamServer_sat lb g HN Hlen Hcur) as Hsel.
  unfold bind at 1.
  destruct (selectUpstreamServer lb NS g) as [[[s lb1] g1]| |] eqn:Hrun;
    cbn in Hsel |- *; auto.
  destruct (selectUpstreamServer_Ret lb lb1 NS s g g1) as (Hs & Har & Hbuf & Hpol);
    [lia | intros cur Hc; specialize (Hcur cur Hc); lia | exact Hrun |].
  unfold bind at 1. unfold lift at 1. unfold LoadBalancer_onSendRequest.
  rewrite vec_alter_inside by (rewrite Har; lia). cbn [obind].
  unfold bind at 1. unfold lift at 1. unfold Backend_onReceiveRequest.
  rewrite vec_alter_inside by lia. cbn [obind]. unfold ret.
  cbn [upstream_servers]. split; [|split; [|split]].
  - split; [exact Hid|]. eexists. split; [reflexivity|].
    cbn [active_requests policy]. rewrite length_alter, Har.
    split; [assumption|]. intros cur Hc.
    destruct (policy lb) as [cur0| |] eqn:Hp.
    + destruct Hpol as (Hp1 & _). rewrite Hp1 in Hc. injection Hc as <-. lia.
    + destruct Hpol as (-> & _). congruence.
    + destruct Hpol as (-> & _). congruence.
  - apply Forall_alter; [assumption|]. intros s0 _ Hs0. now apply enqueue_safe.
  - apply length_alter.
  - assumption.
Qed.

Lemma arrivals_sat (n : Z) (ps : list ProxyServer) :
  0 < n ->
  0 < NS <= INT_MAX ->
  forall (b : Backend) (g : Globals),
    Z.of_nat (length (upstream_servers b)) = NS ->
    Forall (safe_server NP NS) (upstream_servers b) ->
    Forall (safe_proxy NP NS) ps ->
    outcome_sat
      (fun '((ps', b'), g') =>
         Forall (safe_proxy NP NS) ps' /\
         length ps' = length ps /\
         Forall (safe_server NP NS) (upstream_servers b') /\
         length (upstream_servers b') = length (upstream_servers b) /\
         same_buffers g g')
      (arrivals n ps b g).
Proof.
  intros Hn HN. induction ps as [|p ps IH]; intros b g Hlenb Hservers Hall;
    cbn [arrivals].
  - unfold ret. cbn. auto using same_buffers_refl.
  - apply Forall_cons in Hall as [Hp Hall].
    eapply sat_bind with
      (Q1 := fun '((p', b'), g') =>
               safe_proxy NP NS p' /\
               Forall (safe_server NP NS) (upstream_servers b') /\
               length (upstream_servers b') = length (upstream_servers b) /\
               same_buffers g g').
    + unfold arrival, bind at 1, rand.
      destruct (rand_tape g) as [|r tape] eqn:Ht; [exact I|]. cbn [obind].
      unfold bind at 1, lift. rewrite int_rem_nonneg by lia. cbn [obind].
      set (g1 := {| rand_tape := tape; response_latency := response_latency g;
                    request_proxy := request_proxy g;
                    response_server := response_server g |}).
      destruct (Z.of_N r mod n =? 0).
      * pose proof (onSendRequest_sat p b g1 HN Hlenb Hservers Hp) as Hsend.
        destruct (ProxyServer_onSendRequest p b g1) as [[[p' b'] g']| |];
          cbn in Hsend |- *; auto.
      * unfold ret. cbn. split; [exact Hp|]. split; [exact Hservers|].
        split; [reflexivity|]. split; [|split]; reflexivity.
    + intros [p1 b1] g1 (Hp1 & Hs1 & Hl1 & Hb1).
      eapply sat_bind with
        (Q1 := fun '((ps', b'), g') =>
                 Forall (safe_proxy NP NS) ps' /\
                 length ps' = length ps /\
                 Forall (safe_server NP NS) (upstream_servers b') /\
                 length (upstream_servers b') = length (upstream_servers b1) /\
                 same_buffers g1 g').
      * apply IH; [congruence|assumption|assumption].
      * intros [ps2 b2] g2 (A & B & C & D & E). unfold ret. cbn.
        split; [now constructor|]. split; [lia|]. split; [assumption|].
        split; [congruence|]. eapply same_buffers_trans; eauto.
Qed.

End Safety.

Lemma delivered_safe (sim : LBSimulator) (g : Globals) :
  safe_sim sim ->
  safe_buffers (Z.of_nat (length (proxies (frontend sim))))
               (Z.of_nat (length (upstream_servers (backend sim)))) g ->
  exists sim1 g1,
    delivered sim g = Ret (sim1, g1) /\
    safe_sim sim1 /\
    rand_tape g1 = rand_tape g /\
    length (proxies (frontend sim1)) = length (proxies (frontend sim)).
Proof.
  intros (HN & Hservers & Hproxies) Hbuf.
  destruct (for_each_processRequest_safe _ _ _ g Hservers Hbuf)
    as (servers' & g1 & Hrun & Hservers' & Hlen & (Hl & Hrp & Hrs) & Htape).
  destruct (deliver_each_safe _ _ (request_proxy g1) (response_server g1)
              (proxies (frontend sim)) Hl Hrp Hrs eq_refl Hproxies)
    as (ps' & Hdel & Hlenp & Hproxies').
  unfold delivered, Backend_processRequest, bind. rewrite Hrun. cbn [obind].
  unfold ret. cbn [obind].
  unfold LBSimulator_collectStats, bind, get_globals. cbn [obind].
  unfold lift. rewrite deliver_is_deliver_each. cbn [frontend backend].
  rewrite Hdel. cbn [obind].
  unfold Backend_activeRequests. cbn [upstream_servers].
  destruct servers' as [|s0 servers']; [cbn in Hlen; lia|].
  cbn [map max_element min_element obind]. unfold ret.
  eexists _, _. split; [reflexivity|].
  split; [|split; [exact Htape|exact Hlenp]].
  unfold safe_sim. cbn [backend frontend upstream_servers proxies].
  rewrite Hlen, Hlenp. auto.
Qed.



Lemma LBSimulator_new_safe (proxy_servers backend_servers : Z) (lb_policy : string)
  (g : Globals) :
  known_policy lb_policy ->
  1 <= backend_servers <= INT_MAX ->
  exists sim g',
    LBSimulator_new proxy_servers backend_servers lb_policy g = Ret (sim, g') /\
    safe_sim sim /\
    request_proxy g' = [] /\ response_server g' = [].
Proof.
  intros Hpol Hbs. eexists _, _. split; [reflexivity|].
  split; [|split; reflexivity].
  unfold safe_sim.
  cbn [backend frontend Backend_new Frontend_new upstream_servers proxies].
  rewrite !length_map. unfold int_range. rewrite !length_seqZ.
  rewrite (Z2Nat.id backend_servers) by lia.
  split; [lia|]. split.
  - apply Forall_map, Forall_seqZ. intros j Hj.
    split; [cbn; lia|]. split; [split; reflexivity|constructor].
  - apply Forall_map, Forall_seqZ. intros j Hj.
    split; [cbn; lia|].
    assert (Hlen : forall pol,
               Z.of_nat (length (active_requests
                 (LoadBalancer_new
                    {| upstream_servers := map UpstreamServer_new (seqZ 0 backend_servers) |}
                    pol))) = backend_servers).
    { intros pol. unfold LoadBalancer_new, Backend_num_servers.
      cbn [active_requests upstream_servers].
      rewrite length_replicate, length_map, length_seqZ.
      rewrite (Z2Nat.id backend_servers) by lia.
      rewrite wrap_int_small by (unfold INT_MIN; lia). lia. }
    destruct Hpol as [-> | [-> | ->]]; cbn [ProxyServer_new load_balancer String.eqb];
      (eexists; split; [reflexivity|]; split; [apply Hlen|]);
      cbn [LoadBalancer_new policy]; intros cur Hc;
      [injection Hc as <-; lia | discriminate | discriminate].
Qed.

(** Under the C++ rule a time unit is what it is when the closing brace
    returns, except that it is undefined where that one returns. *)
Lemma run1TimeUnit_readings (sim : LBSimulator) (g : Globals) :
  LBSimulator_run1TimeUnit EndIsUndefined sim g
  = match LBSimulator_run1TimeUnit EndReturns sim g with
    | Ret _ => Undefined
    | Undefined => Undefined
    | Starved => Starved
    end.
Proof.
  unfold LBSimulator_run1TimeUnit, bind.
  destruct (Backend_processRequest (backend sim) g) as [[b1 g1]| |];
    cbn [obind]; try reflexivity.
  destruct (LBSimulator_collectStats _ g1) as [[sim1 g2]| |];
    cbn [obind]; try reflexivity.
  destruct (cleanup g2) as [[[] g3]| |]; cbn [obind]; try reflexivity.
  unfold Frontend_onReceiveRequest, bind.
  destruct (arrivals _ _ _ g3) as [[[ps b'] g4]| |]; reflexivity.
Qed.

Lemma simulator_after_readings (proxy_servers backend_servers : Z)
  (lb_policy : string) (ticks : nat) (tape : list N) :
  simulator_after EndIsUndefined proxy_servers backend_servers lb_policy (S ticks) tape
  = match simulator_after EndReturns proxy_servers backend_servers lb_policy 1 tape with
    | Ret _ => Undefined
    | Undefined => Undefined
    | Starved => Starved
    end.
Proof.
  unfold simulator_after, LBSimulator_new.
  unfold bind at 1 3. unfold bind at 1 2. unfold cleanup. cbn [obind].
  unfold ret at 1 2. cbn [obind run]. unfold bind.
  rewrite run1TimeUnit_readings.
  destruct (LBSimulator_run1TimeUnit EndReturns _ _) as [[sim1 g1]| |]; reflexivity.
Qed.



(** ** Degenerate configurations *)

Lemma int_range_nonpos (n : Z) : n <= 0 -> int_range n = [].
Proof.
  intros Hn. unfold int_range, seqZ.
  replace (Z.to_nat n) with 0%nat by lia. reflexivity.
Qed.

(** X10. A simulator built with no server (a count of 0 or less) cannot
    run a single time unit: the first [collectStats] takes the maximum of an
    empty vector of queue lengths and dereferences [end()].  This holds for
    every policy name, number of proxies and supply of random numbers. *)
Theorem simulation_without_servers_is_undefined {mr : MissingReturn}
  (proxy_servers backend_servers : Z) (lb_policy : string)
  (ticks : nat) (tape : list N) :
  backend_servers <= 0 ->
  simulator_after mr proxy_servers backend_servers lb_policy (S ticks) tape = Undefined.
Proof.
  intros Hbs. unfold simulator_after, LBSimulator_new.
  unfold bind at 1. unfold bind at 1. unfold cleanup. cbn [obind]. unfold ret at 1.
  cbn [obind run]. unfold bind at 1. rewrite run1TimeUnit_delivered.
  unfold bind at 1. rewrite delivered_no_servers; [reflexivity|].
  cbn [backend Backend_new upstream_servers].
  now rewrite int_range_nonpos.
Qed.

Lemma simulation_without_servers_is_undefined_witness :
  0 <= 0 /\ simulator_after EndReturns 3 0 "Round Robin" 1 example_tape = Undefined.
Proof.
  split; [lia|].
  apply (simulation_without_servers_is_undefined 3 0 "Round Robin" 0 example_tape).
  lia.
Defined.

Lemma LeastRequests_single_candidate (ar : list Z) (g : Globals) :
  LeastRequests_selectUpstreamServer ar 1 g = Starved.
Proof.
  unfold LeastRequests_selectUpstreamServer.
  unfold bind at 1. unfold rand.
  destruct (rand_tape g) as [|r tape]; [reflexivity|]. cbn [obind].
  unfold bind at 1. unfold lift at 1. rewrite int_rem_one. cbn [obind].
  unfold bind at 1. unfold with_tape. cbn [rand_tape].
  rewrite redraw_single_candidate. reflexivity.
Qed.

Lemma onSendRequest_single_server_starves (b : Backend) (i : Z) (g : Globals) :
  Backend_num_servers b = 1 ->
  ProxyServer_onSendRequest (ProxyServer_new b "Least Request" i) b g = Starved.
Proof.
  intros Hn. unfold ProxyServer_onSendRequest.
  change (load_balancer (ProxyServer_new b "Least Request" i))
    with (Some (LoadBalancer_new b LeastRequests)).
  cbv beta iota. rewrite Hn. unfold bind at 1. unfold selectUpstreamServer.
  cbn [LoadBalancer_new policy]. unfold bind at 1.
  rewrite LeastRequests_single_candidate. reflexivity.
Qed.

Lemma delivered_fresh (proxy_servers : Z) (lb_policy : string) (tape : list N) :
  delivered
    {| backend := Backend_new 1;
       frontend := Frontend_new proxy_servers (Backend_new 1) lb_policy;
       all_latency := []; request_cnt := 0; total_latency := 0;
       timer := 0; output := [] |}
    (initial_globals tape)
  = Ret ({| backend := Backend_new 1;
            frontend := Frontend_new proxy_servers (Backend_new 1) lb_policy;
            all_latency := []; request_cnt := 0; total_latency := 0;
            timer := 1; output := [0] |},
         initial_globals tape).
Proof. reflexivity. Qed.

(** X11. Least Request needs two servers.  With a single server the
    simulation hangs at the first request any proxy sends: if the first
    arrival trial succeeds ([rand() % proxies == 0]) the selection loop
    [while (server2 == server1)] is entered and no supply of random numbers,
    however long, lets the run return. *)
Theorem LeastRequests_single_server_never_returns {mr : MissingReturn}
  (proxy_servers : Z) (r : N) (tape : list N) (ticks : nat) :
  1 <= proxy_servers ->
  Z.of_N r mod proxy_servers = 0 ->
  simulator_after mr proxy_servers 1 "Least Request" (S ticks) (r :: tape) = Starved.
Proof.
  intros HP Hr. unfold simulator_after, LBSimulator_new.
  unfold bind at 1. unfold bind at 1. unfold cleanup. cbn [obind]. unfold ret at 1.
  cbn [obind run]. unfold bind at 1. rewrite run1TimeUnit_delivered.
  unfold bind at 1.
  change {| rand_tape := rand_tape (initial_globals (r :: tape));
            response_latency := []; request_proxy := []; response_server := [] |}
    with (initial_globals (r :: tape)).
  rewrite delivered_fresh. cbn [obind].
  unfold bind at 1. unfold cleanup. cbn [obind].
  unfold bind at 1. unfold Frontend_onReceiveRequest. cbn [frontend backend].
  unfold bind at 1. unfold Frontend_new. cbn [proxies].
  rewrite length_map. unfold int_range. rewrite length_seqZ, Z2Nat.id by lia.
  rewrite seqZ_cons by lia. cbn [map arrivals].
  unfold bind at 1. unfold arrival.
  unfold bind at 1. unfold rand. cbn [initial_globals rand_tape obind].
  unfold bind at 1. unfold lift at 1.
  rewrite int_rem_nonneg by lia. rewrite Hr. cbn [obind Z.eqb].
  rewrite onSendRequest_single_server_starves; reflexivity.
Qed.

Lemma LeastRequests_single_server_never_returns_witness :
  1 <= 3 /\ Z.of_N 6 mod 3 = 0 /\
  simulator_after EndReturns 3 1 "Least Request" 1 (6%N :: example_tape) = Starved.
Proof.
  split; [lia|]. split; [reflexivity|].
  apply (LeastRequests_single_server_never_returns 3 6%N example_tape 0);
    [lia|reflexivity].
Defined.

(** ** Round Robin draws no random number of its own *)

Lemma onReceiveResponse_round_robin (c : Z) (p p' : ProxyServer) :
  ProxyServer_onReceiveResponse c p = Ret p' ->
  round_robin_proxy p -> round_robin_proxy p'.
Proof.
  unfold ProxyServer_onReceiveResponse, LoadBalancer_onReceiveResponse.
  intros H (lb & cur & Hlb & Hpol). rewrite Hlb in H.
  destruct (vec_alter int_decr (active_requests lb) c) as [ar| |]; try discriminate.
  cbn in H. injection H as <-. eexists _, cur. split; [reflexivity|exact Hpol].
Qed.

Lemma deliver_each_round_robin (rp : list Z) :
  forall (rs : list Z) (ps ps' : list ProxyServer),
    deliver_each rp rs ps = Ret ps' ->
    Forall round_robin_proxy ps -> Forall round_robin_proxy ps'.
Proof.
  induction rp as [|a rp IH]; intros rs ps ps' H Hall; cbn [deliver_each] in H.
  - now injection H as <-.
  - destruct rs as [|c rs]; [discriminate|].
    destruct (vec_at ps a) as [p| |] eqn:Hat; try discriminate. cbn [obind] in H.
    destruct (ProxyServer_onReceiveResponse c p) as [p'| |] eqn:Hr; try discriminate.
    cbn [obind] in H. apply (IH _ _ _ H).
    apply Forall_insert; [exact Hall|].
    apply (onReceiveResponse_round_robin c p p' Hr).
    apply vec_at_Ret in Hat. rewrite Forall_lookup in Hall.
    exact (Hall _ _ (proj2 Hat)).
Qed.

Lemma delivered_round_robin (sim sim1 : LBSimulator) (g g1 : Globals) :
  delivered sim g = Ret (sim1, g1) ->
  Forall round_robin_proxy (proxies (frontend sim)) ->
  Forall round_robin_proxy (proxies (frontend sim1)).
Proof.
  unfold delivered. intros H Hall.
  apply bind_Ret in H as (b1 & g0 & _ & H).
  unfold LBSimulator_collectStats in H.
  apply bind_Ret in H as (g2 & g3 & _ & H).
  apply bind_Ret in H as (ps & g4 & Hd & H). apply lift_Ret in Hd as (Hd & _).
  apply bind_Ret in H as (hi & g5 & _ & H).
  apply bind_Ret in H as (lo & g6 & _ & H).
  unfold ret in H. injection H as <- _. cbn [frontend proxies] in *.
  rewrite deliver_is_deliver_each in Hd.
  exact (deliver_each_round_robin _ _ _ _ Hd Hall).
Qed.

Lemma onSendRequest_round_robin (NP NS : Z) (p : ProxyServer) (b : Backend)
  (g : Globals) :
  0 < NS <= INT_MAX ->
  Z.of_nat (length (upstream_servers b)) = NS ->
  safe_proxy NP NS p ->
  round_robin_proxy p ->
  exists p' b',
    ProxyServer_onSendRequest p b g = Ret ((p', b'), g) /\ round_robin_proxy p'.
Proof.
  intros HN Hlenb (Hid & lb & Hlb & Hlen & Hcur) (lb0 & cur & Hlb0 & Hpol).
  rewrite Hlb in Hlb0. injection Hlb0 as <-.
  specialize (Hcur cur Hpol).
  unfold ProxyServer_onSendRequest. rewrite Hlb.
  assert (Hnum : Backend_num_servers b = NS).
  { unfold Backend_num_servers. rewrite Hlenb.
    apply wrap_int_small. unfold INT_MIN. lia. }
  rewrite Hnum. unfold selectUpstreamServer. rewrite Hpol.
  unfold bind at 1. unfold bind at 1. unfold lift at 1.
  rewrite RoundRobin_select_step by lia. cbn [obind]. unfold ret at 1. cbn [obind].
  pose proof (Z.mod_pos_bound (cur + 1) NS ltac:(lia)) as Hs.
  unfold bind at 1. unfold lift at 1. unfold LoadBalancer_onSendRequest.
  cbn [active_requests policy].
  rewrite vec_alter_inside by lia. cbn [obind].
  unfold bind at 1. unfold lift at 1. unfold Backend_onReceiveRequest.
  rewrite vec_alter_inside by lia. cbn [obind]. unfold ret.
  eexists _, _. split; [reflexivity|].
  eexists _, _. split; reflexivity.
Qed.

Lemma arrivals_round_robin (NP NS n : Z) (ps : list ProxyServer) :
  0 < n ->
  0 < NS <= INT_MAX ->
  forall (b : Backend) (g : Globals),
    Z.of_nat (length (upstream_servers b)) = NS ->
    Forall (safe_server NP NS) (upstream_servers b) ->
    Forall (safe_proxy NP NS) ps ->
    Forall round_robin_proxy ps ->
    (length ps <= length (rand_tape g))%nat ->
    exists ps' b' g',
      arrivals n ps b g = Ret ((ps', b'), g') /\
      Forall round_robin_proxy ps' /\
      rand_tape g' = drop (length ps) (rand_tape g).
Proof.
  intros Hn HN. induction ps as [|p ps IH];
    intros b g Hlenb Hservers Hall Hrr Htape; cbn [arrivals].
  - exists [], b, g. unfold ret. auto.
  - apply Forall_cons in Hall as [Hp Hall]. apply Forall_cons in Hrr as [Hrp Hrr].
    destruct (rand_tape g) as [|r tape] eqn:Ht; [cbn in Htape; lia|].
    set (g1 := {| rand_tape := tape; response_latency := response_latency g;
                  request_proxy := request_proxy g;
                  response_server := response_server g |}).
    assert (Harr : exists p' b',
               arrival n p b g = Ret ((p', b'), g1) /\
               round_robin_proxy p' /\
               safe_proxy NP NS p' /\
               Forall (safe_server NP NS) (upstream_servers b') /\
               length (upstream_servers b') = length (upstream_servers b)).
    { unfold arrival, bind at 1, rand. rewrite Ht. cbn [obind]. fold g1.
      unfold bind at 1, lift. rewrite int_rem_nonneg by lia. cbn [obind].
      destruct (Z.of_N r mod n =? 0).
      - destruct (onSendRequest_round_robin NP NS p b g1 HN Hlenb Hp Hrp)
          as (p' & b' & Hsend & Hrp').
        pose proof (onSendRequest_sat NP NS p b g1 HN Hlenb Hservers Hp) as Hsat.
        rewrite Hsend in Hsat. cbn in Hsat. destruct Hsat as (A & B & C & _).
        exists p', b'. auto.
      - exists p, b. unfold ret. auto. }
    destruct Harr as (p' & b' & Harr & Hrp' & Hp' & Hservers' & Hlen').
    destruct (IH b' g1) as (ps' & b'' & g' & Hrest & Hrr' & Htape');
      [congruence | assumption | assumption | assumption
       | cbn in Htape |- *; lia |].
    exists (p' :: ps'), b'', g'. unfold bind at 1. rewrite Harr. cbn [obind].
    unfold bind at 1. rewrite Hrest. cbn [obind]. unfold ret.
    split; [reflexivity|]. split; [now constructor|].
    rewrite Htape'. reflexivity.
Qed.

Lemma run1TimeUnit_round_robin (sim : LBSimulator) (g : Globals) :
  safe_sim sim ->
  safe_buffers (Z.of_nat (length (proxies (frontend sim))))
               (Z.of_nat (length (upstream_servers (backend sim)))) g ->
  Forall round_robin_proxy (proxies (frontend sim)) ->
  (length (proxies (frontend sim)) <= length (rand_tape g))%nat ->
  exists sim' g',
    LBSimulator_run1TimeUnit EndReturns sim g = Ret (sim', g') /\
    safe_sim sim' /\
    safe_buffers (Z.of_nat (length (proxies (frontend sim'))))
                 (Z.of_nat (length (upstream_servers (backend sim')))) g' /\
    Forall round_robin_proxy (proxies (frontend sim')) /\
    length (proxies (frontend sim')) = length (proxies (frontend sim)) /\
    rand_tape g' = drop (length (proxies (frontend sim))) (rand_tape g).
Proof.
  intros Hsafe Hbuf Hrr Htape.
  rewrite run1TimeUnit_delivered.
  destruct (delivered_safe sim g Hsafe Hbuf)
    as (sim1 & g1 & Hrun & (HN & Hservers & Hproxies) & Ht1 & Hlen1).
  pose proof (delivered_round_robin _ _ _ _ Hrun Hrr) as Hrr1.
  unfold bind at 1. rewrite Hrun. cbn [obind].
  unfold bind at 1, cleanup. cbn [obind].
  set (g2 := {| rand_tape := rand_tape g1; response_latency := [];
                request_proxy := []; response_server := [] |}).
  rewrite Frontend_onReceiveRequest_returns.
  destruct (proxies (frontend sim1)) as [|p0 ps0] eqn:Hps.
  { rewrite <- Hlen1. cbn. unfold ret. eexists _, _. split; [reflexivity|].
    unfold safe_sim, safe_buffers. cbn. rewrite drop_0.
    split; [auto|]. split; [auto|]. auto. }
  rewrite <- Hps in *.
  assert (HP : 0 < Z.of_nat (length (proxies (frontend sim1))))
    by (rewrite Hps; cbn; lia).
  assert (HN' : 0 < Z.of_nat (length (upstream_servers (backend sim1))) <= INT_MAX)
    by lia.
  assert (Htape2 : (length (proxies (frontend sim1)) <= length (rand_tape g2))%nat)
    by (cbn [g2 rand_tape]; rewrite Ht1, Hlen1; exact Htape).
  destruct (arrivals_round_robin _ _ _ (proxies (frontend sim1)) HP HN'
              (backend sim1) g2 eq_refl Hservers Hproxies Hrr1 Htape2)
    as (ps' & b' & g' & Harr & Hrr' & Htape').
  pose proof (arrivals_sat _ _ _ (proxies (frontend sim1)) HP HN'
                (backend sim1) g2 eq_refl Hservers Hproxies) as Hsat.
  rewrite Harr in Hsat. cbn in Hsat. destruct Hsat as (A & B & C & D & _ & E & F).
  unfold bind. rewrite Harr. cbn [obind]. unfold ret.
  eexists _, _. split; [reflexivity|].
  unfold safe_sim, safe_buffers. cbn [backend frontend proxies].
  rewrite B, D, E, F, Htape'. cbn [g2 request_proxy response_server rand_tape].
  rewrite Ht1.
  split; [split; [exact HN|split; assumption]|].
  split; [split; [reflexivity|split; constructor]|].
  split; [assumption|]. split; [exact Hlen1|]. now rewrite Hlen1.
Qed.

Lemma run_round_robin (n : nat) :
  forall (sim : LBSimulator) (g : Globals),
    safe_sim sim ->
    safe_buffers (Z.of_nat (length (proxies (frontend sim))))
                 (Z.of_nat (length (upstream_servers (backend sim)))) g ->
    Forall round_robin_proxy (proxies (frontend sim)) ->
    (n * length (proxies (frontend sim)) <= length (rand_tape g))%nat ->
    exists sim' g',
      run EndReturns n sim g = Ret (sim', g') /\
      rand_tape g' = drop (n * length (proxies (frontend sim))) (rand_tape g).
Proof.
  induction n as [|n IH]; intros sim g Hsafe Hbuf Hrr Htape; cbn [run].
  - exists sim, g. unfold ret. split; [reflexivity|]. now rewrite drop_0.
  - destruct (run1TimeUnit_round_robin sim g Hsafe Hbuf Hrr)
      as (sim1 & g1 & Hrun & Hsafe1 & Hbuf1 & Hrr1 & Hlen1 & Ht1); [lia|].
    assert (Htape1 : (n * length (proxies (frontend sim1)) <= length (rand_tape g1))%nat)
      by (rewrite Ht1, Hlen1, length_drop; lia).
    destruct (IH sim1 g1 Hsafe1 Hbuf1 Hrr1 Htape1) as (sim' & g' & Hrest & Ht').
    exists sim', g'. unfold bind. rewrite Hrun. cbn [obind].
    split; [exact Hrest|].
    rewrite Ht', Ht1, Hlen1, drop_drop. f_equal; lia.
Qed.

(** X12. With the Round Robin policy the only random numbers a run uses
    are the arrival trials, one per proxy and time unit.  Given between 1
    and [INT_MAX] servers and at least [ticks * proxies] results of
    [rand()]: if the closing brace of [Frontend::onReceiveRequest] returns
    to the caller, the simulation of [ticks] time units returns and has
    consumed exactly the first [ticks * proxies] of them; under the C++
    rule a simulation of one or more time units is undefined. *)
Theorem RoundRobin_draws_only_arrival_trials (proxy_servers backend_servers : Z)
  (ticks : nat) (tape : list N) :
  1 <= backend_servers <= INT_MAX ->
  (ticks * Z.to_nat proxy_servers <= length tape)%nat ->
  (exists sim g,
     simulator_after EndReturns proxy_servers backend_servers "Round Robin" ticks tape
     = Ret (sim, g) /\
     rand_tape g = drop (ticks * Z.to_nat proxy_servers) tape) /\
  ((0 < ticks)%nat ->
   simulator_after EndIsUndefined proxy_servers backend_servers "Round Robin" ticks tape
   = Undefined).
Proof.
  intros Hbs.
  assert (Hret : forall n,
             (n * Z.to_nat proxy_servers <= length tape)%nat ->
             exists sim g,
               simulator_after EndReturns proxy_servers backend_servers
                 "Round Robin" n tape = Ret (sim, g) /\
               rand_tape g = drop (n * Z.to_nat proxy_servers) tape).
  { intros n Htape. unfold simulator_after.
    destruct (LBSimulator_new_safe proxy_servers backend_servers "Round Robin"
                (initial_globals tape) ltac:(left; reflexivity) Hbs)
      as (sim & g' & Hnew & Hsafe & Hrp & Hrs).
    pose proof Hnew as Hnew'. unfold LBSimulator_new in Hnew'.
    apply bind_Ret in Hnew' as ([] & g1 & Hc & Hnew').
    unfold cleanup in Hc. injection Hc as <-.
    unfold ret in Hnew'. injection Hnew' as <- <-.
    unfold bind. rewrite Hnew. cbn [obind].
    set (sim := {| backend := Backend_new backend_servers |}) in *.
    assert (Hlen : length (proxies (frontend sim)) = Z.to_nat proxy_servers).
    { cbn. unfold int_range. now rewrite length_map, length_seqZ. }
    destruct (run_round_robin n sim
                {| rand_tape := tape; response_latency := [];
                   request_proxy := []; response_server := [] |})
      as (sim' & g' & Hrun & Ht).
    - exact Hsafe.
    - unfold safe_buffers. cbn. repeat split; constructor.
    - cbn. apply Forall_map, Forall_seqZ. intros j _.
      eexists _, 0. split; reflexivity.
    - rewrite Hlen. exact Htape.
    - exists sim', g'. cbn [initial_globals rand_tape] in *.
      split; [exact Hrun|]. rewrite Ht, Hlen. reflexivity. }
  intros Htape. split; [exact (Hret ticks Htape)|].
  intros Hpos. destruct ticks as [|n]; [lia|].
  rewrite simulator_after_readings.
  destruct (Hret 1%nat ltac:(lia)) as (sim & g & Hrun & _).
  rewrite Hrun. reflexivity.
Qed.

Lemma RoundRobin_draws_only_arrival_trials_witness :
  1 <= 3 <= INT_MAX /\
  (200 * Z.to_nat 5 <= length example_tape)%nat /\
  (exists sim g,
     simulator_after EndReturns 5 3 "Round Robin" 200 example_tape = Ret (sim, g) /\
     rand_tape g = drop (200 * Z.to_nat 5) example_tape) /\
  simulator_after EndIsUndefined 5 3 "Round Robin" 200 example_tape = Undefined.
Proof.
  assert (Hbs : 1 <= 3 <= INT_MAX) by (unfold INT_MAX; lia).
  assert (Htape : (200 * Z.to_nat 5 <= length example_tape)%nat)
    by (vm_compute; lia).
  split; [exact Hbs|]. split; [exact Htape|].
  destruct (RoundRobin_draws_only_arrival_trials 5 3 200 example_tape Hbs Htape)
    as (Hret & Hend).
  split; [exact Hret|]. apply Hend. lia.
Defined.

(** ** The report on a history of at least 1000 samples *)

(** X13. Once 1000 requests have completed (and while the count fits in
    an [int]) [latency()] is defined.  It leaves the history sorted: the
    new history is a rearrangement of the old one that splits as
    [low ++ printed :: high], with nothing in [low] above the value written
    to [std::cout], nothing in [high] below it, and exactly
    [request_cnt / 1000 - 1] samples in [high].  The value returned is the
    quotient [total_latency / request_cnt] truncated toward zero, and no
    other member changes. *)
Theorem latency_report (sim : LBSimulator) :
  request_cnt sim = Z.of_nat (length (all_latency sim)) ->
  (1000 <= length (all_latency sim))%nat ->
  Z.of_nat (length (all_latency sim)) <= INT_MAX ->
  exists low printed high,
    LBSimulator_latency sim
    = Ret ({| backend := backend sim; frontend := frontend sim;
              all_latency := low ++ printed :: high;
              request_cnt := request_cnt sim;
              total_latency := total_latency sim;
              timer := timer sim; output := output sim |},
           printed,
           wrap_int (Z.quot (total_latency sim) (request_cnt sim))) /\
    low ++ printed :: high ≡ₚ all_latency sim /\
    Sorted Z.le (low ++ printed :: high) /\
    Forall (fun x => x <= printed) low /\
    Forall (fun x => printed <= x) high /\
    Z.of_nat (length high) = request_cnt sim / 1000 - 1.
Proof.
  intros Hcnt Hlen Hmax.
  destruct (latency_tail_long_history sim Hcnt Hlen Hmax) as (printed & Htail & Hat).
  set (sorted := merge_sort Z.le (all_latency sim)) in *.
  set (k := (length (all_latency sim) - Z.to_nat (request_cnt sim / 1000))%nat) in *.
  assert (Hs : length sorted = length (all_latency sim))
    by (unfold sorted; now rewrite merge_sort_Permutation).
  assert (Hq : 1 <= request_cnt sim / 1000 <= Z.of_nat (length (all_latency sim))).
  { rewrite Hcnt. split.
    - apply Z.div_le_lower_bound; lia.
    - apply Z.div_le_upper_bound; lia. }
  pose proof (take_drop_middle sorted k printed Hat) as Hsplit.
  exists (take k sorted), printed, (drop (S k) sorted).
  rewrite Hsplit. split; [|split; [|split; [|split; [|split]]]].
  - unfold LBSimulator_latency. rewrite Htail. cbn [obind].
    rewrite latency_mean_positive by lia. reflexivity.
  - apply merge_sort_Permutation.
  - apply Sorted_merge_sort. intros x y. lia.
  - assert (Hss : StronglySorted Z.le sorted).
    { apply StronglySorted_merge_sort.
      - intros x y z. apply Z.le_trans.
      - intros x y. lia. }
    rewrite <- Hsplit in Hss. apply StronglySorted_app in Hss as (Hle & _ & _).
    apply Forall_forall. intros x Hx. apply (Hle x printed Hx). left.
  - assert (Hss : StronglySorted Z.le sorted).
    { apply StronglySorted_merge_sort.
      - intros x y z. apply Z.le_trans.
      - intros x y. lia. }
    rewrite <- Hsplit in Hss. apply StronglySorted_app in Hss as (_ & _ & Hss).
    inversion Hss; subst; assumption.
  - rewrite length_drop, Hs. unfold k. lia.
Qed.

Lemma latency_report_witness :
  exists low printed high,
    LBSimulator_latency (simulator_with_history (map Z.of_nat (seq 1 2500)))
    = Ret ({| backend := Backend_new 1;
              frontend := Frontend_new 1 (Backend_new 1) "Round Robin";
              all_latency := low ++ printed :: high;
              request_cnt := 2500;
              total_latency := 3126250;
              timer := 0; output := [] |},
           printed, 1250) /\
    Z.of_nat (length high) = 1.
Proof.
  set (sim := simulator_with_history (map Z.of_nat (seq 1 2500))).
  assert (Hcnt : request_cnt sim = Z.of_nat (length (all_latency sim)))
    by reflexivity.
  assert (Hlen : (1000 <= length (all_latency sim))%nat)
    by (vm_compute; lia).
  assert (Hmax : Z.of_nat (length (all_latency sim)) <= INT_MAX)
    by (vm_compute; discriminate).
  destruct (latency_report sim Hcnt Hlen Hmax)
    as (low & printed & high & Hrun & _ & _ & _ & _ & Hhigh).
  exists low, printed, high. split; [exact Hrun|exact Hhigh].
Defined.

(** ** Bounds on the recorded latencies *)

Lemma processRequest_server_ok (T : Z) (s s' : UpstreamServer) (g g' : Globals) :
  UpstreamServer_processRequest s g = Ret (s', g') ->
  0 <= T < INT_MAX ->
  server_ok T s ->
  server_ok (T + 1) s' /\
  exists added,
    response_latency g' = response_latency g ++ added /\
    Forall (fun l => 100 <= l <= T + 1) added /\
    (length added <= Z.to_nat concurrency)%nat.
Proof.
  intros Hrun HT (Hpar & Htim & Hst & Hlat).
  pose proof (processRequest_timers_ok s s' g g' Hrun Hpar
                ltac:(rewrite Hst; unfold INT_MAX; lia) Htim) as Htim'.
  destruct (processRequest_parallel s g Hpar)
    as (k & s1 & Hk & Hrun1 & Ht & Hsrc & Hl & Hid & Hst' & Hz & Hfront & Hpar').
  rewrite Hrun in Hrun1. injection Hrun1 as Hs Hg. subst s1.
  set (W := map int_decr (take (Z.to_nat concurrency) (service_timers s))
            ++ drop (Z.to_nat concurrency) (service_timers s)) in *.
  set (L := map int_incr (latencies s)) in *.
  assert (HA : forall i w m,
             W !! i = Some w -> L !! i = Some m ->
             0 <= m <= T + 1 /\ 100 <= m + w).
  { intros i w m Hw Hm. unfold W in Hw. rewrite timers_window_lookup in Hw.
    unfold L in Hm.
    change (map int_incr (latencies s)) with (int_incr <$> latencies s) in Hm.
    rewrite list_lookup_fmap in Hm.
    destruct (latencies s !! i) as [l|] eqn:Hli; [|discriminate].
    cbn in Hm. injection Hm as <-.
    destruct (service_timers s !! i) as [t|] eqn:Hti;
      [|destruct (decide (i < Z.to_nat concurrency)%nat); discriminate].
    destruct (Hlat i t l Hti Hli) as (Hl0 & Hsum).
    destruct Htim as (Hrange & _). rewrite Forall_lookup in Hrange.
    specialize (Hrange _ _ Hti). cbn in Hrange.
    rewrite int_incr_small by (unfold INT_MIN, INT_MAX in *; lia).
    destruct (decide (i < Z.to_nat concurrency)%nat); cbn in Hw; injection Hw as <-.
    - rewrite int_decr_small by (unfold INT_MIN, INT_MAX in *; lia). lia.
    - lia. }
  assert (HWlen : length W = length (service_timers s)).
  { unfold W. rewrite length_app, length_map, length_take, length_drop. lia. }
  split.
  - split; [exact Hpar'|]. split; [exact Htim'|]. split; [congruence|].
    intros i t l Hti Hli. rewrite Ht, lookup_drop in Hti.
    rewrite Hl, lookup_drop in Hli. rewrite Hst', Hst. exact (HA _ _ _ Hti Hli).
  - exists (take k L). rewrite Forall_lookup in Hz.
    split; [rewrite Hg; reflexivity|]. split.
    + apply Forall_lookup. intros i m Hm.
      apply lookup_take_Some in Hm as (Hm & Hik).
      destruct (lookup_lt_is_Some_2 W i) as [w Hw]; [lia|].
      assert (Hw0 : w = 0) by (apply (Hz i); rewrite lookup_take_lt by lia; exact Hw).
      destruct (HA i w m Hw Hm). lia.
    + rewrite length_take.
      destruct (decide (k <= Z.to_nat concurrency)%nat) as [Hle|Hgt]; [lia|].
      exfalso.
      destruct (lookup_lt_is_Some_2 W (Z.to_nat concurrency)) as [w Hw]; [lia|].
      assert (Hw0 : w = 0) by (apply (Hz (Z.to_nat concurrency));
                               rewrite lookup_take_lt by lia; exact Hw).
      unfold W in Hw. rewrite timers_window_lookup in Hw.
      destruct (decide (Z.to_nat concurrency < Z.to_nat concurrency)%nat); [lia|].
      destruct Htim as (Hrange & _). rewrite Forall_lookup in Hrange.
      specialize (Hrange _ _ Hw). cbn in Hrange. lia.
Qed.

Lemma enqueue_server_ok (T source : Z) (s : UpstreamServer) :
  0 <= T ->
  server_ok T s ->
  server_ok T (UpstreamServer_onReceiveRequest source s).
Proof.
  intros HT ((Hp1 & Hp2) & Htim & Hst & Hlat). split; [|split; [|split]].
  - unfold parallel_deques. cbn. rewrite !length_app. cbn. lia.
  - apply enqueue_timers_ok; [lia|assumption].
  - exact Hst.
  - intros i t l. cbn [UpstreamServer_onReceiveRequest service_timers latencies
                       service_time].
    destruct (decide (i < length (service_timers s))%nat) as [Hi|Hi].
    + rewrite !lookup_app_l by lia. apply Hlat.
    + rewrite !lookup_app_r by lia. rewrite Hp2.
      destruct (i - length (service_timers s))%nat as [|m]; cbn;
        [|discriminate].
      intros [= <-] [= <-]. lia.
Qed.

Lemma for_each_processRequest_server_ok (T : Z) (servers : list UpstreamServer) :
  forall (g : Globals) (servers' : list UpstreamServer) (g' : Globals),
    for_each UpstreamServer_processRequest servers g = Ret (servers', g') ->
    0 <= T < INT_MAX ->
    Forall (server_ok T) servers ->
    Forall (server_ok (T + 1)) servers' /\
    length servers' = length servers /\
    exists added,
      response_latency g' = response_latency g ++ added /\
      Forall (fun l => 100 <= l <= T + 1) added /\
      (length added <= length servers * Z.to_nat concurrency)%nat.
Proof.
  induction servers as [|s servers IH]; intros g servers' g' H HT Hall;
    cbn [for_each] in H.
  - unfold ret in H. injection H as <- <-. split; [constructor|].
    split; [reflexivity|].
    exists []. rewrite app_nil_r. split; [reflexivity|]. split; [constructor|].
    cbn. lia.
  - apply Forall_cons in Hall as [Hs Hall].
    apply bind_Ret in H as (s1 & g1 & Hrun & H).
    apply bind_Ret in H as (servers1 & g2 & Hrest & H).
    unfold ret in H. injection H as <- <-.
    destruct (processRequest_server_ok T s s1 g g1 Hrun HT Hs)
      as (Hs1 & added1 & Hg1 & Hadd1 & Hcap1).
    destruct (IH g1 servers1 g2 Hrest HT Hall)
      as (Hall1 & Hlen1 & added2 & Hg2 & Hadd2 & Hcap2).
    split; [now constructor|]. split; [cbn; lia|].
    exists (added1 ++ added2). rewrite Hg2, Hg1, app_assoc.
    split; [reflexivity|]. split; [apply Forall_app; auto|].
    rewrite length_app. cbn [length]. lia.
Qed.

Lemma arrivals_server_ok (T n : Z) (ps : list ProxyServer) :
  0 <= T ->
  forall (b : Backend) (g : Globals) ps' b' g',
    arrivals n ps b g = Ret ((ps', b'), g') ->
    Forall (server_ok T) (upstream_servers b) ->
    Forall (server_ok T) (upstream_servers b') /\
    length (upstream_servers b') = length (upstream_servers b).
Proof.
  intros HT. induction ps as [|p ps IH]; intros b g ps' b' g'; cbn [arrivals].
  - unfold ret. intros [= <- <- <-]. auto.
  - intros H Hall. apply bind_Ret in H as ([p1 b1] & g1 & Hp & H).
    apply bind_Ret in H as ([ps2 b2] & g2 & Hps & H).
    unfold ret in H. injection H as <- <- <-.
    assert (H1 : Forall (server_ok T) (upstream_servers b1) /\
                 length (upstream_servers b1) = length (upstream_servers b)).
    { destruct (arrival_effect _ _ _ _ _ _ _ Hp) as [(_ & -> & _)|(g0 & _ & Hsend)];
        [auto|].
      destruct (onSendRequest_effect _ _ _ _ _ _ Hsend)
        as (lb & lb' & j & _ & _ & _ & _ & _ & _ & Hb & _).
      rewrite Hb, length_alter. split; [|reflexivity].
      apply Forall_alter; [assumption|].
      intros s _ Hs. now apply enqueue_server_ok. }
    destruct H1 as (Hall1 & Hlen1).
    destruct (IH _ _ _ _ _ Hps Hall1) as (Hall2 & Hlen2).
    split; [assumption|congruence].
Qed.

Lemma collectStats_history (sim0 sim1 : LBSimulator) (g g1 : Globals) :
  LBSimulator_collectStats sim0 g = Ret (sim1, g1) ->
  backend sim1 = backend sim0 /\
  all_latency sim1 = all_latency sim0 ++ response_latency g.
Proof.
  unfold LBSimulator_collectStats. intros H.
  apply bind_Ret in H as (g2 & g0 & Hg & H).
  unfold get_globals in Hg. injection Hg as <- <-.
  apply bind_Ret in H as (ps & g0 & Hd & H). apply lift_Ret in Hd as (Hd & ->).
  apply bind_Ret in H as (hi & g0 & Hhi & H). apply lift_Ret in Hhi as (_ & ->).
  apply bind_Ret in H as (lo & g0 & Hlo & H). apply lift_Ret in Hlo as (_ & ->).
  unfold ret in H. injection H as <- <-. split; reflexivity.
Qed.

Lemma run1TimeUnit_server_ok {mr : MissingReturn} (T : Z) (sim sim' : LBSimulator) (g g' : Globals) :
  LBSimulator_run1TimeUnit mr sim g = Ret (sim', g') ->
  0 <= T < INT_MAX ->
  Forall (server_ok T) (upstream_servers (backend sim)) ->
  Forall (fun l => 100 <= l <= T) (all_latency sim) ->
  response_latency g = [] ->
  Forall (server_ok (T + 1)) (upstream_servers (backend sim')) /\
  Forall (fun l => 100 <= l <= T + 1) (all_latency sim') /\
  response_latency g' = [] /\
  length (upstream_servers (backend sim')) = length (upstream_servers (backend sim)) /\
  (length (all_latency sim')
   <= length (all_latency sim)
      + length (upstream_servers (backend sim)) * Z.to_nat concurrency)%nat.
Proof.
  intros H HT Hservers Hhist Hempty.
  pose proof (run1TimeUnit_stats _ _ _ _ H) as (s1 & g1' & _ & _ & _ & _ & _ & _ & _ & Hb & _).
  rewrite run1TimeUnit_delivered in H.
  apply bind_Ret in H as (sim1 & g1 & Hd & H).
  apply bind_Ret in H as ([] & g2 & Hc & H).
  apply bind_Ret in H as ([f2 b2] & g3 & Harr & H).
  unfold ret in H. injection H as <- <-.
  apply Frontend_onReceiveRequest_Ret in Harr as (_ & Harr).
  apply bind_Ret in Harr as ([ps b3] & g4 & Harr & H).
  unfold ret in H. injection H as <- <- <-.
  unfold delivered in Hd.
  apply bind_Ret in Hd as (b1 & g0 & Hproc & Hcol).
  unfold Backend_processRequest in Hproc.
  apply bind_Ret in Hproc as (servers1 & g5 & Hfor & Hproc).
  unfold ret in Hproc. injection Hproc as <- <-.
  destruct (for_each_processRequest_server_ok T _ _ _ _ Hfor HT Hservers)
    as (Hservers1 & Hlen1 & added & Hg5 & Hadded & Hcap).
  apply collectStats_history in Hcol as (Hback & Hall).
  cbn [backend all_latency] in Hback, Hall.
  destruct (arrivals_server_ok (T + 1) _ _ ltac:(lia) _ _ _ _ _ Harr) as (Hs3 & Hl3).
  { rewrite Hback. exact Hservers1. }
  cbn [backend all_latency].
  split; [exact Hs3|]. split; [|split; [exact Hb|split]].
  - rewrite Hall, Hg5, Hempty. cbn [app]. apply Forall_app. split; [|exact Hadded].
    eapply Forall_impl; [exact Hhist|]. cbn. intros l Hl. lia.
  - rewrite Hl3, Hback. exact Hlen1.
  - rewrite Hall, Hg5, Hempty. cbn [app]. rewrite length_app. lia.
Qed.

Lemma run_server_ok {mr : MissingReturn} (n : nat) :
  forall (T : Z) (sim sim' : LBSimulator) (g g' : Globals),
    run mr n sim g = Ret (sim', g') ->
    0 <= T -> T + Z.of_nat n <= INT_MAX ->
    Forall (server_ok T) (upstream_servers (backend sim)) ->
    Forall (fun l => 100 <= l <= T) (all_latency sim) ->
    response_latency g = [] ->
    Forall (fun l => 100 <= l <= T + Z.of_nat n) (all_latency sim') /\
    (length (all_latency sim')
     <= length (all_latency sim)
        + n * (length (upstream_servers (backend sim)) * Z.to_nat concurrency))%nat.
Proof.
  induction n as [|n IH]; intros T sim sim' g g' H HT Hmax Hservers Hhist Hempty;
    cbn [run] in H.
  - unfold ret in H. injection H as <- <-. split; [|lia].
    eapply Forall_impl; [exact Hhist|]. cbn. intros l Hl. lia.
  - apply bind_Ret in H as (sim1 & g1 & Hrun & H).
    destruct (run1TimeUnit_server_ok T _ _ _ _ Hrun ltac:(lia) Hservers Hhist Hempty)
      as (Hservers1 & Hhist1 & Hempty1 & Hlen1 & Hcap1).
    destruct (IH (T + 1) _ _ _ _ H ltac:(lia) ltac:(lia) Hservers1 Hhist1 Hempty1)
      as (Hfinal & Hcap).
    split.
    + eapply Forall_impl; [exact Hfinal|]. cbn. intros l Hl. lia.
    + rewrite Hlen1 in Hcap. lia.
Qed.

Lemma LBSimulator_new_server_ok (proxy_servers backend_servers : Z)
  (lb_policy : string) (g g0 : Globals) (sim0 : LBSimulator) :
  LBSimulator_new proxy_servers backend_servers lb_policy g = Ret (sim0, g0) ->
  Forall (server_ok 0) (upstream_servers (backend sim0)) /\
  length (upstream_servers (backend sim0)) = Z.to_nat backend_servers /\
  all_latency sim0 = [] /\
  response_latency g0 = [].
Proof.
  unfold LBSimulator_new. intros Hnew.
  apply bind_Ret in Hnew as ([] & g1 & Hc & Hnew).
  unfold cleanup in Hc. injection Hc as <-.
  unfold ret in Hnew. injection Hnew as <- <-.
  cbn [backend Backend_new upstream_servers all_latency response_latency].
  split; [|split; [|split; reflexivity]].
  - apply Forall_map, Forall_forall. intros j _.
    destruct (UpstreamServer_new_inv j) as (Hp & Ht & _).
    split; [exact Hp|]. split; [exact Ht|]. split; [reflexivity|].
    intros i t l Hi. destruct i; discriminate.
  - unfold int_range. now rewrite length_map, length_seqZ.
Qed.

(** X14. Every latency the simulator records lies between the service
    time, 100 time units, and the number of time units that have been
    simulated: no request completes faster than it can be served, and none
    is reported to have waited longer than the run has lasted.  This holds
    for every configuration and every supply of random numbers, as long as
    the number of time units fits in an [int]. *)
Theorem recorded_latencies_bounds {mr : MissingReturn} (proxy_servers backend_servers : Z)
  (lb_policy : string) (ticks : nat) (tape : list N)
  (sim : LBSimulator) (g : Globals) :
  Z.of_nat ticks <= INT_MAX ->
  simulator_after mr proxy_servers backend_servers lb_policy ticks tape = Ret (sim, g) ->
  Forall (fun l => 100 <= l <= Z.of_nat ticks) (all_latency sim).
Proof.
  intros Hmax H. unfold simulator_after in H.
  apply bind_Ret in H as (sim0 & g0 & Hnew & Hrun).
  apply LBSimulator_new_server_ok in Hnew as (Hservers & _ & Hhist & Hempty).
  apply (run_server_ok ticks 0 _ _ _ _ Hrun); try lia; try assumption.
  rewrite Hhist. constructor.
Qed.

Lemma recorded_latencies_bounds_witness :
  exists sim g,
    simulator_after EndReturns 3 2 "Random Select" 400 example_tape = Ret (sim, g) /\
    (10 < length (all_latency sim))%nat /\
    Forall (fun l => 100 <= l <= Z.of_nat 400) (all_latency sim).
Proof.
  assert (Hex : exists sim g,
             simulator_after EndReturns 3 2 "Random Select" 400 example_tape = Ret (sim, g) /\
             (10 <? length (all_latency sim))%nat = true).
  { eexists. eexists. split; [vm_compute; reflexivity|].
    vm_compute. reflexivity. }
  destruct Hex as (sim & g & Hrun & Hlen).
  exists sim, g. split; [exact Hrun|]. split; [now apply Nat.ltb_lt|].
  apply (recorded_latencies_bounds (mr := EndReturns) 3 2 "Random Select" 400 example_tape sim g);
    [unfold INT_MAX; lia|exact Hrun].
Defined.

(** X15. The capacity of the backend bounds the throughput: a server
    completes at most [concurrency] = 6 requests in a time unit, so after
    [ticks] time units at most [ticks * servers * 6] latencies have been
    recorded, whatever the policy and the arrivals. *)
Theorem completions_bounded_by_capacity {mr : MissingReturn} (proxy_servers backend_servers : Z)
  (lb_policy : string) (ticks : nat) (tape : list N)
  (sim : LBSimulator) (g : Globals) :
  Z.of_nat ticks <= INT_MAX ->
  simulator_after mr proxy_servers backend_servers lb_policy ticks tape = Ret (sim, g) ->
  (length (all_latency sim)
   <= ticks * (Z.to_nat backend_servers * Z.to_nat concurrency))%nat.
Proof.
  intros Hmax H. unfold simulator_after in H.
  apply bind_Ret in H as (sim0 & g0 & Hnew & Hrun).
  apply LBSimulator_new_server_ok in Hnew as (Hservers & Hlen & Hhist & Hempty).
  destruct (run_server_ok ticks 0 _ _ _ _ Hrun) as (_ & Hcap);
    try lia; try assumption.
  - rewrite Hhist. constructor.
  - rewrite Hhist, Hlen in Hcap. cbn [length] in Hcap. lia.
Qed.

Lemma completions_bounded_by_capacity_witness :
  exists sim g,
    simulator_after EndReturns 1 1 "Round Robin" 300 example_tape = Ret (sim, g) /\
    (length (all_latency sim) <= 300 * (Z.to_nat 1 * Z.to_nat concurrency))%nat /\
    (0 < length (all_latency sim))%nat.
Proof.
  assert (Hex : exists sim g,
             simulator_after EndReturns 1 1 "Round Robin" 300 example_tape = Ret (sim, g) /\
             (0 <? length (all_latency sim))%nat = true).
  { eexists. eexists. split; [vm_compute; reflexivity|].
    vm_compute. reflexivity. }
  destruct Hex as (sim & g & Hrun & Hlen).
  exists sim, g. split; [exact Hrun|]. split; [|now apply Nat.ltb_lt].
  apply (completions_bounded_by_capacity (mr := EndReturns) 1 1 "Round Robin" 300 example_tape sim g);
    [unfold INT_MAX; lia|exact Hrun].
Defined.
